(** * On-screen display of the Slippi playback build

    A shallow embedding of [Source/Core/VideoCommon/OnScreenDisplay.cpp]:
    the queue of transient messages ([AddTypedMessage], [AddMessage],
    [DrawMessages], [ClearMessages]) and the playback control bar
    ([GetTimeForFrame], [ButtonCustom], [SeekBarBehavior],
    [VolumeBarBehavior], [SeekBar], [VolumeBar],
    [DrawSlippiPlaybackControls]).

    Conventions.
    - [u32] and [s32] values are integers of [Z]; every conversion the C++
      performs is written out ([u32], [s32]).
    - [float] is IEEE binary32, computed with the Standard Library's
      [SpecFloat] operations at precision 24 and maximal exponent 128.
    - Static and global variables become fields of an explicit state that
      each call receives and returns.
    - What the code asks of ImGui, of the clock and of the host is an input
      of the call; what it tells the host is a list of [HostEvent]s.
    - Of what is handed to the renderer, the model keeps the windows of the
      messages ([DrawCall]) and the time label of the seek bar; the other
      calls that only feed ImGui (draw lists, cursor positions, tooltips,
      [SetActiveID], [ClearActiveID]) leave no trace. *)

From Stdlib Require Import ZArith List Bool Lia String Ascii QArith Qminmax Qabs.
From Stdlib Require Import DecimalString Sorted.
From Stdlib Require Import Floats.SpecFloat.
From Stdlib Require DecimalPos DecimalZ.
Import ListNotations.

Local Open Scope Z_scope.

Module OSD.

(** ** Machine integers *)

(** Conversion of an integer to [u32] (reduction modulo 2^32). *)
Definition u32 (z : Z) : Z := z mod 4294967296.

(** Conversion of an integer to [s32] / [int] (two's complement). *)
Definition s32 (z : Z) : Z := (z + 2147483648) mod 4294967296 - 2147483648.

Definition INT_MAX : Z := 2147483647.

(** ** binary32 arithmetic *)

Definition f32 : Type := spec_float.

(** [static_cast<float>] of an integer, and integer literals used as floats. *)
Definition f32_of_Z (z : Z) : f32 := binary_normalize 24 128 z 0 false.

Definition f32_add : f32 -> f32 -> f32 := SFadd 24 128.
Definition f32_sub : f32 -> f32 -> f32 := SFsub 24 128.
Definition f32_mul : f32 -> f32 -> f32 := SFmul 24 128.
Definition f32_div : f32 -> f32 -> f32 := SFdiv 24 128.
Definition f32_ltb : f32 -> f32 -> bool := SFltb.
Definition f32_eqb : f32 -> f32 -> bool := SFeqb.

(** [std::min(a, b)] is [(b < a) ? b : a]; [std::max(a, b)] is
    [(a < b) ? b : a]. *)
Definition std_min (a b : f32) : f32 := if f32_ltb b a then b else a.
Definition std_max (a b : f32) : f32 := if f32_ltb a b then b else a.

(** The literal [0.0001f]: the binary32 number nearest to 1/10000, bit
    pattern 0x38D1B717. *)
Definition f32_0_0001 : f32 := S754_finite false 13743895 (-37).

(** The rational number a binary32 datum denotes (0 for the non-numbers). *)
Definition f32_to_Q (x : f32) : Q :=
  match x with
  | S754_finite s m e =>
      let n := if s then Z.neg m else Z.pos m in
      match e with
      | Z0 => inject_Z n
      | Zpos p => inject_Z (n * Z.pow_pos 2 p)
      | Zneg p => Qmake n (Pos.pow 2 p)
      end
  | _ => 0%Q
  end.

Definition ImVec2 : Type := (f32 * f32)%type.

(** ** The message queue *)

(** [enum class MessageType] is declared in [OnScreenDisplay.h], which is
    not among the sources: an enumerator is represented by its underlying
    integer, and the enumerator [Typeless] is a variable of the section
    below. *)
Definition MessageType : Type := Z.

Record Message : Type := mkMessage {
  text : string;
  timestamp : Z;   (* u32 *)
  color : Z        (* u32 *)
}.

(** [std::multimap<MessageType, Message>]: the entries in iteration order,
    that is by key, entries of one key in insertion order. *)
Definition multimap : Type := list (MessageType * Message).

(** [s_messages.emplace(type, msg)]: the entry goes to the upper bound of
    its key. *)
Fixpoint emplace (type : MessageType) (msg : Message) (q : multimap) : multimap :=
  match q with
  | [] => [(type, msg)]
  | (k, m) :: rest =>
      if type <? k then (type, msg) :: (k, m) :: rest
      else (k, m) :: emplace type msg rest
  end.

(** [s_messages.erase(type)]: every entry of that key goes. *)
Definition erase (type : MessageType) (q : multimap) : multimap :=
  filter (fun e => negb (fst e =? type)) q.

(** The entries stored under one key ([equal_range]), in order. *)
Definition equal_range (type : MessageType) (q : multimap) : list Message :=
  map snd (filter (fun e => fst e =? type) q).

(** [AddTypedMessage]; [now] is what [Common::Timer::GetTimeMs()] returns
    during the call. *)
Definition AddTypedMessage (now : Z) (type : MessageType) (message : string)
    (ms rgba : Z) (s_messages : multimap) : multimap :=
  emplace type (mkMessage message (u32 (now + ms)) rgba) (erase type s_messages).

Definition ClearMessages (s_messages : multimap) : multimap := [].

Definition LEFT_MARGIN : f32 := f32_of_Z 10.
Definition TOP_MARGIN : f32 := f32_of_Z 10.
Definition WINDOW_PADDING : f32 := f32_of_Z 4.

Definition ImVec4 : Type := (f32 * f32 * f32 * f32)%type.

Definition RGBAToImVec4 (rgba : Z) : ImVec4 :=
  (f32_div (f32_of_Z (Z.land (Z.shiftr rgba 16) 255)) (f32_of_Z 255),
   f32_div (f32_of_Z (Z.land (Z.shiftr rgba 8) 255)) (f32_of_Z 255),
   f32_div (f32_of_Z (Z.land (Z.shiftr rgba 0) 255)) (f32_of_Z 255),
   f32_div (f32_of_Z (Z.land (Z.shiftr rgba 24) 255)) (f32_of_Z 255)).

(** One window handed to the renderer by [DrawMessage]. *)
Record DrawCall : Type := mkDrawCall {
  dc_index : Z;
  dc_position : ImVec2;
  dc_alpha : f32;
  dc_color : ImVec4;
  dc_msg : Message;
  dc_time_left : Z
}.

(** The remaining lifetime [DrawMessages] computes for a message:
    [static_cast<int>(msg.timestamp - now)] on [u32] operands. *)
Definition time_left_of (msg : Message) (now : Z) : Z :=
  s32 (u32 (timestamp msg - now)).

(** The opacity [DrawMessage] pushes for a message. *)
Definition DrawMessage_alpha (time_left : Z) : f32 :=
  std_min (f32_of_Z 1)
    (std_max (f32_of_Z 0) (f32_div (f32_of_Z time_left) (f32_of_Z 1024))).

Section Environment.

(** The enumerator [MessageType::Typeless]. *)
Variable Typeless : MessageType.

(** [Slippi::GAME_FIRST_FRAME] and [Slippi::PLAYBACK_FIRST_SAVE], integer
    constants of [Core/Slippi/SlippiPlayback.h]. *)
Variable GAME_FIRST_FRAME : Z.
Variable PLAYBACK_FIRST_SAVE : Z.

(** What ImGui answers for the window of the message drawn with a given
    index: [None] when [ImGui::Begin] returns false, else
    [ImGui::GetWindowSize().y]. *)
Variable osd_window : Z -> Message -> option f32.

(** ImGui's helpers [ImClamp(v, mn, mx)] on [float] and
    [ImLerp(a, b, t)] on [int] with a [float] parameter. *)
Variable ImClamp : f32 -> f32 -> f32 -> f32.
Variable ImLerp : Z -> Z -> f32 -> Z.

Definition AddMessage (now : Z) (message : string) (ms rgba : Z)
    (s_messages : multimap) : multimap :=
  emplace Typeless (mkMessage message (u32 (now + ms)) rgba) s_messages.

(** [DrawMessage]: the window it draws and the height it returns;
    [scale_y] is [ImGui::GetIO().DisplayFramebufferScale.y]. *)
Definition DrawMessage (scale_y : f32) (index : Z) (msg : Message)
    (position : ImVec2) (time_left : Z) : DrawCall * f32 :=
  let alpha := DrawMessage_alpha time_left in
  let window_height :=
    match osd_window index msg with
    | Some size_y => f32_add size_y (f32_mul WINDOW_PADDING scale_y)
    | None => f32_of_Z 0
    end in
  (mkDrawCall index position alpha (RGBAToImVec4 (color msg)) msg time_left,
   window_height).

(** The loop of [DrawMessages] over the entries from the iterator on: the
    entries that stay and the windows drawn. *)
Fixpoint DrawMessages_loop (draw_messages : bool) (now : Z) (scale_y : f32)
    (current_x current_y : f32) (index : Z) (it : multimap)
    : multimap * list DrawCall :=
  match it with
  | [] => ([], [])
  | (type, msg) :: rest =>
      let time_left := time_left_of msg now in
      if time_left <=? 0 then
        DrawMessages_loop draw_messages now scale_y current_x current_y index rest
      else if draw_messages then
        let '(dc, h) := DrawMessage scale_y index msg (current_x, current_y) time_left in
        let '(kept, drawn) :=
          DrawMessages_loop draw_messages now scale_y current_x
            (f32_add current_y h) (index + 1) rest in
        ((type, msg) :: kept, dc :: drawn)
      else
        let '(kept, drawn) :=
          DrawMessages_loop draw_messages now scale_y current_x current_y index rest in
        ((type, msg) :: kept, drawn)
  end.

(** [DrawMessages]; [draw_messages] is [bOnScreenDisplayMessages], [clock]
    what [GetTimeMs()] returns, [scale] the display framebuffer scale. *)
Definition DrawMessages (draw_messages : bool) (clock : Z) (scale : ImVec2)
    (s_messages : multimap) : multimap * list DrawCall :=
  let now := u32 clock in
  let current_x := f32_mul LEFT_MARGIN (fst scale) in
  let current_y := f32_mul TOP_MARGIN (snd scale) in
  DrawMessages_loop draw_messages now (snd scale) current_x current_y 0 s_messages.

(** ** The playback control bar *)

(** [sprintf]'s conversion [%02d]: the decimal digits, a minus sign first
    for a negative number, zero-padded to two characters. *)
Definition fmt_02d (n : Z) : string :=
  let digits := NilZero.string_of_int (Z.to_int n) in
  if (String.length digits <? 2)%nat then String "0" digits else digits.

(** [GetTimeForFrame].  The subtraction is an [int] subtraction and the
    text is printed into [char currTime[6]]: the result is [None] where the
    C++ has no defined result, that is when the difference is no [int] or
    the text and its terminator do not fit the six bytes. *)
Definition GetTimeForFrame (currFrame : Z) : option string :=
  let elapsed := currFrame - GAME_FIRST_FRAME in
  if (-2147483648 <=? elapsed) && (elapsed <=? 2147483647) then
    let currSeconds := Z.quot elapsed 60 in
    let currMinutes := Z.quot currSeconds 60 in
    let currRemainder := Z.rem currSeconds 60 in
    let currTime := (fmt_02d currMinutes ++ ":" ++ fmt_02d currRemainder)%string in
    if (String.length currTime <? 6)%nat then Some currTime else None
  else None.

(** The fields of [SlippiPlaybackStatus] the control bar touches. *)
Record SlippiPlaybackStatus : Type := mkStatus {
  currentPlaybackFrame : Z;
  lastFrame : Z;
  targetFrameNum : Z
}.

(** The calls that leave the overlay: [Host_PlaybackSeek()], which reads
    [g_playbackStatus->targetFrameNum], [Host_Fullscreen()], and
    [AudioCommon::UpdateSoundStream()], which reads [m_Volume]; each event
    carries what its call reads. *)
Inductive HostEvent : Type :=
| Host_PlaybackSeek (target : Z)
| Host_Fullscreen
| UpdateSoundStream (volume : Z).

(** Everything the control bar reads and writes between frames: the
    namespace's globals ([frame], [showHelp], [idle_tick], [prev_mouse]),
    the function-local statics ([isHeld] of each slider, [prev] of the mute
    button), [*g_playbackStatus], [SConfig::m_Volume] and ImGui's
    [style.Alpha]. *)
Record World : Type := mkWorld {
  frame : Z;
  showHelp : bool;
  idle_tick : Z;
  prev_mouse : ImVec2;
  seek_isHeld : bool;
  volume_isHeld : bool;
  prev : Z;
  g_playbackStatus : SlippiPlaybackStatus;
  m_Volume : Z;
  style_Alpha : f32
}.

Definition set_frame (x : Z) (w : World) : World :=
  mkWorld x (showHelp w) (idle_tick w) (prev_mouse w) (seek_isHeld w)
    (volume_isHeld w) (prev w) (g_playbackStatus w) (m_Volume w) (style_Alpha w).

Definition set_showHelp (x : bool) (w : World) : World :=
  mkWorld (frame w) x (idle_tick w) (prev_mouse w) (seek_isHeld w)
    (volume_isHeld w) (prev w) (g_playbackStatus w) (m_Volume w) (style_Alpha w).

Definition set_idle_tick (x : Z) (w : World) : World :=
  mkWorld (frame w) (showHelp w) x (prev_mouse w) (seek_isHeld w)
    (volume_isHeld w) (prev w) (g_playbackStatus w) (m_Volume w) (style_Alpha w).

Definition set_prev_mouse (x : ImVec2) (w : World) : World :=
  mkWorld (frame w) (showHelp w) (idle_tick w) x (seek_isHeld w)
    (volume_isHeld w) (prev w) (g_playbackStatus w) (m_Volume w) (style_Alpha w).

Definition set_seek_isHeld (x : bool) (w : World) : World :=
  mkWorld (frame w) (showHelp w) (idle_tick w) (prev_mouse w) x
    (volume_isHeld w) (prev w) (g_playbackStatus w) (m_Volume w) (style_Alpha w).

Definition set_volume_isHeld (x : bool) (w : World) : World :=
  mkWorld (frame w) (showHelp w) (idle_tick w) (prev_mouse w) (seek_isHeld w)
    x (prev w) (g_playbackStatus w) (m_Volume w) (style_Alpha w).

Definition set_prev (x : Z) (w : World) : World :=
  mkWorld (frame w) (showHelp w) (idle_tick w) (prev_mouse w) (seek_isHeld w)
    (volume_isHeld w) x (g_playbackStatus w) (m_Volume w) (style_Alpha w).

Definition set_playbackStatus (x : SlippiPlaybackStatus) (w : World) : World :=
  mkWorld (frame w) (showHelp w) (idle_tick w) (prev_mouse w) (seek_isHeld w)
    (volume_isHeld w) (prev w) x (m_Volume w) (style_Alpha w).

Definition set_m_Volume (x : Z) (w : World) : World :=
  mkWorld (frame w) (showHelp w) (idle_tick w) (prev_mouse w) (seek_isHeld w)
    (volume_isHeld w) (prev w) (g_playbackStatus w) x (style_Alpha w).

Definition set_style_Alpha (x : f32) (w : World) : World :=
  mkWorld (frame w) (showHelp w) (idle_tick w) (prev_mouse w) (seek_isHeld w)
    (volume_isHeld w) (prev w) (g_playbackStatus w) (m_Volume w) x.

Definition set_targetFrameNum (x : Z) (w : World) : World :=
  set_playbackStatus
    (mkStatus (currentPlaybackFrame (g_playbackStatus w))
       (lastFrame (g_playbackStatus w)) x) w.

(** The globals and statics as their initialisers leave them; [clock] is
    what [GetTimeMs()] returns when [idle_tick] is initialised. *)
Definition initial_world (clock : Z) (status : SlippiPlaybackStatus)
    (volume : Z) : World :=
  mkWorld 0 false (u32 clock) (f32_of_Z 0, f32_of_Z 0) false false 0
    status volume (f32_of_Z 1).

(** What ImGui answers for one [ButtonCustom]: the result of [ItemAdd] and
    the [pressed] result of [ButtonBehavior]. *)
Record ButtonIO : Type := mkButtonIO {
  ItemAdd : bool;
  ButtonBehavior : bool
}.

(** What a frame of [DrawSlippiPlaybackControls] reads from the clock and
    from ImGui. *)
Record FrameInput : Type := mkFrameInput {
  currTime : Z;                (* Common::Timer::GetTimeMs() *)
  mousePos : ImVec2;           (* ImGui::GetMousePos(), g.IO.MousePos *)
  WindowWidth : f32;           (* ImGui::GetWindowWidth() *)
  WindowHeight : f32;          (* ImGui::GetWindowHeight() *)
  Begin : bool;                (* ImGui::Begin(...) *)
  SkipItems : bool;            (* window->SkipItems *)
  MouseDown : bool;            (* g.IO.MouseDown[0] *)
  seek_hovered : bool;         (* ItemHoverable(hover_bb, id), seek bar *)
  HoveredID : Z;               (* ImGui::GetHoveredID() after the seek bar *)
  fast_backward : ButtonIO;
  step_backward : ButtonIO;
  step_forward : ButtonIO;
  fast_forward : ButtonIO;
  volume_button : ButtonIO;
  volume_hovered : bool;       (* ItemHoverable(bb, id), volume bar *)
  help_button : ButtonIO;
  fullscreen_button : ButtonIO
}.

(** An [ImRect]: its corners [Min] and [Max]. *)
Definition ImRect : Type := (ImVec2 * ImVec2)%type.

Definition BUTTON_WIDTH : f32 := f32_of_Z 54.

(** The value a slider reads off the pointer, as both [SeekBarBehavior] and
    [VolumeBarBehavior] compute it.  Their callers pass no vertical flag
    and [is_decimal] is false, so the axis is X and the value is linear in
    the pointer's abscissa: [ImLerp(v_min, v_max, clicked_t)]. *)
Definition slider_new_value (bb : ImRect) (MousePos : ImVec2) (v_min v_max : Z) : Z :=
  let slider_sz := f32_sub (fst (snd bb)) (fst (fst bb)) in
  let slider_usable_pos_min := fst (fst bb) in
  let mouse_abs_pos := fst MousePos in
  let clicked_t :=
    if f32_ltb (f32_of_Z 0) slider_sz
    then ImClamp (f32_div (f32_sub mouse_abs_pos slider_usable_pos_min) slider_sz)
           (f32_of_Z 0) (f32_of_Z 1)
    else f32_of_Z 0 in
  ImLerp v_min v_max clicked_t.

(** [ButtonCustom]: whether the button reports a press. *)
Definition ButtonCustom (skip_items : bool) (b : ButtonIO) : bool :=
  if skip_items then false
  else if negb (ItemAdd b) then false
  else ButtonBehavior b.

(** [SeekBarBehavior], called with [v = &frame]: [*v] and the global
    [frame] are one object.  The result is [value_changed], the label drawn
    above the handle if one is drawn, and the world the call leaves. *)
Definition SeekBarBehavior (bb : ImRect) (isDown hovered : bool) (MousePos : ImVec2)
    (v_min v_max : Z) (w : World) : bool * option (option string) * World :=
  let isHeld := seek_isHeld w in
  let new_value :=
    if hovered || isHeld then slider_new_value bb MousePos v_min v_max else 0 in
  let w1 :=
    if (hovered || isHeld) && (negb (frame w =? new_value) && isDown)
    then set_frame new_value w else w in
  let '(value_changed, w2) :=
    if isHeld then
      let w' := set_seek_isHeld (isHeld && isDown) w1 in
      if negb (seek_isHeld w')
      then (true, set_targetFrameNum (frame w') w')
      else (false, w')
    else (false, set_seek_isHeld (hovered && isDown) w1) in
  let label :=
    if hovered || seek_isHeld w2 then Some (GetTimeForFrame new_value) else None in
  let w3 :=
    if negb (seek_isHeld w2) then
      set_frame
        (if targetFrameNum (g_playbackStatus w2) =? INT_MAX
         then currentPlaybackFrame (g_playbackStatus w2)
         else targetFrameNum (g_playbackStatus w2)) w2
    else w2 in
  (value_changed, label, w3).

(** The [frame_bb] of [SeekBar]: the bottom 70 pixels of the window. *)
Definition SeekBar_frame_bb (i : FrameInput) : ImRect :=
  ((f32_of_Z 0, f32_sub (WindowHeight i) (f32_of_Z 70)),
   (WindowWidth i, WindowHeight i)).

(** [SeekBar("SlippiSeek", color, &frame, v_min, v_max, ...)]. *)
Definition SeekBar (i : FrameInput) (v_min v_max : Z) (w : World)
    : bool * option (option string) * World :=
  if SkipItems i then (false, None, w)
  else SeekBarBehavior (SeekBar_frame_bb i) (MouseDown i) (seek_hovered i)
         (mousePos i) v_min v_max w.

(** [VolumeBarBehavior], called with [v = &SConfig::GetInstance().m_Volume]. *)
Definition VolumeBarBehavior (bb : ImRect) (isDown hovered : bool) (MousePos : ImVec2)
    (v_min v_max : Z) (w : World) : bool * World :=
  let isHeld := volume_isHeld w in
  let new_value :=
    if isHeld || hovered then slider_new_value bb MousePos v_min v_max else 0 in
  let '(value_changed, w1) :=
    if (isHeld || hovered) && (negb (m_Volume w =? new_value) && isDown)
    then (true, set_m_Volume new_value w) else (false, w) in
  let w2 :=
    set_volume_isHeld (if isHeld then isHeld && isDown else hovered && isDown) w1 in
  (value_changed, w2).

(** The [frame_bb] of [VolumeBar]: 80 pixels to the right of the fifth
    button. *)
Definition VolumeBar_frame_bb (i : FrameInput) : ImRect :=
  ((f32_mul BUTTON_WIDTH (f32_of_Z 5), f32_sub (WindowHeight i) (f32_of_Z 50)),
   (f32_add (f32_mul BUTTON_WIDTH (f32_of_Z 5)) (f32_of_Z 80),
    f32_sub (WindowHeight i) (f32_of_Z 32))).

(** [VolumeBar("SlippiVolume", color, volume, v_min, v_max, ...)]. *)
Definition VolumeBar (i : FrameInput) (v_min v_max : Z) (w : World) : bool * World :=
  if SkipItems i then (false, w)
  else VolumeBarBehavior (VolumeBar_frame_bb i) (MouseDown i) (volume_hovered i)
         (mousePos i) v_min v_max w.

(** A part of a frame: the world it leaves and the calls it makes. *)
Definition step : Type := World -> World * list HostEvent.

Definition and_then (f g : step) : step :=
  fun w => let '(w1, e1) := f w in let '(w2, e2) := g w1 in (w2, e1 ++ e2).

Notation "f ;; g" := (and_then f g) (at level 61, right associativity).

(** The seek bar and the seek request its release raises. *)
Definition seek_bar_step (i : FrameInput) : step := fun w =>
  let '(value_changed, _, w1) :=
    SeekBar i PLAYBACK_FIRST_SAVE (lastFrame (g_playbackStatus w)) w in
  if value_changed
  then (w1, [Host_PlaybackSeek (targetFrameNum (g_playbackStatus w1))])
  else (w1, []).

(** [style.Alpha = (showHelp || GetHoveredID()) ? 1 : max(0.0001f, 1.0f - diff / 1000.0f)]. *)
Definition alpha_step (i : FrameInput) (diff : Z) : step := fun w =>
  (set_style_Alpha
     (if showHelp w || negb (HoveredID i =? 0) then f32_of_Z 1
      else std_max f32_0_0001
             (f32_sub (f32_of_Z 1) (f32_div (f32_of_Z diff) (f32_of_Z 1000)))) w,
   []).

(** One of the four jump buttons; [delta] is -1200, -300, 300 or 1200 and
    the sum is an [int]. *)
Definition jump_step (i : FrameInput) (b : ButtonIO) (delta : Z) : step := fun w =>
  if ButtonCustom (SkipItems i) b then
    if targetFrameNum (g_playbackStatus w) =? INT_MAX then
      let w1 :=
        set_targetFrameNum (s32 (currentPlaybackFrame (g_playbackStatus w) + delta)) w in
      (w1, [Host_PlaybackSeek (targetFrameNum (g_playbackStatus w1))])
    else (w, [])
  else (w, []).

(** The mute button. *)
Definition volume_button_step (i : FrameInput) : step := fun w =>
  if ButtonCustom (SkipItems i) (volume_button i) then
    let w1 :=
      if m_Volume w =? 0
      then set_m_Volume (if prev w =? 0 then 30 else prev w) w
      else set_m_Volume 0 (set_prev (m_Volume w) w) in
    (w1, [UpdateSoundStream (m_Volume w1)])
  else (w, []).

(** The volume bar and the volume change it applies. *)
Definition volume_bar_step (i : FrameInput) : step := fun w =>
  let '(value_changed, w1) := VolumeBar i 0 100 w in
  if value_changed then (w1, [UpdateSoundStream (m_Volume w1)]) else (w1, []).

Definition help_step (i : FrameInput) : step := fun w =>
  if ButtonCustom (SkipItems i) (help_button i)
  then (set_showHelp (negb (showHelp w)) w, [])
  else (w, []).

Definition fullscreen_step (i : FrameInput) : step := fun w =>
  if ButtonCustom (SkipItems i) (fullscreen_button i)
  then (w, [Host_Fullscreen])
  else (w, []).

(** [DrawSlippiPlaybackControls]. *)
Definition DrawSlippiPlaybackControls (i : FrameInput) (w : World)
    : World * list HostEvent :=
  let w1 :=
    if negb (f32_eqb (fst (mousePos i)) (fst (prev_mouse w)) &&
             f32_eqb (snd (mousePos i)) (snd (prev_mouse w)))
    then set_idle_tick (u32 (currTime i)) w else w in
  let w2 := set_prev_mouse (mousePos i) w1 in
  let diff := s32 (currTime i - idle_tick w2) in
  let diff := if diff <? 1000 then 0 else diff - 1000 in
  if Begin i then
    (seek_bar_step i ;;
     alpha_step i diff ;;
     jump_step i (fast_backward i) (-1200) ;;
     jump_step i (step_backward i) (-300) ;;
     jump_step i (step_forward i) 300 ;;
     jump_step i (fast_forward i) 1200 ;;
     volume_button_step i ;;
     volume_bar_step i ;;
     help_step i ;;
     fullscreen_step i) w2
  else (w2, []).

(** Successive frames; before each one the emulation publishes the
    playback status the frame sees.  The result lists the calls of each
    frame. *)
Fixpoint run_frames (w : World) (frames : list (SlippiPlaybackStatus * FrameInput))
    : World * list (list HostEvent) :=
  match frames with
  | [] => (w, [])
  | (status, i) :: rest =>
      let '(w1, calls) := DrawSlippiPlaybackControls i (set_playbackStatus status w) in
      let '(w2, later) := run_frames w1 rest in
      (w2, calls :: later)
  end.

Definition is_seek (e : HostEvent) : bool :=
  match e with Host_PlaybackSeek _ => true | _ => false end.

Definition is_volume_change (e : HostEvent) : bool :=
  match e with UpdateSoundStream _ => true | _ => false end.

(** ** Sequences of calls on the message queue *)

(** The arguments of one call of [AddTypedMessage] or [AddMessage] (whose
    [cl_type] is not read), with the clock value the call reads. *)
Record AddCall : Type := mkAddCall {
  cl_now : Z;
  cl_type : MessageType;
  cl_text : string;
  cl_ms : Z;
  cl_rgba : Z
}.

(** The message a call stores. *)
Definition stored (c : AddCall) : Message :=
  mkMessage (cl_text c) (u32 (cl_now c + cl_ms c)) (cl_rgba c).

Definition run_typed (calls : list AddCall) (q : multimap) : multimap :=
  fold_left
    (fun q c => AddTypedMessage (cl_now c) (cl_type c) (cl_text c) (cl_ms c) (cl_rgba c) q)
    calls q.

Definition run_untyped (calls : list AddCall) (q : multimap) : multimap :=
  fold_left
    (fun q c => AddMessage (cl_now c) (cl_text c) (cl_ms c) (cl_rgba c) q)
    calls q.

(** The last call of a sequence that names a given type. *)
Definition last_of_type (type : MessageType) (calls : list AddCall) : option AddCall :=
  find (fun c => cl_type c =? type) (rev calls).

(** What one call of [DrawMessages] reads. *)
Record DrawArgs : Type := mkDrawArgs {
  da_enabled : bool;
  da_clock : Z;
  da_scale : ImVec2
}.

Definition run_draws (calls : list DrawArgs) (q : multimap) : multimap :=
  fold_left
    (fun q c => fst (DrawMessages (da_enabled c) (da_clock c) (da_scale c) q))
    calls q.

(** One call on the queue, and the queue a sequence of calls leaves. *)
Inductive QueueOp : Type :=
| OpAddTyped (c : AddCall)
| OpAdd (c : AddCall)
| OpDraw (a : DrawArgs)
| OpClear.

Definition apply_op (q : multimap) (op : QueueOp) : multimap :=
  match op with
  | OpAddTyped c =>
      AddTypedMessage (cl_now c) (cl_type c) (cl_text c) (cl_ms c) (cl_rgba c) q
  | OpAdd c => AddMessage (cl_now c) (cl_text c) (cl_ms c) (cl_rgba c) q
  | OpDraw a => fst (DrawMessages (da_enabled a) (da_clock a) (da_scale a) q)
  | OpClear => ClearMessages q
  end.

Definition run_ops (ops : list QueueOp) (q : multimap) : multimap :=
  fold_left apply_op ops q.

(** ** Vocabulary of the properties *)

(** An entry whose remaining lifetime at [now] is positive. *)
Definition alive (now : Z) (e : MessageType * Message) : bool :=
  0 <? time_left_of (snd e) now.

(** The order of the keys of two entries, and a queue in iteration order. *)
Definition key_le (a b : MessageType * Message) : Prop := fst a <= fst b.

Definition ordered (q : multimap) : Prop := StronglySorted key_le q.

(** A frame in which the bar is laid out and none of the four jump buttons
    reports a press. *)
Definition plain_frame (i : FrameInput) : bool :=
  Begin i && negb (SkipItems i) &&
  negb (ButtonCustom (SkipItems i) (fast_backward i)) &&
  negb (ButtonCustom (SkipItems i) (step_backward i)) &&
  negb (ButtonCustom (SkipItems i) (step_forward i)) &&
  negb (ButtonCustom (SkipItems i) (fast_forward i)).

(** The value the pointer position of a frame maps to on the seek bar. *)
Definition seek_value (f : SlippiPlaybackStatus * FrameInput) : Z :=
  slider_new_value (SeekBar_frame_bb (snd f)) (mousePos (snd f))
    PLAYBACK_FIRST_SAVE (lastFrame (fst f)).

(** The value the pointer position of a frame maps to on the volume bar. *)
Definition volume_value (i : FrameInput) : Z :=
  slider_new_value (VolumeBar_frame_bb i) (mousePos i) 0 100.

(** A drag of the seek bar: a press while the bar is hovered and not held,
    frames with the button down, a frame with the button up. *)
Definition seek_drag (w : World) (press : SlippiPlaybackStatus * FrameInput)
    (held : list (SlippiPlaybackStatus * FrameInput))
    (release : SlippiPlaybackStatus * FrameInput) : Prop :=
  seek_isHeld w = false /\
  plain_frame (snd press) = true /\
  seek_hovered (snd press) = true /\ MouseDown (snd press) = true /\
  (forall f, In f held -> plain_frame (snd f) = true /\ MouseDown (snd f) = true) /\
  plain_frame (snd release) = true /\ MouseDown (snd release) = false.

(** The seek requests of each frame of a run. *)
Definition seek_requests (w : World) (frames : list (SlippiPlaybackStatus * FrameInput))
    : list (list HostEvent) :=
  map (filter is_seek) (snd (run_frames w frames)).

(** The opacity of a bar that has been idle for [diff] milliseconds past
    the first second, help closed and nothing hovered. *)
Definition fade (diff : Z) : f32 :=
  std_max f32_0_0001
    (f32_sub (f32_of_Z 1) (f32_div (f32_of_Z diff) (f32_of_Z 1000))).

(** Whether the pointer is elsewhere than in the frame before, as the
    frame tests it. *)
Definition pointer_moved (i : FrameInput) (w : World) : bool :=
  negb (f32_eqb (fst (mousePos i)) (fst (prev_mouse w)) &&
        f32_eqb (snd (mousePos i)) (snd (prev_mouse w))).

(** The decimal digit [d] as a character, and a number below 100 as two
    digits. *)
Definition digit (d : Z) : ascii := ascii_of_nat (48 + Z.to_nat d).

Definition two_digits (n : Z) : string :=
  String (digit (n / 10)) (String (digit (n mod 10)) EmptyString).

Definition MM_SS (minutes seconds : Z) : string :=
  (two_digits minutes ++ ":" ++ two_digits seconds)%string.

(** A part of a frame that leaves the seek bar alone: it keeps [frame] and
    the seek bar's [isHeld], and raises no seek request. *)
Definition seek_neutral (st : step) : Prop :=
  forall w,
    frame (fst (st w)) = frame w /\
    seek_isHeld (fst (st w)) = seek_isHeld w /\
    filter is_seek (snd (st w)) = [].

(** A part of a frame that leaves the volume alone. *)
Definition volume_neutral (st : step) : Prop :=
  forall w,
    m_Volume (fst (st w)) = m_Volume w /\
    volume_isHeld (fst (st w)) = volume_isHeld w /\
    prev (fst (st w)) = prev w /\
    filter is_volume_change (snd (st w)) = [].

(** A part of a frame that leaves [style.Alpha] alone. *)
Definition alpha_neutral (st : step) : Prop :=
  forall w, style_Alpha (fst (st w)) = style_Alpha w.

(** ** Further vocabulary *)

(** The name [DrawMessage] gives the window of index [index]:
    [fmt::format("osd_{}", index)]. *)
Definition window_name (index : Z) : string :=
  ("osd_" ++ NilZero.string_of_int (Z.to_int index))%string.

(** The [float] a colour byte becomes, and the 32-bit colour made of four
    bytes, the alpha byte on top. *)
Definition channel (byte : Z) : f32 := f32_div (f32_of_Z byte) (f32_of_Z 255).

Definition ARGB (a r g b : Z) : Z := a * 16777216 + r * 65536 + g * 256 + b.

(** The height [DrawMessage] returned for a window it drew. *)
Definition window_height (scale_y : f32) (dc : DrawCall) : f32 :=
  snd (DrawMessage scale_y (dc_index dc) (dc_msg dc) (dc_position dc) (dc_time_left dc)).

(** Windows in a column at abscissa [x] from ordinate [y] down, each one
    starting where the height returned for the one before it ends. *)
Fixpoint stacked (scale_y x y : f32) (drawn : list DrawCall) : Prop :=
  match drawn with
  | [] => True
  | dc :: rest =>
      dc_position dc = (x, y) /\
      stacked scale_y x (f32_add y (window_height scale_y dc)) rest
  end.

(** An entry alive at the clock value of each of the calls. *)
Definition survives (calls : list DrawArgs) (e : MessageType * Message) : bool :=
  forallb (fun c => alive (u32 (da_clock c)) e) calls.

(** A sequence of calls that only adds, none of them a typed message of the
    type [Typeless], and the messages its [AddMessage] calls store. *)
Definition adds_beside_untyped (ops : list QueueOp) : bool :=
  forallb (fun op =>
             match op with
             | OpAddTyped c => negb (cl_type c =? Typeless)
             | OpAdd _ => true
             | OpDraw _ => false
             | OpClear => false
             end) ops.

Definition untyped_of (ops : list QueueOp) : list Message :=
  flat_map (fun op => match op with OpAdd c => [stored c] | _ => [] end) ops.

(** The offset of the first jump button, in the order of the frame, that
    reports a press. *)
Definition pressed_jump (i : FrameInput) : option Z :=
  if ButtonCustom (SkipItems i) (fast_backward i) then Some (-1200)
  else if ButtonCustom (SkipItems i) (step_backward i) then Some (-300)
  else if ButtonCustom (SkipItems i) (step_forward i) then Some 300
  else if ButtonCustom (SkipItems i) (fast_forward i) then Some 1200
  else None.

Definition is_fullscreen (e : HostEvent) : bool :=
  match e with Host_Fullscreen => true | _ => false end.

(** A frame in which the volume bar is not being set: it is neither held
    nor hovered, or the mouse button is up. *)
Definition volume_bar_idle (i : FrameInput) (w : World) : bool :=
  negb ((volume_isHeld w || volume_hovered i) && MouseDown i).

(** A frame that lets the held seek bar go. *)
Definition seek_released (i : FrameInput) (w : World) : bool :=
  negb (SkipItems i) && seek_isHeld w && negb (MouseDown i).

(** A frame in which none of the seven buttons reports a press. *)
Definition no_press (i : FrameInput) : bool :=
  negb (ButtonCustom (SkipItems i) (fast_backward i)) &&
  negb (ButtonCustom (SkipItems i) (step_backward i)) &&
  negb (ButtonCustom (SkipItems i) (step_forward i)) &&
  negb (ButtonCustom (SkipItems i) (fast_forward i)) &&
  negb (ButtonCustom (SkipItems i) (volume_button i)) &&
  negb (ButtonCustom (SkipItems i) (help_button i)) &&
  negb (ButtonCustom (SkipItems i) (fullscreen_button i)).

(** A part of a frame that keeps a component of the world, and one that
    makes no call of a kind. *)
Definition keeps {A : Type} (field : World -> A) (st : step) : Prop :=
  forall w, field (fst (st w)) = field w.

Definition silent (kind : HostEvent -> bool) (st : step) : Prop :=
  forall w, filter kind (snd (st w)) = [].

(** ** Sample inputs *)

Definition idle_button : ButtonIO := mkButtonIO true false.
Definition pressed_button : ButtonIO := mkButtonIO true true.

(** The two helpers as ImGui defines them: clamping by comparisons, and
    interpolation in [float] converted back to [int] by truncation. *)
Definition clamp (v mn mx : f32) : f32 :=
  if f32_ltb v mn then mn else if f32_ltb mx v then mx else v.

Definition truncate (x : f32) : Z :=
  match x with
  | S754_finite s m e =>
      let n :=
        match e with
        | Z0 => Z.pos m
        | Zpos p => Z.pos m * Z.pow_pos 2 p
        | Zneg p => Z.pos m / Z.pow_pos 2 p
        end in
      if s then - n else n
  | _ => 0
  end.

Definition lerp (a b : Z) (t : f32) : Z :=
  truncate (f32_add (f32_of_Z a) (f32_mul (f32_of_Z (b - a)) t)).

(** A frame at clock value [clock] in a window of 1000 by 600 pixels, with
    the pointer at abscissa [x], the mouse button [down], the seek bar
    [hovered] and no button pressed. *)
Definition seek_frame (clock : Z) (down hovered : bool) (x : Z) : FrameInput :=
  mkFrameInput clock (f32_of_Z x, f32_of_Z 0) (f32_of_Z 1000) (f32_of_Z 600)
    true false down hovered 0 idle_button idle_button idle_button idle_button
    idle_button false idle_button idle_button.

(** Such a frame with the volume bar [hovered]. *)
Definition volume_frame (clock : Z) (down hovered : bool) (x : Z) : FrameInput :=
  mkFrameInput clock (f32_of_Z x, f32_of_Z 0) (f32_of_Z 1000) (f32_of_Z 600)
    true false down false 0 idle_button idle_button idle_button idle_button
    idle_button hovered idle_button idle_button.

(** A frame in which the mute button reports a press. *)
Definition mute_frame (clock : Z) : FrameInput :=
  mkFrameInput clock (f32_of_Z 0, f32_of_Z 0) (f32_of_Z 1000) (f32_of_Z 600)
    true false false false 0 idle_button idle_button idle_button idle_button
    pressed_button false idle_button idle_button.

Definition free_running : SlippiPlaybackStatus := mkStatus 0 878 INT_MAX.

Definition unit_scale : ImVec2 := (f32_of_Z 1, f32_of_Z 1).

Definition no_window : Z -> Message -> option f32 := fun _ _ => None.

(** A frame in which the seven buttons answer as given, the pointer at the
    origin and the mouse button up. *)
Definition button_frame (clock : Z) (fb sb sf ff vb hb fs : ButtonIO) : FrameInput :=
  mkFrameInput clock (f32_of_Z 0, f32_of_Z 0) (f32_of_Z 1000) (f32_of_Z 600)
    true false false false 0 fb sb sf ff vb false hb fs.

(** A frame whose window ImGui does not begin, though every button would
    answer with a press. *)
Definition hidden_frame (clock : Z) : FrameInput :=
  mkFrameInput clock (f32_of_Z 0, f32_of_Z 0) (f32_of_Z 1000) (f32_of_Z 600)
    false true true true 0 pressed_button pressed_button pressed_button
    pressed_button pressed_button true pressed_button pressed_button.

(** A frame in which the mute button reports a press while the volume bar
    is hovered with the mouse button down, the pointer at abscissa [x]. *)
Definition mute_on_bar_frame (clock x : Z) : FrameInput :=
  mkFrameInput clock (f32_of_Z x, f32_of_Z 0) (f32_of_Z 1000) (f32_of_Z 600)
    true false true false 0 idle_button idle_button idle_button idle_button
    pressed_button true idle_button idle_button.

(** A replay of 9000 frames playing at frame [current], no seek pending. *)
Definition playing (current : Z) : SlippiPlaybackStatus :=
  mkStatus current 9000 INT_MAX.

(** * Properties *)

#[local] Arguments u32 : simpl never.
#[local] Arguments s32 : simpl never.
#[local] Arguments f32_of_Z : simpl never.
#[local] Arguments f32_add : simpl never.
#[local] Arguments f32_sub : simpl never.
#[local] Arguments f32_mul : simpl never.
#[local] Arguments f32_div : simpl never.
#[local] Arguments f32_ltb : simpl never.
#[local] Arguments f32_eqb : simpl never.
#[local] Arguments std_min : simpl never.
#[local] Arguments std_max : simpl never.
#[local] Arguments DrawMessage_alpha : simpl never.
#[local] Arguments RGBAToImVec4 : simpl never.
#[local] Arguments time_left_of : simpl never.
#[local] Arguments WINDOW_PADDING : simpl never.
#[local] Arguments slider_new_value : simpl never.

(** Case analysis on every condition of the goal. *)
Ltac split_ifs :=
  repeat (simpl;
          match goal with
          | |- context [if ?b then _ else _] => destruct b
          end);
  simpl; auto.

(** ** 32-bit arithmetic *)

Lemma u32_range : forall z, 0 <= u32 z < 4294967296.
Proof. intros z. unfold u32. apply Z.mod_pos_bound. lia. Qed.

Lemma u32_small : forall z, 0 <= z < 4294967296 -> u32 z = z.
Proof. intros z H. unfold u32. now apply Z.mod_small. Qed.

Lemma s32_range : forall z, -2147483648 <= s32 z < 2147483648.
Proof.
  intros z. unfold s32.
  pose proof (Z.mod_pos_bound (z + 2147483648) 4294967296). lia.
Qed.

Lemma s32_small : forall z, -2147483648 <= z < 2147483648 -> s32 z = z.
Proof. intros z H. unfold s32. rewrite Z.mod_small; lia. Qed.

Lemma s32_u32 : forall z, s32 (u32 z) = s32 z.
Proof.
  intros z. unfold s32, u32. now rewrite Zplus_mod_idemp_l.
Qed.

Lemma u32_sub_u32 : forall a b, u32 (u32 a - u32 b) = u32 (a - b).
Proof.
  intros a b. unfold u32.
  now rewrite Zminus_mod_idemp_l, Zminus_mod_idemp_r.
Qed.

(** The remaining lifetime of a message stored at clock value [t] with
    duration [d], seen at clock value [now]: the difference [t + d - now]
    read as a 32-bit signed number. *)
Lemma time_left_of_stored :
  forall message rgba t d now,
    time_left_of (mkMessage message (u32 (t + d)) rgba) (u32 now)
    = s32 (t + d - now).
Proof.
  intros. unfold time_left_of. simpl.
  now rewrite s32_u32, <- s32_u32, u32_sub_u32, s32_u32.
Qed.

(** ** Keys of the multimap *)

Lemma filter_emplace_other :
  forall (f : MessageType * Message -> bool) type msg q,
    f (type, msg) = false ->
    filter f (emplace type msg q) = filter f q.
Proof.
  intros f type msg q Hf.
  induction q as [|[k m] rest IH]; simpl.
  - now rewrite Hf.
  - destruct (type <? k); simpl.
    + now rewrite Hf.
    + now rewrite IH.
Qed.

Lemma filter_emplace_fresh :
  forall (f : MessageType * Message -> bool) type msg q,
    f (type, msg) = true ->
    filter f q = [] ->
    filter f (emplace type msg q) = [(type, msg)].
Proof.
  intros f type msg q Hf.
  induction q as [|[k m] rest IH]; simpl; intros Hq.
  - now rewrite Hf.
  - destruct (f (k, m)) eqn:Hk; [discriminate|].
    destruct (type <? k); simpl.
    + now rewrite Hf, Hk, Hq.
    + rewrite Hk. now apply IH.
Qed.

Lemma filter_emplace_length :
  forall (f : MessageType * Message -> bool) type msg q,
    f (type, msg) = true ->
    List.length (filter f (emplace type msg q)) = S (List.length (filter f q)).
Proof.
  intros f type msg q Hf.
  induction q as [|[k m] rest IH]; simpl.
  - now rewrite Hf.
  - destruct (type <? k); simpl.
    + now rewrite Hf.
    + destruct (f (k, m)); simpl; now rewrite IH.
Qed.

Lemma In_emplace :
  forall type msg q e,
    In e (emplace type msg q) <-> e = (type, msg) \/ In e q.
Proof.
  intros type msg q e.
  induction q as [|[k m] rest IH]; simpl.
  - split; (intros [H|H]; [left; symmetry; exact H|right; exact H]).
  - destruct (type <? k); simpl.
    + split; (intros [H|H]; [left; symmetry; exact H|right; exact H]).
    + rewrite IH. split.
      * intros [H|[H|H]]; [right; left; exact H|left; exact H|right; right; exact H].
      * intros [H|[H|H]]; [right; left; exact H|left; exact H|right; right; exact H].
Qed.

Lemma equal_range_erase_same :
  forall type q, equal_range type (erase type q) = [].
Proof.
  intros type q. unfold equal_range, erase.
  induction q as [|[k m] rest IH]; simpl; [reflexivity|].
  destruct (k =? type) eqn:Hk; simpl; [exact IH|].
  now rewrite Hk.
Qed.

Lemma equal_range_erase_other :
  forall type type' q,
    type' <> type ->
    equal_range type' (erase type q) = equal_range type' q.
Proof.
  intros type type' q Hne. unfold equal_range, erase.
  induction q as [|[k m] rest IH]; simpl; [reflexivity|].
  destruct (k =? type) eqn:Hk; simpl.
  - apply Z.eqb_eq in Hk. subst k.
    destruct (type =? type') eqn:Hk'; [apply Z.eqb_eq in Hk'; congruence|].
    exact IH.
  - destruct (k =? type'); simpl; now rewrite IH.
Qed.

(** One call of [AddTypedMessage] leaves exactly its own message under its
    key. *)
Lemma equal_range_AddTypedMessage_same :
  forall now type message ms rgba q,
    equal_range type (AddTypedMessage now type message ms rgba q)
    = [mkMessage message (u32 (now + ms)) rgba].
Proof.
  intros. unfold AddTypedMessage, equal_range.
  rewrite filter_emplace_fresh.
  - reflexivity.
  - simpl. apply Z.eqb_refl.
  - pose proof (equal_range_erase_same type q) as H.
    unfold equal_range in H. now apply map_eq_nil in H.
Qed.

(** It leaves the other keys as they were. *)
Lemma equal_range_AddTypedMessage_other :
  forall now type type' message ms rgba q,
    type' <> type ->
    equal_range type' (AddTypedMessage now type message ms rgba q)
    = equal_range type' q.
Proof.
  intros now type type' message ms rgba q Hne.
  unfold AddTypedMessage.
  rewrite <- (equal_range_erase_other type type' q Hne).
  unfold equal_range. rewrite filter_emplace_other; [reflexivity|].
  simpl. apply Z.eqb_neq. congruence.
Qed.

Lemma run_typed_app :
  forall calls c q,
    run_typed (calls ++ [c]) q
    = AddTypedMessage (cl_now c) (cl_type c) (cl_text c) (cl_ms c) (cl_rgba c)
        (run_typed calls q).
Proof.
  intros. unfold run_typed. now rewrite fold_left_app.
Qed.

(** C1. After any sequence of [AddTypedMessage] calls, on any queue, a key
    named by one of the calls holds exactly one message, the one stored by
    the last call that named it (text and colour of that call, expiry the
    [u32] sum of the clock value and the duration of that call); a key no
    call named holds what it held before.  From the empty queue, no key
    holds more than one message.  The expiry is the sum itself whenever the
    sum is a [u32]. *)
Theorem AddTypedMessage_keeps_latest :
  forall (calls : list AddCall) (q0 : multimap) (type : MessageType),
    match last_of_type type calls with
    | Some c =>
        In c calls /\ cl_type c = type /\
        equal_range type (run_typed calls q0) = [stored c]
    | None => equal_range type (run_typed calls q0) = equal_range type q0
    end /\
    (List.length (equal_range type (run_typed calls [])) <= 1)%nat /\
    (forall c,
        0 <= cl_now c + cl_ms c < 4294967296 ->
        timestamp (stored c) = cl_now c + cl_ms c).
Proof.
  assert (main : forall calls q0 type,
    match last_of_type type calls with
    | Some c =>
        In c calls /\ cl_type c = type /\
        equal_range type (run_typed calls q0) = [stored c]
    | None => equal_range type (run_typed calls q0) = equal_range type q0
    end).
  { induction calls as [|c calls IH] using rev_ind; intros q0 type.
    - reflexivity.
    - unfold last_of_type. rewrite rev_app_distr. simpl.
      rewrite run_typed_app.
      destruct (cl_type c =? type) eqn:Hc.
      + apply Z.eqb_eq in Hc. subst type.
        split; [apply in_or_app; right; now left|].
        split; [reflexivity|].
        apply equal_range_AddTypedMessage_same.
      + apply Z.eqb_neq in Hc.
        rewrite equal_range_AddTypedMessage_other by congruence.
        specialize (IH q0 type). unfold last_of_type in IH.
        destruct (find _ (rev calls)) as [c'|].
        * destruct IH as (Hin & Hty & Heq).
          split; [apply in_or_app; now left|]. now split.
        * exact IH. }
  intros calls q0 type. split; [apply main|]. split.
  - specialize (main calls [] type).
    destruct (last_of_type type calls) as [c|].
    + destruct main as (_ & _ & ->). simpl. lia.
    + rewrite main. simpl. lia.
  - intros c Hc. simpl. now apply u32_small.
Qed.

Lemma run_untyped_app :
  forall calls c q,
    run_untyped (calls ++ [c]) q
    = AddMessage (cl_now c) (cl_text c) (cl_ms c) (cl_rgba c) (run_untyped calls q).
Proof.
  intros. unfold run_untyped. now rewrite fold_left_app.
Qed.

Lemma run_untyped_length :
  forall calls q,
    List.length (equal_range Typeless (run_untyped calls q))
    = (List.length calls + List.length (equal_range Typeless q))%nat.
Proof.
  induction calls as [|c calls IH] using rev_ind; intros q.
  - reflexivity.
  - rewrite run_untyped_app, length_app. simpl.
    specialize (IH q). unfold AddMessage, equal_range in *.
    rewrite !length_map in *.
    rewrite filter_emplace_length by (simpl; apply Z.eqb_refl).
    etransitivity; [apply f_equal; exact IH|lia].
Qed.

Lemma run_untyped_In :
  forall calls q c,
    In c calls -> In (Typeless, stored c) (run_untyped calls q).
Proof.
  induction calls as [|c' calls IH] using rev_ind; intros q c Hin.
  - destruct Hin.
  - rewrite run_untyped_app. unfold AddMessage. apply In_emplace.
    apply in_app_or in Hin. destruct Hin as [Hin|[->|[]]].
    + right. now apply IH.
    + now left.
Qed.

(** C2. Messages added by [AddMessage] all sit under the key [Typeless]:
    after [n] such calls the key holds [n] more messages than before, each
    of them present; one call of [AddTypedMessage] with the type
    [Typeless] then leaves exactly one message under that key, its own, and
    does not touch the other keys. *)
Theorem AddTypedMessage_Typeless_erases_untyped :
  forall (calls : list AddCall) (q0 : multimap) now message ms rgba,
    let q := run_untyped calls q0 in
    let q' := AddTypedMessage now Typeless message ms rgba q in
    List.length (equal_range Typeless q)
      = (List.length calls + List.length (equal_range Typeless q0))%nat /\
    (forall c, In c calls -> In (stored c) (equal_range Typeless q)) /\
    equal_range Typeless q' = [mkMessage message (u32 (now + ms)) rgba] /\
    (forall type, type <> Typeless -> equal_range type q' = equal_range type q).
Proof.
  intros calls q0 now message ms rgba q q'. subst q q'.
  split; [apply run_untyped_length|].
  split.
  - intros c Hin. unfold equal_range.
    change (stored c) with (snd (Typeless, stored c)).
    apply in_map. apply filter_In. split.
    + now apply run_untyped_In.
    + simpl. apply Z.eqb_refl.
  - split.
    + apply equal_range_AddTypedMessage_same.
    + intros type Hne. now apply equal_range_AddTypedMessage_other.
Qed.

(** ** The loop of [DrawMessages] *)

Lemma DrawMessages_loop_kept :
  forall draw now sy x it y index,
    fst (DrawMessages_loop draw now sy x y index it) = filter (alive now) it.
Proof.
  intros draw now sy x it.
  induction it as [|[k m] rest IH]; intros y index; simpl; [reflexivity|].
  unfold alive at 1. simpl.
  destruct (time_left_of m now <=? 0) eqn:Hle.
  - replace (0 <? time_left_of m now) with false by (symmetry; apply Z.ltb_ge; lia).
    apply IH.
  - replace (0 <? time_left_of m now) with true by (symmetry; apply Z.ltb_lt; lia).
    destruct draw.
    + specialize (IH (f32_add y (snd (DrawMessage sy index m (x, y) (time_left_of m now))))
                     (index + 1)).
      unfold DrawMessage in *. simpl in *.
      destruct (DrawMessages_loop true now sy x _ (index + 1) rest) as [kept drawn].
      simpl in *. now rewrite IH.
    + specialize (IH y index).
      destruct (DrawMessages_loop false now sy x y index rest) as [kept drawn].
      simpl in *. now rewrite IH.
Qed.

Lemma DrawMessages_loop_disabled :
  forall now sy x it y index,
    snd (DrawMessages_loop false now sy x y index it) = [].
Proof.
  intros now sy x it.
  induction it as [|[k m] rest IH]; intros y index; simpl; [reflexivity|].
  destruct (time_left_of m now <=? 0); [apply IH|].
  specialize (IH y index).
  destruct (DrawMessages_loop false now sy x y index rest) as [kept drawn].
  exact IH.
Qed.

Lemma DrawMessages_loop_drawn :
  forall now sy x it y index,
    map dc_msg (snd (DrawMessages_loop true now sy x y index it))
    = map snd (filter (alive now) it).
Proof.
  intros now sy x it.
  induction it as [|[k m] rest IH]; intros y index; simpl; [reflexivity|].
  unfold alive at 1. simpl.
  destruct (time_left_of m now <=? 0) eqn:Hle.
  - replace (0 <? time_left_of m now) with false by (symmetry; apply Z.ltb_ge; lia).
    apply IH.
  - replace (0 <? time_left_of m now) with true by (symmetry; apply Z.ltb_lt; lia).
    specialize (IH (f32_add y (snd (DrawMessage sy index m (x, y) (time_left_of m now))))
                   (index + 1)).
    unfold DrawMessage in *. simpl in *.
    destruct (DrawMessages_loop true now sy x _ (index + 1) rest) as [kept drawn].
    simpl in *. now rewrite IH.
Qed.

(** Every window drawn shows a message of the queue with a positive
    remaining lifetime, at the opacity [DrawMessage] computes from it. *)
Lemma DrawMessages_loop_call :
  forall draw now sy x it y index dc,
    In dc (snd (DrawMessages_loop draw now sy x y index it)) ->
    (exists k, In (k, dc_msg dc) it) /\
    dc_time_left dc = time_left_of (dc_msg dc) now /\
    0 < dc_time_left dc /\
    dc_alpha dc = DrawMessage_alpha (dc_time_left dc).
Proof.
  intros draw now sy x it.
  induction it as [|[k m] rest IH]; intros y index dc; simpl; [intros []|].
  destruct (time_left_of m now <=? 0) eqn:Hle.
  - intros Hin. destruct (IH _ _ _ Hin) as [[k' Hk'] Hrest].
    split; [exists k'; now right|exact Hrest].
  - destruct draw.
    + unfold DrawMessage. simpl.
      destruct (DrawMessages_loop true now sy x _ (index + 1) rest)
        as [kept drawn] eqn:Hloop.
      simpl. intros [<-|Hin].
      * simpl. split; [exists k; now left|].
        split; [reflexivity|]. split; [|reflexivity].
        apply Z.leb_gt in Hle. lia.
      * assert (Hin' : In dc (snd (DrawMessages_loop true now sy x
                  (f32_add y
                     match osd_window index m with
                     | Some size_y => f32_add size_y (f32_mul WINDOW_PADDING sy)
                     | None => f32_of_Z 0
                     end) (index + 1) rest))) by now rewrite Hloop.
        destruct (IH _ _ _ Hin') as [[k' Hk'] Hrest].
        split; [exists k'; now right|exact Hrest].
    + destruct (DrawMessages_loop false now sy x y index rest)
        as [kept drawn] eqn:Hloop.
      simpl. intros Hin.
      assert (Hin' : In dc (snd (DrawMessages_loop false now sy x y index rest)))
        by now rewrite Hloop.
      destruct (IH _ _ _ Hin') as [[k' Hk'] Hrest].
      split; [exists k'; now right|exact Hrest].
Qed.

Lemma DrawMessages_kept :
  forall draw clock scale q,
    fst (DrawMessages draw clock scale q) = filter (alive (u32 clock)) q.
Proof. intros. unfold DrawMessages. apply DrawMessages_loop_kept. Qed.

Lemma run_draws_app :
  forall calls c q,
    run_draws (calls ++ [c]) q
    = fst (DrawMessages (da_enabled c) (da_clock c) (da_scale c) (run_draws calls q)).
Proof. intros. unfold run_draws. now rewrite fold_left_app. Qed.

Lemma In_AddMessage :
  forall now message ms rgba q,
    In (Typeless, mkMessage message (u32 (now + ms)) rgba)
       (AddMessage now message ms rgba q).
Proof. intros. unfold AddMessage. apply In_emplace. now left. Qed.

Lemma In_AddTypedMessage :
  forall now type message ms rgba q,
    In (type, mkMessage message (u32 (now + ms)) rgba)
       (AddTypedMessage now type message ms rgba q).
Proof. intros. unfold AddTypedMessage. apply In_emplace. now left. Qed.

(** C3, amended.  A message added at clock value [t] with a duration [d]
    below 2^31 milliseconds is in the queue, stays in it through every
    sequence of [DrawMessages] calls whose clock values [now] satisfy
    [t <= now < t + d], and is gone after any call with
    [t + d <= now <= t + d + 2^31].  What a call keeps does not depend on
    the flag; it draws nothing when the flag is off and exactly the kept
    messages, in order, when it is on. *)
Theorem DrawMessages_keeps_until_expiry :
  forall (q0 q : multimap) (type : MessageType) message rgba (t d : Z),
    q = AddTypedMessage t type message d rgba q0 \/
    (type = Typeless /\ q = AddMessage t message d rgba q0) ->
    0 <= d < 2147483648 ->
    In (type, mkMessage message (u32 (t + d)) rgba) q /\
    (forall calls,
        (forall c, In c calls -> t <= da_clock c < t + d) ->
        In (type, mkMessage message (u32 (t + d)) rgba) (run_draws calls q)) /\
    (forall calls c,
        t + d <= da_clock c <= t + d + 2147483648 ->
        ~ In (type, mkMessage message (u32 (t + d)) rgba)
             (run_draws (calls ++ [c]) q)) /\
    (forall clock scale q1,
        fst (DrawMessages true clock scale q1)
          = fst (DrawMessages false clock scale q1) /\
        snd (DrawMessages false clock scale q1) = [] /\
        map dc_msg (snd (DrawMessages true clock scale q1))
          = map snd (fst (DrawMessages true clock scale q1))).
Proof.
  intros q0 q type message rgba t d Hq Hd.
  assert (Hin : In (type, mkMessage message (u32 (t + d)) rgba) q).
  { destruct Hq as [->|[-> ->]];
      [apply In_AddTypedMessage|apply In_AddMessage]. }
  split; [exact Hin|]. split; [|split].
  - induction calls as [|c calls IH] using rev_ind; intros Hcalls.
    + exact Hin.
    + rewrite run_draws_app, DrawMessages_kept. apply filter_In. split.
      * apply IH. intros c' Hc'. apply Hcalls, in_or_app. now left.
      * unfold alive. simpl. rewrite time_left_of_stored.
        assert (t <= da_clock c < t + d)
          by (apply Hcalls, in_or_app; right; now left).
        rewrite s32_small by lia. apply Z.ltb_lt. lia.
  - intros calls c Hc Habs.
    rewrite run_draws_app, DrawMessages_kept in Habs.
    apply filter_In in Habs. destruct Habs as [_ Halive].
    unfold alive in Halive. simpl in Halive.
    rewrite time_left_of_stored in Halive.
    rewrite s32_small in Halive by lia. apply Z.ltb_lt in Halive. lia.
  - intros clock scale q1. split; [now rewrite !DrawMessages_kept|]. split.
    + unfold DrawMessages. apply DrawMessages_loop_disabled.
    + rewrite DrawMessages_kept. unfold DrawMessages.
      apply DrawMessages_loop_drawn.
Qed.

(** ** binary32: integers converted to [float] and divided by 1024 *)

Lemma digits2_pos_size : forall p, digits2_pos p = Pos.size p.
Proof. induction p; simpl; congruence. Qed.

Lemma digits2_pos_log2 :
  forall p, Z.pos (digits2_pos p) = Z.log2 (Z.pos p) + 1.
Proof.
  intros p. rewrite digits2_pos_size. destruct p; simpl; lia.
Qed.

Lemma digits2_pos_bounds :
  forall p,
    2 ^ (Z.pos (digits2_pos p) - 1) <= Z.pos p < 2 ^ Z.pos (digits2_pos p).
Proof.
  intros p. rewrite digits2_pos_log2.
  replace (Z.log2 (Z.pos p) + 1 - 1) with (Z.log2 (Z.pos p)) by lia.
  replace (Z.log2 (Z.pos p) + 1) with (Z.succ (Z.log2 (Z.pos p))) by lia.
  apply Z.log2_spec. lia.
Qed.

Lemma digits2_pos_unique :
  forall p d,
    0 < d -> 2 ^ (d - 1) <= Z.pos p < 2 ^ d -> Z.pos (digits2_pos p) = d.
Proof.
  intros p d Hd H. rewrite digits2_pos_log2.
  rewrite (Z.log2_unique (Z.pos p) (d - 1)); try lia.
  replace (Z.succ (d - 1)) with d by lia. exact H.
Qed.

Lemma digits2_pos_le :
  forall p d, 0 <= d -> Z.pos p < 2 ^ d -> Z.pos (digits2_pos p) <= d.
Proof.
  intros p d Hd H. pose proof (digits2_pos_bounds p) as B.
  destruct (Z_le_gt_dec (Z.pos (digits2_pos p)) d) as [L|G]; [exact L|exfalso].
  assert (2 ^ d <= 2 ^ (Z.pos (digits2_pos p) - 1))
    by (apply Z.pow_le_mono_r; lia).
  lia.
Qed.

Lemma digits2_pos_ge :
  forall p d, 0 <= d -> 2 ^ d <= Z.pos p -> d + 1 <= Z.pos (digits2_pos p).
Proof.
  intros p d Hd H. pose proof (digits2_pos_bounds p) as B.
  destruct (Z_le_gt_dec (d + 1) (Z.pos (digits2_pos p))) as [L|G]; [exact L|exfalso].
  assert (2 ^ Z.pos (digits2_pos p) <= 2 ^ d)
    by (apply Z.pow_le_mono_r; lia).
  lia.
Qed.

Lemma digits2_pos_iter_xO :
  forall k p, digits2_pos (Pos.iter xO p k) = (digits2_pos p + k)%positive.
Proof.
  intros k p. induction k using Pos.peano_ind.
  - simpl. lia.
  - rewrite Pos.iter_succ. simpl. rewrite IHk. lia.
Qed.

(** One right shift takes one digit off. *)
Lemma shr_1_digits :
  forall p r s,
    (1 < digits2_pos p)%positive ->
    exists p' r' s',
      shr_1 (Build_shr_record (Z.pos p) r s) = Build_shr_record (Z.pos p') r' s' /\
      Pos.succ (digits2_pos p') = digits2_pos p.
Proof.
  intros p r s H. destruct p as [p|p|]; simpl in *.
  - now exists p, true, (r || s)%bool.
  - now exists p, false, (r || s)%bool.
  - lia.
Qed.

Lemma iter_pos_shr_1_digits :
  forall n p r s,
    (n < digits2_pos p)%positive ->
    exists p' r' s',
      iter_pos shr_1 n (Build_shr_record (Z.pos p) r s)
        = Build_shr_record (Z.pos p') r' s' /\
      (digits2_pos p' + n = digits2_pos p)%positive.
Proof.
  induction n as [n IH|n IH|]; intros p r s Hn; cbn [iter_pos].
  - destruct (shr_1_digits p r s) as (p1 & r1 & s1 & E1 & D1); [lia|].
    rewrite E1.
    destruct (IH p1 r1 s1) as (p2 & r2 & s2 & E2 & D2); [lia|].
    rewrite E2.
    destruct (IH p2 r2 s2) as (p3 & r3 & s3 & E3 & D3); [lia|].
    rewrite E3. exists p3, r3, s3. split; [reflexivity|lia].
  - destruct (IH p r s) as (p2 & r2 & s2 & E2 & D2); [lia|].
    rewrite E2.
    destruct (IH p2 r2 s2) as (p3 & r3 & s3 & E3 & D3); [lia|].
    rewrite E3. exists p3, r3, s3. split; [reflexivity|lia].
  - destruct (shr_1_digits p r s) as (p1 & r1 & s1 & E1 & D1); [lia|].
    exists p1, r1, s1. split; [exact E1|lia].
Qed.

Lemma digits2_pos_succ_24 :
  forall p,
    digits2_pos p = 24%positive ->
    digits2_pos (p + 1) = 24%positive \/ (p + 1 = 16777216)%positive.
Proof.
  intros p H.
  pose proof (digits2_pos_bounds p) as B. rewrite H in B.
  change (2 ^ (24 - 1)) with 8388608 in B. change (2 ^ 24) with 16777216 in B.
  destruct (Pos.eq_dec (p + 1) 16777216) as [E|E]; [now right|left].
  assert (Z.pos (digits2_pos (p + 1)) = 24); [|congruence].
  apply digits2_pos_unique; [lia|].
  change (2 ^ (24 - 1)) with 8388608. change (2 ^ 24) with 16777216. lia.
Qed.

Lemma round_nearest_even_cases :
  forall p l,
    round_nearest_even (Z.pos p) l = Z.pos p \/
    round_nearest_even (Z.pos p) l = Z.pos (p + 1).
Proof.
  intros p l. destruct l as [|[| |]]; simpl; auto.
  destruct p; simpl; auto.
Qed.

(** Rounding a positive significand of at least 24 digits to binary32
    gives a normal number, one binade up at most. *)
Lemma binary_round_aux_normal :
  forall sx mx ex lx,
    24 <= Z.pos (digits2_pos mx) ->
    -149 <= ex ->
    ex + Z.pos (digits2_pos mx) <= 127 ->
    exists m e,
      binary_round_aux 24 128 sx (Z.pos mx) ex lx = S754_finite sx m e /\
      digits2_pos m = 24%positive /\
      ex + Z.pos (digits2_pos mx) - 24 <= e <= ex + Z.pos (digits2_pos mx) - 23.
Proof.
  intros sx mx ex lx Hd Hex Hmax.
  unfold binary_round_aux.
  assert (S1 : exists m1 l1,
    shr_fexp 24 128 (Z.pos mx) ex lx
      = (m1, ex + Z.pos (digits2_pos mx) - 24) /\
    exists p1,
      shr_m m1 = Z.pos p1 /\ digits2_pos p1 = 24%positive /\
      loc_of_shr_record m1 = l1).
  { unfold shr_fexp, Zdigits2, fexp, emin.
    rewrite Z.max_l by lia.
    remember (Z.pos (digits2_pos mx) + ex - 24 - ex) as n eqn:Hn.
    unfold shr. destruct n as [|n|n].
    - assert (Z.pos (digits2_pos mx) = 24) by lia.
      eexists; eexists. split.
      + f_equal. lia.
      + exists mx. destruct lx as [|[| |]]; simpl; repeat split; congruence.
    - assert (Hlt : (n < digits2_pos mx)%positive) by lia.
      destruct lx as [|[| |]]; simpl shr_record_of_loc;
      match goal with
      | |- context [iter_pos shr_1 n (Build_shr_record _ ?r ?s)] =>
          destruct (iter_pos_shr_1_digits n mx r s Hlt) as (p' & r' & s' & E & D)
      end; rewrite E; eexists; eexists; (split; [f_equal; lia|]);
      exists p'; simpl; repeat split; lia.
    - lia. }
  destruct S1 as (m1 & l1 & E1 & p1 & Hm1 & Hd1 & Hl1).
  rewrite E1. rewrite Hm1, Hl1.
  set (e1 := ex + Z.pos (digits2_pos mx) - 24) in *.
  destruct (round_nearest_even_cases p1 l1) as [R|R]; rewrite R.
  - unfold shr_fexp, Zdigits2, fexp, emin. rewrite Hd1.
    rewrite Z.max_l by lia.
    replace (24 + e1 - 24 - e1) with 0 by lia. simpl.
    replace (e1 <=? 104) with true by (symmetry; apply Z.leb_le; lia).
    exists p1, e1. repeat split; [exact Hd1|lia|lia].
  - destruct (digits2_pos_succ_24 p1 Hd1) as [D|D].
    + unfold shr_fexp, Zdigits2, fexp, emin. rewrite D.
      rewrite Z.max_l by lia.
      replace (24 + e1 - 24 - e1) with 0 by lia. simpl.
      replace (e1 <=? 104) with true by (symmetry; apply Z.leb_le; lia).
      exists (p1 + 1)%positive, e1. repeat split; [exact D|lia|lia].
    + rewrite D.
      unfold shr_fexp, Zdigits2, fexp, emin.
      change (Z.pos (digits2_pos 16777216)) with 25.
      rewrite Z.max_l by lia.
      replace (25 + e1 - 24 - e1) with 1 by lia. simpl.
      replace (e1 + 1 <=? 104) with true by (symmetry; apply Z.leb_le; lia).
      exists 8388608%positive, (e1 + 1). repeat split; lia.
Qed.

(** The conversion of a positive [int] to [float] is a normal number. *)
Lemma f32_of_Z_normal :
  forall p,
    Z.pos p < 2147483648 ->
    exists m e,
      f32_of_Z (Z.pos p) = S754_finite false m e /\
      digits2_pos m = 24%positive /\
      Z.pos (digits2_pos p) - 24 <= e <= Z.pos (digits2_pos p) - 23.
Proof.
  intros p Hp.
  assert (Hd : Z.pos (digits2_pos p) <= 31)
    by (apply digits2_pos_le; [lia|exact Hp]).
  unfold f32_of_Z, binary_normalize, binary_round, shl_align, fexp, emin.
  rewrite Z.max_l by lia.
  destruct (Z.pos (digits2_pos p) + 0 - 24 - 0) as [|n|n] eqn:Hn.
  - destruct (binary_round_aux_normal false p 0 loc_Exact)
      as (m & e & E & D & He); try lia.
    exists m, e. repeat split; [exact E|exact D|lia|lia].
  - destruct (binary_round_aux_normal false p 0 loc_Exact)
      as (m & e & E & D & He); try lia.
    exists m, e. repeat split; [exact E|exact D|lia|lia].
  - assert (D' : Z.pos (digits2_pos (Pos.iter xO p n)) = 24)
      by (rewrite digits2_pos_iter_xO; lia).
    destruct (binary_round_aux_normal false (Pos.iter xO p n)
                (Z.pos (digits2_pos p) + 0 - 24) loc_Exact)
      as (m & e & E & D & He); try lia.
    exists m, e. repeat split; [exact E|exact D|lia|lia].
Qed.

Lemma div_eucl_shiftl_24 :
  forall m, Z.div_eucl (Z.shiftl (Z.pos m) 24) 8388608 = (Z.pos m~0, 0).
Proof.
  intros m. rewrite Z.shiftl_mul_pow2 by lia. change (2 ^ 24) with 16777216.
  pose proof (Z.div_eucl_eq (Z.pos m * 16777216) 8388608) as E.
  pose proof (Z.mod_pos_bound (Z.pos m * 16777216) 8388608) as B.
  unfold Z.modulo in B.
  destruct (Z.div_eucl (Z.pos m * 16777216) 8388608) as [q r].
  specialize (E ltac:(lia)). specialize (B ltac:(lia)).
  assert (q = Z.pos m~0 /\ r = 0) as [-> ->]; [|reflexivity].
  rewrite Pos2Z.inj_xO. lia.
Qed.

(** Dividing a normal number by [1024.0f] lowers its exponent by ten. *)
Lemma f32_div_1024_normal :
  forall m e,
    digits2_pos m = 24%positive -> -13 <= e <= 8 ->
    exists m' e',
      f32_div (S754_finite false m e) (f32_of_Z 1024) = S754_finite false m' e' /\
      digits2_pos m' = 24%positive /\ e - 10 <= e'.
Proof.
  intros m e Hd He.
  change (f32_of_Z 1024) with (S754_finite false 8388608 (-13)).
  unfold f32_div, SFdiv, SFdiv_core_binary, Zdigits2, fexp, emin.
  rewrite Hd. change (Z.pos (digits2_pos 8388608)) with 24.
  rewrite Z.max_l by lia. rewrite Z.min_l by lia.
  replace (e - -13 - (24 + e - (24 + -13) - 24)) with 24 by lia.
  rewrite div_eucl_shiftl_24.
  change (new_location 8388608 0) with loc_Exact.
  destruct (binary_round_aux_normal (xorb false false) m~0
              (24 + e - (24 + -13) - 24) loc_Exact)
    as (m' & e' & E & D & B).
  - simpl digits2_pos. rewrite Hd. lia.
  - lia.
  - simpl digits2_pos. rewrite Hd. lia.
  - exists m', e'. repeat split; [exact E|exact D|].
    simpl digits2_pos in B. rewrite Hd in B. lia.
Qed.

(** From 1024 milliseconds of remaining lifetime on, the opacity is
    [1.0f]. *)
Lemma DrawMessage_alpha_one :
  forall time_left,
    1024 <= time_left < 2147483648 ->
    DrawMessage_alpha time_left = f32_of_Z 1.
Proof.
  intros tl H. destruct tl as [|p|p]; try lia.
  destruct (f32_of_Z_normal p) as (m & e & E & D & B); [lia|].
  assert (Hlo : 11 <= Z.pos (digits2_pos p))
    by (apply (digits2_pos_ge p 10); [lia|change (2 ^ 10) with 1024; lia]).
  assert (Hhi : Z.pos (digits2_pos p) <= 31)
    by (apply digits2_pos_le; [lia|change (2 ^ 31) with 2147483648; lia]).
  destruct (f32_div_1024_normal m e D) as (m' & e' & E' & D' & B'); [lia|].
  unfold DrawMessage_alpha. rewrite E, E'.
  change (f32_of_Z 0) with (S754_zero false).
  change (f32_of_Z 1) with (S754_finite false 8388608 (-23)).
  unfold std_max, std_min, f32_ltb, SFltb. cbn [SFcompare].
  destruct (Z.compare_spec e' (-23)) as [Heq|Hlt|Hgt]; try lia; [|reflexivity].
  pose proof (digits2_pos_bounds m') as Bm. rewrite D' in Bm.
  change (2 ^ (24 - 1)) with 8388608 in Bm.
  rewrite Pos.compare_cont_spec. simpl Pos.switch_Eq.
  destruct (Pos.compare_spec m' 8388608) as [H0|H0|H0]; try reflexivity.
  exfalso. apply Pos2Z.pos_lt_pos in H0. lia.
Qed.

(** Below 1024 milliseconds the quotient is exact: checked on each of the
    1023 values. *)
Lemma DrawMessage_alpha_fading :
  forall time_left,
    0 < time_left < 1024 ->
    (f32_to_Q (DrawMessage_alpha time_left) == inject_Z time_left / 1024)%Q.
Proof.
  assert (all :
    forallb (fun n =>
               Qeq_bool (f32_to_Q (DrawMessage_alpha (Z.of_nat n)))
                        (inject_Z (Z.of_nat n) / 1024))
            (seq 1 1023) = true) by (vm_compute; reflexivity).
  intros tl H. rewrite forallb_forall in all.
  specialize (all (Z.to_nat tl)).
  rewrite Z2Nat.id in all by lia.
  apply Qeq_bool_iff, all, in_seq. lia.
Qed.

(** The opacity of a drawn message is its remaining lifetime over 1024,
    clamped to the unit interval. *)
Lemma DrawMessage_alpha_value :
  forall time_left,
    0 < time_left < 2147483648 ->
    (f32_to_Q (DrawMessage_alpha time_left)
     == Qmin 1 (Qmax 0 (inject_Z time_left / 1024)))%Q.
Proof.
  intros tl H.
  assert (Hpos : (0 <= inject_Z tl / 1024)%Q).
  { unfold Qle, Qdiv, Qmult, Qinv, inject_Z. simpl. lia. }
  rewrite (Q.max_r _ _ Hpos).
  destruct (Z_lt_ge_dec tl 1024) as [Hlt|Hge].
  - rewrite DrawMessage_alpha_fading by lia.
    symmetry. apply Q.min_r.
    unfold Qle, Qdiv, Qmult, Qinv, inject_Z. simpl. lia.
  - rewrite DrawMessage_alpha_one by lia.
    transitivity 1%Q; [vm_compute; reflexivity|].
    symmetry. apply Q.min_l.
    unfold Qle, Qdiv, Qmult, Qinv, inject_Z. simpl. lia.
Qed.

Lemma time_left_of_expiry :
  forall msg t d now,
    timestamp msg = u32 (t + d) ->
    time_left_of msg (u32 now) = s32 (t + d - now).
Proof.
  intros [message ts rgba] t d now H. simpl in H. subst ts.
  apply time_left_of_stored.
Qed.

Lemma s32_high :
  forall z, 2147483648 <= z < 4294967296 -> s32 z = z - 4294967296.
Proof.
  intros z H. unfold s32.
  replace (z + 2147483648) with (z - 2147483648 + 1 * 4294967296) by lia.
  rewrite Z_mod_plus_full. rewrite Z.mod_small; lia.
Qed.

(** C4, amended.  Every window [DrawMessages] draws shows a message of
    the queue whose remaining lifetime [time_left] is positive, at an
    opacity whose value is [time_left / 1024] clamped to the unit interval:
    [0.5f] when 512 milliseconds remain, that is at clock value
    [t + d - 512] for a message stored at [t] with duration [d], and [1.0f]
    from 1024 milliseconds on, that is at [t + d - 1024] and at every
    earlier clock value from [t] on.  No window is drawn at opacity 0: the
    opacity of a drawn window is positive, every message with a positive
    remaining lifetime is drawn, and a message with none is dropped from
    the queue and shown by no window, which is the case of a message stored
    at [t] with duration [d] at the clock values from [t + d] to
    [t + d + 2^31], the window in which the signed 32-bit difference is
    not positive. *)
Theorem DrawMessages_opacity :
  forall clock scale q,
    (forall dc,
        In dc (snd (DrawMessages true clock scale q)) ->
        (exists type, In (type, dc_msg dc) q) /\
        dc_time_left dc = time_left_of (dc_msg dc) (u32 clock) /\
        0 < dc_time_left dc < 2147483648 /\
        (f32_to_Q (dc_alpha dc)
         == Qmin 1 (Qmax 0 (inject_Z (dc_time_left dc) / 1024)))%Q /\
        (dc_time_left dc = 512 -> dc_alpha dc = S754_finite false 8388608 (-24)) /\
        (1024 <= dc_time_left dc -> dc_alpha dc = f32_of_Z 1) /\
        (0 < f32_to_Q (dc_alpha dc))%Q /\
        (forall t d,
            timestamp (dc_msg dc) = u32 (t + d) ->
            (clock = t + d - 512 -> dc_time_left dc = 512) /\
            (0 <= d < 4294967296 -> t <= clock <= t + d - 1024 ->
             1024 <= dc_time_left dc) /\
            ~ t + d <= clock <= t + d + 2147483648)) /\
    (forall e,
        In e q -> 0 < time_left_of (snd e) (u32 clock) ->
        exists dc,
          In dc (snd (DrawMessages true clock scale q)) /\ dc_msg dc = snd e) /\
    (forall e,
        In e q -> time_left_of (snd e) (u32 clock) <= 0 ->
        ~ In e (fst (DrawMessages true clock scale q)) /\
        forall dc,
          In dc (snd (DrawMessages true clock scale q)) -> dc_msg dc <> snd e).
Proof.
  intros clock scale q.
  assert (calls : forall dc,
    In dc (snd (DrawMessages true clock scale q)) ->
    (exists k, In (k, dc_msg dc) q) /\
    dc_time_left dc = time_left_of (dc_msg dc) (u32 clock) /\
    0 < dc_time_left dc /\
    dc_alpha dc = DrawMessage_alpha (dc_time_left dc))
    by (intros dc; unfold DrawMessages; apply DrawMessages_loop_call).
  split; [|split].
  - intros dc Hdc. destruct (calls dc Hdc) as (Hq & Htl & Hpos & Halpha).
    assert (Hhi : dc_time_left dc < 2147483648).
    { rewrite Htl. unfold time_left_of. apply s32_range. }
    split; [exact Hq|]. split; [exact Htl|]. split; [lia|].
    split; [rewrite Halpha; apply DrawMessage_alpha_value; lia|].
    split; [intros E; rewrite Halpha, E; reflexivity|].
    split; [intros E; rewrite Halpha; apply DrawMessage_alpha_one; lia|].
    split.
    { rewrite Halpha, DrawMessage_alpha_value by lia.
      assert (P : (0 < inject_Z (dc_time_left dc) / 1024)%Q)
        by (unfold Qlt, Qdiv, Qmult, Qinv, inject_Z; cbn [Qnum Qden]; lia).
      apply Q.min_glb_lt; [reflexivity|].
      apply Q.max_lt_iff. now right. }
    intros t d Hts.
    rewrite (time_left_of_expiry _ t d clock Hts) in Htl. split; [|split].
    + intros ->. rewrite Htl.
      replace (t + d - (t + d - 512)) with 512 by lia. reflexivity.
    + intros Hd Hclock.
      destruct (Z_lt_ge_dec (t + d - clock) 2147483648) as [Hlt|Hge].
      * rewrite s32_small in Htl by lia. lia.
      * rewrite s32_high in Htl by lia. lia.
    + intros Hclock. rewrite s32_small in Htl by lia. lia.
  - intros e He Halive.
    assert (Hin : In (snd e) (map dc_msg (snd (DrawMessages true clock scale q)))).
    { unfold DrawMessages. rewrite DrawMessages_loop_drawn.
      apply in_map, filter_In. split; [exact He|].
      unfold alive. now apply Z.ltb_lt. }
    apply in_map_iff in Hin. destruct Hin as (dc & Hmsg & Hdc).
    now exists dc.
  - intros e He Hdead. split.
    + rewrite DrawMessages_kept. intros Habs.
      apply filter_In in Habs. destruct Habs as [_ Habs].
      unfold alive in Habs. apply Z.ltb_lt in Habs. lia.
    + intros dc Hdc Heq.
      destruct (calls dc Hdc) as (_ & Htl & Hpos & _).
      rewrite Heq in Htl. lia.
Qed.

(** ** Frames of the control bar *)

Lemma and_then_fst :
  forall (f g : step) w, fst ((f ;; g) w) = fst (g (fst (f w))).
Proof.
  intros f g w. unfold and_then.
  destruct (f w) as [w1 e1]. simpl. now destruct (g w1).
Qed.

Lemma and_then_snd :
  forall (f g : step) w,
    snd ((f ;; g) w) = snd (f w) ++ snd (g (fst (f w))).
Proof.
  intros f g w. unfold and_then.
  destruct (f w) as [w1 e1]. simpl. now destruct (g w1).
Qed.

Lemma seek_neutral_and_then :
  forall f g, seek_neutral f -> seek_neutral g -> seek_neutral (f ;; g).
Proof.
  intros f g Hf Hg w.
  rewrite and_then_fst, and_then_snd, filter_app.
  destruct (Hf w) as (F1 & F2 & F3). destruct (Hg (fst (f w))) as (G1 & G2 & G3).
  rewrite G1, G2, F1, F2, F3, G3. auto.
Qed.

Lemma seek_neutral_alpha :
  forall i diff, seek_neutral (alpha_step i diff).
Proof. intros i diff w. unfold alpha_step. simpl. auto. Qed.

Lemma seek_neutral_jump :
  forall i b delta,
    ButtonCustom (SkipItems i) b = false -> seek_neutral (jump_step i b delta).
Proof. intros i b delta H w. unfold jump_step. rewrite H. simpl. auto. Qed.

Lemma seek_neutral_volume_button :
  forall i, seek_neutral (volume_button_step i).
Proof.
  intros i w. unfold volume_button_step.
  destruct (ButtonCustom _ _); [|simpl; auto].
  destruct (m_Volume w =? 0); simpl; auto.
Qed.

Lemma seek_neutral_volume_bar :
  forall i, seek_neutral (volume_bar_step i).
Proof.
  intros i w. unfold volume_bar_step, VolumeBar, VolumeBarBehavior.
  destruct (SkipItems i); [simpl; auto|].
  destruct (_ && _); simpl; auto.
Qed.

Lemma seek_neutral_help :
  forall i, seek_neutral (help_step i).
Proof.
  intros i w. unfold help_step. destruct (ButtonCustom _ _); simpl; auto.
Qed.

Lemma seek_neutral_fullscreen :
  forall i, seek_neutral (fullscreen_step i).
Proof.
  intros i w. unfold fullscreen_step. destruct (ButtonCustom _ _); simpl; auto.
Qed.

Lemma plain_frame_inv :
  forall i,
    plain_frame i = true ->
    Begin i = true /\ SkipItems i = false /\
    ButtonCustom (SkipItems i) (fast_backward i) = false /\
    ButtonCustom (SkipItems i) (step_backward i) = false /\
    ButtonCustom (SkipItems i) (step_forward i) = false /\
    ButtonCustom (SkipItems i) (fast_forward i) = false.
Proof.
  intros i H. unfold plain_frame in H.
  repeat (apply andb_true_iff in H; destruct H as [H ?]).
  repeat match goal with
         | H : negb _ = true |- _ => apply negb_true_iff in H
         end.
  auto 10.
Qed.

(** What a plain frame does to the seek bar is what [SeekBarBehavior] does;
    its seek requests are the one the release of the bar raises. *)
Lemma plain_frame_seek :
  forall i w,
    plain_frame i = true ->
    exists w0,
      frame w0 = frame w /\ seek_isHeld w0 = seek_isHeld w /\
      g_playbackStatus w0 = g_playbackStatus w /\
      let '(value_changed, _, w1) :=
        SeekBarBehavior (SeekBar_frame_bb i) (MouseDown i) (seek_hovered i)
          (mousePos i) PLAYBACK_FIRST_SAVE (lastFrame (g_playbackStatus w)) w0 in
      frame (fst (DrawSlippiPlaybackControls i w)) = frame w1 /\
      seek_isHeld (fst (DrawSlippiPlaybackControls i w)) = seek_isHeld w1 /\
      filter is_seek (snd (DrawSlippiPlaybackControls i w))
        = if value_changed
          then [Host_PlaybackSeek (targetFrameNum (g_playbackStatus w1))]
          else [].
Proof.
  intros i w Hp.
  destruct (plain_frame_inv i Hp) as (HB & HS & J1 & J2 & J3 & J4).
  unfold DrawSlippiPlaybackControls. rewrite HB.
  set (w0 := set_prev_mouse (mousePos i) _).
  set (diff := if _ <? 1000 then 0 else _).
  exists w0. split; [|split; [|split]].
  1-3: subst w0; destruct (negb _); reflexivity.
  assert (G : g_playbackStatus w0 = g_playbackStatus w)
    by (subst w0; destruct (negb _); reflexivity).
  assert (N : seek_neutral
    (alpha_step i diff ;;
     jump_step i (fast_backward i) (-1200) ;;
     jump_step i (step_backward i) (-300) ;;
     jump_step i (step_forward i) 300 ;;
     jump_step i (fast_forward i) 1200 ;;
     volume_button_step i ;;
     volume_bar_step i ;;
     help_step i ;;
     fullscreen_step i)).
  { repeat apply seek_neutral_and_then;
      auto using seek_neutral_alpha, seek_neutral_jump, seek_neutral_volume_button,
        seek_neutral_volume_bar, seek_neutral_help, seek_neutral_fullscreen. }
  rewrite and_then_fst, and_then_snd, filter_app.
  unfold seek_bar_step at 1 2 3 4. unfold SeekBar. rewrite HS, G.
  destruct (SeekBarBehavior _ _ _ _ _ _ w0) as [[value_changed label] w1].
  destruct value_changed; simpl fst; simpl snd;
    destruct (N w1) as (N1 & N2 & N3); rewrite N1, N2, N3;
    simpl; auto.
Qed.

(** With the button down on a bar that is hovered or held, the bar is held
    afterwards, [frame] is the value under the pointer and nothing is
    published. *)
Lemma SeekBarBehavior_down :
  forall bb hovered pos v_min v_max w,
    hovered || seek_isHeld w = true ->
    let '(value_changed, _, w1) :=
      SeekBarBehavior bb true hovered pos v_min v_max w in
    value_changed = false /\
    frame w1 = slider_new_value bb pos v_min v_max /\
    seek_isHeld w1 = true.
Proof.
  intros bb hovered pos v_min v_max w H. unfold SeekBarBehavior.
  rewrite H.
  destruct (seek_isHeld w) eqn:Hheld, hovered; try discriminate;
    destruct (frame w =? slider_new_value bb pos v_min v_max) eqn:Heq; simpl;
    rewrite ?Hheld; simpl; repeat split; try reflexivity;
    now apply Z.eqb_eq in Heq.
Qed.

(** With the button up on a held bar, the bar is let go and the value
    [frame] holds becomes the target of the seek; the pointer's position in
    this frame is not read into [frame]. *)
Lemma SeekBarBehavior_release :
  forall bb hovered pos v_min v_max w,
    seek_isHeld w = true ->
    let '(value_changed, _, w1) :=
      SeekBarBehavior bb false hovered pos v_min v_max w in
    value_changed = true /\ seek_isHeld w1 = false /\
    targetFrameNum (g_playbackStatus w1) = frame w.
Proof.
  intros bb hovered pos v_min v_max w H. unfold SeekBarBehavior.
  rewrite H, orb_true_r, !andb_false_r. simpl. auto.
Qed.

Lemma plain_frame_down :
  forall i w,
    plain_frame i = true -> MouseDown i = true ->
    seek_hovered i || seek_isHeld w = true ->
    seek_isHeld (fst (DrawSlippiPlaybackControls i w)) = true /\
    frame (fst (DrawSlippiPlaybackControls i w))
      = slider_new_value (SeekBar_frame_bb i) (mousePos i)
          PLAYBACK_FIRST_SAVE (lastFrame (g_playbackStatus w)) /\
    filter is_seek (snd (DrawSlippiPlaybackControls i w)) = [].
Proof.
  intros i w Hp Hd Hh.
  destruct (plain_frame_seek i w Hp) as (w0 & F0 & S0 & G0 & H).
  rewrite Hd in H. rewrite <- S0 in Hh.
  pose proof (SeekBarBehavior_down (SeekBar_frame_bb i) (seek_hovered i) (mousePos i)
                PLAYBACK_FIRST_SAVE (lastFrame (g_playbackStatus w)) w0 Hh) as D.
  destruct (SeekBarBehavior _ true _ _ _ _ w0) as [[value_changed label] w1].
  destruct D as (-> & D1 & D2). destruct H as (H1 & H2 & H3).
  rewrite H1, H2, H3. auto.
Qed.

Lemma plain_frame_release :
  forall i w,
    plain_frame i = true -> MouseDown i = false -> seek_isHeld w = true ->
    seek_isHeld (fst (DrawSlippiPlaybackControls i w)) = false /\
    filter is_seek (snd (DrawSlippiPlaybackControls i w))
      = [Host_PlaybackSeek (frame w)].
Proof.
  intros i w Hp Hd Hh.
  destruct (plain_frame_seek i w Hp) as (w0 & F0 & S0 & G0 & H).
  rewrite Hd in H. rewrite <- S0 in Hh.
  pose proof (SeekBarBehavior_release (SeekBar_frame_bb i) (seek_hovered i)
                (mousePos i) PLAYBACK_FIRST_SAVE (lastFrame (g_playbackStatus w))
                w0 Hh) as D.
  destruct (SeekBarBehavior _ false _ _ _ _ w0) as [[value_changed label] w1].
  destruct D as (-> & D1 & D2). destruct H as (H1 & H2 & H3).
  rewrite H2, H3, D2, F0. auto.
Qed.

Lemma seek_requests_cons :
  forall w f frames,
    seek_requests w (f :: frames)
    = filter is_seek
        (snd (DrawSlippiPlaybackControls (snd f) (set_playbackStatus (fst f) w)))
      :: seek_requests
           (fst (DrawSlippiPlaybackControls (snd f) (set_playbackStatus (fst f) w)))
           frames.
Proof.
  intros w [status i] frames. unfold seek_requests. simpl.
  destruct (DrawSlippiPlaybackControls i _) as [w1 calls]. simpl.
  now destruct (run_frames w1 frames).
Qed.

Lemma run_frames_cons :
  forall w f frames,
    fst (run_frames w (f :: frames))
    = fst (run_frames
             (fst (DrawSlippiPlaybackControls (snd f) (set_playbackStatus (fst f) w)))
             frames).
Proof.
  intros w [status i] frames. simpl.
  destruct (DrawSlippiPlaybackControls i _) as [w1 calls]. simpl.
  now destruct (run_frames w1 frames).
Qed.

(** Frames with the button down on a held bar: the bar stays held, no seek
    is requested, and the release that follows publishes the value of the
    last of them. *)
Lemma held_then_release :
  forall held w release,
    seek_isHeld w = true ->
    (forall f, In f held -> plain_frame (snd f) = true /\ MouseDown (snd f) = true) ->
    plain_frame (snd release) = true -> MouseDown (snd release) = false ->
    seek_requests w (held ++ [release])
      = map (fun _ => []) held
        ++ [[Host_PlaybackSeek
               (fold_left (fun _ f => seek_value f) held (frame w))]] /\
    seek_isHeld (fst (run_frames w (held ++ [release]))) = false.
Proof.
  induction held as [|f held IH]; intros w release Hw Hheld Hp Hd.
  - simpl app. rewrite seek_requests_cons, run_frames_cons.
    destruct (plain_frame_release (snd release) (set_playbackStatus (fst release) w))
      as (R1 & R2); auto.
    rewrite R2. simpl. auto.
  - simpl app. rewrite seek_requests_cons, run_frames_cons.
    destruct (Hheld f (or_introl eq_refl)) as (Fp & Fd).
    destruct (plain_frame_down (snd f) (set_playbackStatus (fst f) w))
      as (D1 & D2 & D3); auto.
    { simpl. rewrite Hw. apply orb_true_r. }
    rewrite D3.
    destruct (IH (fst (DrawSlippiPlaybackControls (snd f) (set_playbackStatus (fst f) w)))
                release) as (I1 & I2); auto.
    { intros f' Hf'. apply Hheld. now right. }
    rewrite I1, I2, D2. simpl. auto.
Qed.

Lemma fold_left_last_value :
  forall (held : list (SlippiPlaybackStatus * FrameInput)) press,
    fold_left (fun _ f => seek_value f) held (seek_value press)
    = seek_value (last held press).
Proof.
  intros held press.
  induction held as [|f held IH] using rev_ind; [reflexivity|].
  rewrite fold_left_app, last_last. reflexivity.
Qed.

(** C5, amended.  A drag of the seek bar publishes exactly one seek
    request, in the frame of the release; no frame before it publishes one.
    The request carries the value under the pointer in the last frame in
    which the button was down (the press if no held frame followed it). *)
Theorem seek_drag_publishes_once :
  forall w press held release,
    seek_drag w press held release ->
    seek_requests w (press :: held ++ [release])
      = [] :: map (fun _ => []) held
        ++ [[Host_PlaybackSeek (seek_value (last held press))]] /\
    seek_isHeld (fst (run_frames w (press :: held ++ [release]))) = false.
Proof.
  intros w press held release (Hw & Pp & Ph & Pd & Hheld & Rp & Rd).
  rewrite seek_requests_cons, run_frames_cons.
  destruct (plain_frame_down (snd press) (set_playbackStatus (fst press) w))
    as (D1 & D2 & D3); auto.
  { rewrite Ph. reflexivity. }
  rewrite D3.
  destruct (held_then_release held
              (fst (DrawSlippiPlaybackControls (snd press)
                      (set_playbackStatus (fst press) w))) release)
    as (I1 & I2); auto.
  rewrite I1, I2, D2. split; [|reflexivity].
  simpl g_playbackStatus.
  change (slider_new_value (SeekBar_frame_bb (snd press)) (mousePos (snd press))
            PLAYBACK_FIRST_SAVE (lastFrame (fst press)))
    with (seek_value press).
  now rewrite fold_left_last_value.
Qed.

(** ** The volume controls within a frame *)

Lemma volume_neutral_seek_bar : forall i, volume_neutral (seek_bar_step i).
Proof.
  intros i w. unfold seek_bar_step, SeekBar, SeekBarBehavior. split_ifs.
Qed.

Lemma volume_neutral_alpha : forall i diff, volume_neutral (alpha_step i diff).
Proof. intros i diff w. unfold alpha_step. simpl. auto. Qed.

Lemma volume_neutral_jump : forall i b delta, volume_neutral (jump_step i b delta).
Proof. intros i b delta w. unfold jump_step. split_ifs. Qed.

Lemma volume_neutral_help : forall i, volume_neutral (help_step i).
Proof. intros i w. unfold help_step. split_ifs. Qed.

Lemma volume_neutral_fullscreen : forall i, volume_neutral (fullscreen_step i).
Proof. intros i w. unfold fullscreen_step. split_ifs. Qed.

(** Within a frame, the volume, the volume bar's [isHeld], [prev] and the
    volume changes applied are those of the mute button followed by the
    volume bar. *)
Lemma frame_volume :
  forall i w,
    Begin i = true ->
    exists wp,
      m_Volume wp = m_Volume w /\ volume_isHeld wp = volume_isHeld w /\
      prev wp = prev w /\
      let r1 := volume_button_step i wp in
      let r2 := volume_bar_step i (fst r1) in
      m_Volume (fst (DrawSlippiPlaybackControls i w)) = m_Volume (fst r2) /\
      volume_isHeld (fst (DrawSlippiPlaybackControls i w)) = volume_isHeld (fst r2) /\
      prev (fst (DrawSlippiPlaybackControls i w)) = prev (fst r2) /\
      filter is_volume_change (snd (DrawSlippiPlaybackControls i w))
        = filter is_volume_change (snd r1) ++ filter is_volume_change (snd r2).
Proof.
  intros i w HB. unfold DrawSlippiPlaybackControls. rewrite HB.
  set (w0 := set_prev_mouse (mousePos i) _).
  set (diff := if _ <? 1000 then 0 else _).
  assert (V0 : m_Volume w0 = m_Volume w /\ volume_isHeld w0 = volume_isHeld w /\
               prev w0 = prev w)
    by (subst w0; destruct (negb _); auto).
  destruct V0 as (V1 & V2 & V3).
  repeat rewrite and_then_fst. repeat rewrite and_then_snd.
  repeat rewrite filter_app.
  set (w1 := fst (seek_bar_step i w0)).
  set (w2 := fst (alpha_step i diff w1)).
  set (w3 := fst (jump_step i (fast_backward i) (-1200) w2)).
  set (w4 := fst (jump_step i (step_backward i) (-300) w3)).
  set (w5 := fst (jump_step i (step_forward i) 300 w4)).
  set (w6 := fst (jump_step i (fast_forward i) 1200 w5)).
  destruct (volume_neutral_seek_bar i w0) as (A1 & A2 & A3 & A4). fold w1 in A1, A2, A3.
  destruct (volume_neutral_alpha i diff w1) as (B1 & B2 & B3 & B4). fold w2 in B1, B2, B3.
  destruct (volume_neutral_jump i (fast_backward i) (-1200) w2) as (C1 & C2 & C3 & C4).
  fold w3 in C1, C2, C3.
  destruct (volume_neutral_jump i (step_backward i) (-300) w3) as (D1 & D2 & D3 & D4).
  fold w4 in D1, D2, D3.
  destruct (volume_neutral_jump i (step_forward i) 300 w4) as (E1 & E2 & E3 & E4).
  fold w5 in E1, E2, E3.
  destruct (volume_neutral_jump i (fast_forward i) 1200 w5) as (F1 & F2 & F3 & F4).
  fold w6 in F1, F2, F3.
  exists w6. split; [congruence|]. split; [congruence|]. split; [congruence|].
  cbv zeta.
  set (w7 := fst (volume_button_step i w6)).
  set (w8 := fst (volume_bar_step i w7)).
  destruct (volume_neutral_help i w8) as (G1 & G2 & G3 & G4).
  destruct (volume_neutral_fullscreen i (fst (help_step i w8))) as (H1 & H2 & H3 & H4).
  rewrite A4, B4, C4, D4, E4, F4, G4, H4, H1, H2, H3, G1, G2, G3.
  rewrite app_nil_r. auto.
Qed.

(** C6.  In a frame that lays the bar out and in which the mute button
    reports no press, one volume change is applied, with the value under
    the pointer, exactly when the bar is held or hovered, the mouse button
    is down and that value differs from the stored volume; the stored
    volume becomes that value in the same frame.  Otherwise no volume
    change is applied and the volume stays; in particular a frame with the
    button up applies none. *)
Theorem volume_bar_applies_live :
  forall i w,
    Begin i = true -> SkipItems i = false ->
    ButtonCustom (SkipItems i) (volume_button i) = false ->
    let changed :=
      (volume_isHeld w || volume_hovered i) && MouseDown i &&
      negb (m_Volume w =? volume_value i) in
    filter is_volume_change (snd (DrawSlippiPlaybackControls i w))
      = (if changed then [UpdateSoundStream (volume_value i)] else []) /\
    m_Volume (fst (DrawSlippiPlaybackControls i w))
      = (if changed then volume_value i else m_Volume w) /\
    volume_isHeld (fst (DrawSlippiPlaybackControls i w))
      = (if volume_isHeld w then MouseDown i else volume_hovered i && MouseDown i) /\
    (MouseDown i = false ->
     filter is_volume_change (snd (DrawSlippiPlaybackControls i w)) = []).
Proof.
  intros i w HB HS Hmute changed.
  destruct (frame_volume i w HB) as (wp & V1 & V2 & V3 & R).
  cbv zeta in R. destruct R as (R1 & R2 & _ & R4).
  rewrite R1, R2, R4. clear R1 R2 R4.
  unfold volume_button_step. rewrite Hmute. simpl fst. simpl snd.
  unfold volume_bar_step, VolumeBar, VolumeBarBehavior. rewrite HS, V1, V2.
  subst changed. fold (volume_value i).
  destruct (volume_isHeld w), (volume_hovered i), (MouseDown i); simpl;
    try destruct (m_Volume w =? volume_value i); simpl;
    repeat split; auto; discriminate.
Qed.

(** C7.  In a frame in which the mute button reports a press and the
    volume bar is not being set, the stored volume: becomes the remembered
    value when it was 0 and a nonzero value is remembered; becomes 30 when
    it was 0 and the remembered value is 0; is remembered and becomes 0
    when it was not 0.  The new volume is applied once. *)
Theorem mute_button_toggles :
  forall i w,
    Begin i = true ->
    ButtonCustom (SkipItems i) (volume_button i) = true ->
    (volume_isHeld w || volume_hovered i) && MouseDown i = false ->
    (m_Volume w = 0 -> prev w <> 0 ->
     m_Volume (fst (DrawSlippiPlaybackControls i w)) = prev w) /\
    (m_Volume w = 0 -> prev w = 0 ->
     m_Volume (fst (DrawSlippiPlaybackControls i w)) = 30) /\
    (m_Volume w <> 0 ->
     prev (fst (DrawSlippiPlaybackControls i w)) = m_Volume w /\
     m_Volume (fst (DrawSlippiPlaybackControls i w)) = 0) /\
    filter is_volume_change (snd (DrawSlippiPlaybackControls i w))
      = [UpdateSoundStream (m_Volume (fst (DrawSlippiPlaybackControls i w)))].
Proof.
  intros i w HB Hmute Hbar.
  destruct (frame_volume i w HB) as (wp & V1 & V2 & V3 & R).
  cbv zeta in R. destruct R as (R1 & _ & R3 & R4).
  rewrite R1, R3, R4. clear R1 R3 R4.
  unfold volume_button_step. rewrite Hmute, V1, V3.
  assert (Hskip : SkipItems i = false).
  { unfold ButtonCustom in Hmute. destruct (SkipItems i); [discriminate|reflexivity]. }
  unfold volume_bar_step, VolumeBar, VolumeBarBehavior. rewrite Hskip.
  destruct (m_Volume w =? 0) eqn:Hv; [apply Z.eqb_eq in Hv|apply Z.eqb_neq in Hv];
    (destruct (prev w =? 0) eqn:Hp; [apply Z.eqb_eq in Hp|apply Z.eqb_neq in Hp]);
    simpl fst; simpl snd; simpl volume_isHeld; simpl m_Volume; rewrite V2;
    apply andb_false_iff in Hbar;
    assert (Hc : forall x,
               (volume_isHeld w || volume_hovered i) && (negb x && MouseDown i) = false)
      by (intros x; destruct Hbar as [->| ->];
          [reflexivity|rewrite !andb_false_r; reflexivity]);
    rewrite Hc; simpl; repeat split; intros; try congruence; try lia.
Qed.

(** ** The opacity of the control bar *)

Lemma alpha_neutral_and_then :
  forall f g, alpha_neutral f -> alpha_neutral g -> alpha_neutral (f ;; g).
Proof.
  intros f g Hf Hg w. rewrite and_then_fst. now rewrite Hg, Hf.
Qed.

Lemma alpha_neutral_jump : forall i b delta, alpha_neutral (jump_step i b delta).
Proof. intros i b delta w. unfold jump_step. split_ifs. Qed.

Lemma alpha_neutral_volume_button : forall i, alpha_neutral (volume_button_step i).
Proof. intros i w. unfold volume_button_step. split_ifs. Qed.

Lemma alpha_neutral_volume_bar : forall i, alpha_neutral (volume_bar_step i).
Proof.
  intros i w. unfold volume_bar_step, VolumeBar, VolumeBarBehavior. split_ifs.
Qed.

Lemma alpha_neutral_help : forall i, alpha_neutral (help_step i).
Proof. intros i w. unfold help_step. split_ifs. Qed.

Lemma alpha_neutral_fullscreen : forall i, alpha_neutral (fullscreen_step i).
Proof. intros i w. unfold fullscreen_step. split_ifs. Qed.

Lemma seek_bar_step_showHelp :
  forall i w, showHelp (fst (seek_bar_step i w)) = showHelp w.
Proof.
  intros i w. unfold seek_bar_step, SeekBar, SeekBarBehavior. split_ifs.
Qed.

(** The opacity a frame that lays the bar out leaves in [style.Alpha]. *)
Lemma frame_alpha :
  forall i w,
    Begin i = true ->
    style_Alpha (fst (DrawSlippiPlaybackControls i w))
    = if showHelp w || negb (HoveredID i =? 0) then f32_of_Z 1
      else
        let tick := if pointer_moved i w then u32 (currTime i) else idle_tick w in
        let diff := s32 (currTime i - tick) in
        std_max f32_0_0001
          (f32_sub (f32_of_Z 1)
             (f32_div (f32_of_Z (if diff <? 1000 then 0 else diff - 1000))
                (f32_of_Z 1000))).
Proof.
  intros i w HB. unfold DrawSlippiPlaybackControls. rewrite HB.
  fold (pointer_moved i w).
  set (w0 := set_prev_mouse (mousePos i) _).
  assert (T : idle_tick w0
              = if pointer_moved i w then u32 (currTime i) else idle_tick w)
    by (subst w0; destruct (pointer_moved i w); reflexivity).
  assert (S : showHelp w0 = showHelp w)
    by (subst w0; destruct (pointer_moved i w); reflexivity).
  rewrite T. cbv zeta.
  set (diff := if _ <? 1000 then 0 else _).
  rewrite and_then_fst, and_then_fst.
  assert (N : alpha_neutral
    (jump_step i (fast_backward i) (-1200) ;;
     jump_step i (step_backward i) (-300) ;;
     jump_step i (step_forward i) 300 ;;
     jump_step i (fast_forward i) 1200 ;;
     volume_button_step i ;;
     volume_bar_step i ;;
     help_step i ;;
     fullscreen_step i)).
  { repeat apply alpha_neutral_and_then;
      auto using alpha_neutral_jump, alpha_neutral_volume_button,
        alpha_neutral_volume_bar, alpha_neutral_help, alpha_neutral_fullscreen. }
  rewrite N. unfold alpha_step. simpl.
  now rewrite seek_bar_step_showHelp, S.
Qed.

Lemma s32_sub_u32_self : forall c, s32 (c - u32 c) = 0.
Proof.
  intros c. unfold s32, u32.
  pose proof (Z.div_mod c 4294967296 ltac:(lia)) as E.
  replace (c - c mod 4294967296 + 2147483648)
    with (2147483648 + c / 4294967296 * 4294967296) by lia.
  rewrite Z_mod_plus_full. reflexivity.
Qed.

(** *** binary32: the fade *)

Lemma div_eucl_div_mod : forall a b, Z.div_eucl a b = (a / b, a mod b).
Proof. intros a b. unfold Z.div, Z.modulo. now destruct (Z.div_eucl a b). Qed.

(** A normal number of at least 2^10 divided by [1000.0f] is a normal
    number of at least 1. *)
Lemma f32_div_1000_normal :
  forall m e,
    digits2_pos m = 24%positive -> -13 <= e <= 8 ->
    exists m' e',
      f32_div (S754_finite false m e) (f32_of_Z 1000) = S754_finite false m' e' /\
      digits2_pos m' = 24%positive /\ -23 <= e'.
Proof.
  intros m e Hd He.
  change (f32_of_Z 1000) with (S754_finite false 16384000 (-14)).
  unfold f32_div, SFdiv, SFdiv_core_binary, Zdigits2, fexp, emin.
  rewrite Hd. change (Z.pos (digits2_pos 16384000)) with 24.
  rewrite Z.max_l by lia. rewrite Z.min_l by lia.
  replace (e - -14 - (24 + e - (24 + -14) - 24)) with 24 by lia.
  rewrite div_eucl_div_mod.
  rewrite Z.shiftl_mul_pow2 by lia. change (2 ^ 24) with 16777216.
  pose proof (digits2_pos_bounds m) as B. rewrite Hd in B.
  change (2 ^ (24 - 1)) with 8388608 in B. change (2 ^ 24) with 16777216 in B.
  assert (Q1 : 8388608 <= Z.pos m * 16777216 / 16384000)
    by (apply Z.div_le_lower_bound; lia).
  assert (Q2 : Z.pos m * 16777216 / 16384000 < 33554432)
    by (apply Z.div_lt_upper_bound; lia).
  destruct (Z.pos m * 16777216 / 16384000) as [|q|q] eqn:Hq; try lia.
  assert (Dq : 24 <= Z.pos (digits2_pos q) <= 25).
  { split.
    - apply (digits2_pos_ge q 23); [lia|change (2 ^ 23) with 8388608; lia].
    - apply digits2_pos_le; [lia|change (2 ^ 25) with 33554432; lia]. }
  destruct (binary_round_aux_normal (xorb false false) q
              (24 + e - (24 + -14) - 24)
              (new_location 16384000 (Z.pos m * 16777216 mod 16384000)))
    as (m' & e' & E & D & Bd); try lia.
  exists m', e'. repeat split; [exact E|exact D|lia].
Qed.

(** No rounded negative number is above [0.0001f]. *)
Lemma binary_round_aux_negative :
  forall mx ex lx,
    f32_ltb f32_0_0001 (binary_round_aux 24 128 true mx ex lx) = false.
Proof.
  intros mx ex lx. unfold binary_round_aux.
  destruct (shr_fexp 24 128 mx ex lx) as [mrs' e'].
  destruct (shr_fexp 24 128 _ e' loc_Exact) as [mrs'' e''].
  destruct (shr_m mrs''); [reflexivity| |reflexivity].
  destruct (e'' <=? 128 - 24); reflexivity.
Qed.

Lemma iter_xO_ge : forall k p, Z.pos p <= Z.pos (Pos.iter xO p k).
Proof.
  intros k p. induction k using Pos.peano_ind.
  - simpl. lia.
  - rewrite Pos.iter_succ. lia.
Qed.

(** [1.0f - y] is not above [0.0001f] when [y] is a normal number of at
    least 1. *)
Lemma f32_sub_one_not_above :
  forall m e,
    digits2_pos m = 24%positive -> -23 <= e ->
    f32_ltb f32_0_0001 (f32_sub (f32_of_Z 1) (S754_finite false m e)) = false.
Proof.
  intros m e Hd He.
  change (f32_of_Z 1) with (S754_finite false 8388608 (-23)).
  unfold f32_sub, SFsub. rewrite Z.min_l by lia.
  pose proof (digits2_pos_bounds m) as B. rewrite Hd in B.
  change (2 ^ (24 - 1)) with 8388608 in B.
  assert (L : Z.pos m <= Z.pos (fst (shl_align m e (-23)))).
  { unfold shl_align. destruct (-23 - e); simpl; try lia. apply iter_xO_ge. }
  unfold shl_align at 1. simpl Z.sub at 2. cbn [fst cond_Zopp].
  destruct (Z.pos 8388608 - Z.pos (fst (shl_align m e (-23)))) as [|z|z] eqn:Hz;
    try lia.
  - reflexivity.
  - unfold binary_normalize, binary_round.
    destruct (shl_align z (-23) _) as [mz ez].
    apply binary_round_aux_negative.
Qed.

(** From one second past the first on, the bar is at its floor. *)
Lemma fade_floor :
  forall diff, 1000 <= diff < 2147483648 -> fade diff = f32_0_0001.
Proof.
  intros diff H.
  destruct (Z_lt_ge_dec diff 1024) as [Hlt|Hge].
  - assert (C : exists n, diff = 1000 + Z.of_nat n /\ (n < 24)%nat)
      by (exists (Z.to_nat (diff - 1000)); lia).
    destruct C as (n & -> & Hn).
    do 24 (destruct n as [|n]; [vm_compute; reflexivity|]). lia.
  - destruct diff as [|p|p]; try lia.
    destruct (f32_of_Z_normal p) as (m & e & E & D & Be); [lia|].
    assert (Hlo : 11 <= Z.pos (digits2_pos p))
      by (apply (digits2_pos_ge p 10); [lia|change (2 ^ 10) with 1024; lia]).
    assert (Hhi : Z.pos (digits2_pos p) <= 31)
      by (apply digits2_pos_le; [lia|change (2 ^ 31) with 2147483648; lia]).
    destruct (f32_div_1000_normal m e D) as (m' & e' & E' & D' & B'); [lia|].
    unfold fade. rewrite E, E'. unfold std_max.
    now rewrite f32_sub_one_not_above.
Qed.

(** The fade is the real number [max(0.0001, 1 - diff / 1000)] up to the
    rounding of binary32: below one second each of the thousand values is
    checked, from there on the floor applies. *)
Lemma fade_value :
  forall diff,
    0 <= diff < 2147483648 ->
    (Qabs (f32_to_Q (fade diff) - Qmax (1 # 10000) (1 - inject_Z diff / 1000))
     <= 1 # 16777216)%Q.
Proof.
  intros diff H.
  destruct (Z_lt_ge_dec diff 1000) as [Hlt|Hge].
  - assert (all :
      forallb (fun n =>
                 Qle_bool
                   (Qabs (f32_to_Q (fade (Z.of_nat n))
                          - Qmax (1 # 10000) (1 - inject_Z (Z.of_nat n) / 1000)))
                   (1 # 16777216))
              (seq 0 1000) = true) by (vm_compute; reflexivity).
    rewrite forallb_forall in all. specialize (all (Z.to_nat diff)).
    rewrite Z2Nat.id in all by lia.
    apply Qle_bool_iff, all, in_seq. lia.
  - rewrite fade_floor by lia.
    assert (E : (Qmax (1 # 10000) (1 - inject_Z diff / 1000) == 1 # 10000)%Q).
    { apply Q.max_l.
      unfold Qle, Qminus, Qplus, Qopp, Qdiv, Qmult, Qinv, inject_Z.
      cbn [Qnum Qden]. lia. }
    rewrite E. vm_compute. discriminate.
Qed.

(** C8, amended.  After a frame that lays the bar out, [style.Alpha] is
    [1.0f] when help is open or ImGui reports a hovered item.  Otherwise,
    with [idle] the milliseconds since the pointer last moved, counted
    modulo 2^32 and below 2^31: it is [1.0f] when the pointer moved in this
    frame or [idle] is at most 1000; from 1000 on it is the binary32 value
    of [max(0.0001f, 1.0f - (idle - 1000) / 1000.0f)], which is the real
    number [max(0.0001, 1 - (idle - 1000) / 1000)] up to 2^-24; from 2000
    on, so at 2500, it is [0.0001f]. *)
Theorem control_bar_opacity :
  forall i w,
    Begin i = true ->
    (showHelp w = true \/ HoveredID i <> 0 ->
     style_Alpha (fst (DrawSlippiPlaybackControls i w)) = f32_of_Z 1) /\
    (showHelp w = false -> HoveredID i = 0 ->
     (pointer_moved i w = true ->
      style_Alpha (fst (DrawSlippiPlaybackControls i w)) = f32_of_Z 1) /\
     (forall idle,
         pointer_moved i w = false ->
         u32 (currTime i - idle_tick w) = idle -> idle < 2147483648 ->
         (idle <= 1000 ->
          style_Alpha (fst (DrawSlippiPlaybackControls i w)) = f32_of_Z 1) /\
         (1000 <= idle ->
          style_Alpha (fst (DrawSlippiPlaybackControls i w))
          = std_max f32_0_0001
              (f32_sub (f32_of_Z 1)
                 (f32_div (f32_of_Z (idle - 1000)) (f32_of_Z 1000))) /\
          (Qabs (f32_to_Q (style_Alpha (fst (DrawSlippiPlaybackControls i w)))
                 - Qmax (1 # 10000) (1 - inject_Z (idle - 1000) / 1000))
           <= 1 # 16777216)%Q) /\
         (2000 <= idle ->
          style_Alpha (fst (DrawSlippiPlaybackControls i w)) = f32_0_0001) /\
         (idle = 2500 ->
          style_Alpha (fst (DrawSlippiPlaybackControls i w)) = f32_0_0001))).
Proof.
  intros i w HB. rewrite (frame_alpha i w HB). split.
  - intros [Hh|Hh]; [now rewrite Hh|].
    apply Z.eqb_neq in Hh. rewrite Hh. now rewrite orb_true_r.
  - intros Hhelp Hhov. rewrite Hhelp. apply Z.eqb_eq in Hhov. rewrite Hhov.
    simpl orb. cbv iota. split.
    + intros ->. cbv zeta. rewrite s32_sub_u32_self. reflexivity.
    + intros idle -> Hidle Hlt. cbv zeta.
      pose proof (u32_range (currTime i - idle_tick w)) as R.
      rewrite <- s32_u32, Hidle, s32_small by lia.
      fold (fade (if idle <? 1000 then 0 else idle - 1000)).
      fold (fade (idle - 1000)).
      split; [|split; [|split]].
      * intros H. destruct (idle <? 1000) eqn:E; [reflexivity|].
        apply Z.ltb_ge in E. now replace (idle - 1000) with 0 by lia.
      * intros H. replace (idle <? 1000) with false
          by (symmetry; apply Z.ltb_ge; lia).
        split; [reflexivity|]. apply fade_value. lia.
      * intros H. replace (idle <? 1000) with false
          by (symmetry; apply Z.ltb_ge; lia).
        apply fade_floor. lia.
      * intros ->. reflexivity.
Qed.

(** ** The time label *)

Lemma fmt_02d_two_digits :
  forall n, 0 <= n < 100 -> fmt_02d n = two_digits n.
Proof.
  intros n H.
  assert (C : exists k, n = Z.of_nat k /\ (k < 100)%nat)
    by (exists (Z.to_nat n); lia).
  destruct C as (k & -> & Hk).
  do 100 (destruct k as [|k]; [reflexivity|]). lia.
Qed.

Lemma quot_60_small : forall z, -59 <= z < 0 -> Z.quot z 60 = 0.
Proof.
  intros z H. replace z with (- (- z)) by lia.
  rewrite Z.quot_opp_l by lia. rewrite Z.quot_small; lia.
Qed.

(** C9, amended.  For a frame index from 59 frames before the first frame
    of the game to just below 360000 frames (100 minutes) after it,
    [GetTimeForFrame] returns the text [MM:SS] of two decimal digits each,
    where the elapsed seconds are the frames since the first frame divided
    by 60, [MM] the seconds divided by 60 and [SS] the seconds modulo 60.
    The label the seek bar draws above its handle is [GetTimeForFrame] of
    the value under the pointer. *)
Theorem GetTimeForFrame_MM_SS :
  forall currFrame,
    -59 <= currFrame - GAME_FIRST_FRAME < 360000 ->
    let seconds := Z.quot (currFrame - GAME_FIRST_FRAME) 60 in
    (0 <= currFrame - GAME_FIRST_FRAME ->
     seconds = (currFrame - GAME_FIRST_FRAME) / 60) /\
    0 <= seconds / 60 < 100 /\ 0 <= seconds mod 60 < 60 /\
    GetTimeForFrame currFrame = Some (MM_SS (seconds / 60) (seconds mod 60)) /\
    (forall bb isDown hovered pos v_min v_max w label,
        snd (fst (SeekBarBehavior bb isDown hovered pos v_min v_max w)) = Some label ->
        label = GetTimeForFrame (slider_new_value bb pos v_min v_max)).
Proof.
  intros currFrame H seconds.
  assert (Hs : 0 <= seconds < 6000).
  { subst seconds. destruct (Z_lt_ge_dec (currFrame - GAME_FIRST_FRAME) 0).
    - rewrite quot_60_small; lia.
    - rewrite Z.quot_div_nonneg by lia.
      split; [apply Z.div_pos; lia|apply Z.div_lt_upper_bound; lia]. }
  assert (Hm : 0 <= seconds / 60 < 100)
    by (split; [apply Z.div_pos; lia|apply Z.div_lt_upper_bound; lia]).
  assert (Hr : 0 <= seconds mod 60 < 60) by (apply Z.mod_pos_bound; lia).
  split; [intros; subst seconds; apply Z.quot_div_nonneg; lia|].
  split; [exact Hm|]. split; [exact Hr|]. split.
  - unfold GetTimeForFrame. fold seconds.
    replace ((-2147483648 <=? currFrame - GAME_FIRST_FRAME) &&
             (currFrame - GAME_FIRST_FRAME <=? 2147483647)) with true
      by (symmetry; apply andb_true_iff; split; apply Z.leb_le; lia).
    rewrite Z.quot_div_nonneg, Z.rem_mod_nonneg by lia.
    rewrite !fmt_02d_two_digits by lia. reflexivity.
  - intros bb isDown hovered pos v_min v_max w label.
    unfold SeekBarBehavior.
    destruct (seek_isHeld w) eqn:Hh, hovered, isDown;
      repeat (simpl; rewrite ?Hh;
              match goal with
              | |- context [if ?b then _ else _] => destruct b
              end);
      simpl; congruence.
Qed.

(** ** Further properties of the queue *)

Lemma length_emplace :
  forall type msg q, List.length (emplace type msg q) = S (List.length q).
Proof.
  intros type msg q. induction q as [|[k m] rest IH]; simpl; [reflexivity|].
  destruct (type <? k); simpl; [reflexivity|now rewrite IH].
Qed.

(** X1.  Calls of [AddMessage] evict nothing: the queue grows by one entry per
    call and every entry it held stays. *)
Theorem AddMessage_never_evicts :
  forall (calls : list AddCall) (q : multimap),
    List.length (run_untyped calls q) = (List.length q + List.length calls)%nat /\
    (forall e, In e q -> In e (run_untyped calls q)) /\
    (forall c, In c calls -> In (Typeless, stored c) (run_untyped calls q)).
Proof.
  intros calls q. split; [|split].
  - induction calls as [|c calls IH] using rev_ind; [simpl; lia|].
    rewrite run_untyped_app, length_app. unfold AddMessage.
    rewrite length_emplace, IH. simpl. lia.
  - induction calls as [|c calls IH] using rev_ind; intros e He; [exact He|].
    rewrite run_untyped_app. unfold AddMessage. apply In_emplace.
    right. now apply IH.
  - intros c Hc. now apply run_untyped_In.
Qed.

Lemma ordered_emplace :
  forall type msg q, ordered q -> ordered (emplace type msg q).
Proof.
  intros type msg q. unfold ordered.
  induction q as [|[k m] rest IH]; intros Hq; simpl.
  - constructor; constructor.
  - inversion Hq as [|? ? Hrest Hall]; subst.
    destruct (type <? k) eqn:Hlt.
    + constructor; [exact Hq|]. apply Z.ltb_lt in Hlt.
      constructor; [unfold key_le; simpl; lia|].
      apply Forall_forall. intros e He.
      rewrite Forall_forall in Hall. specialize (Hall e He).
      unfold key_le in *. simpl in *. lia.
    + constructor; [now apply IH|]. apply Z.ltb_ge in Hlt.
      apply Forall_forall. intros e He. apply In_emplace in He.
      destruct He as [->|He]; [unfold key_le; simpl; lia|].
      rewrite Forall_forall in Hall. now apply Hall.
Qed.

Lemma ordered_filter :
  forall f q, ordered q -> ordered (filter f q).
Proof.
  intros f q. unfold ordered.
  induction q as [|e rest IH]; intros Hq; simpl; [constructor|].
  inversion Hq as [|? ? Hrest Hall]; subst.
  destruct (f e); [|now apply IH].
  constructor; [now apply IH|].
  apply Forall_forall. intros e' He'. apply filter_In in He'.
  rewrite Forall_forall in Hall. now apply Hall.
Qed.

Lemma equal_range_above :
  forall type q,
    Forall (fun e : MessageType * Message => type < fst e) q -> equal_range type q = [].
Proof.
  intros type q H. unfold equal_range.
  induction H as [|[k m] rest Hk Hrest IH]; simpl; [reflexivity|].
  simpl in Hk. replace (k =? type) with false by (symmetry; apply Z.eqb_neq; lia).
  exact IH.
Qed.

Lemma equal_range_emplace_last :
  forall type msg q,
    ordered q ->
    equal_range type (emplace type msg q) = equal_range type q ++ [msg].
Proof.
  intros type msg q. unfold ordered.
  induction q as [|[k m] rest IH]; intros Hq; simpl.
  - unfold equal_range. simpl. now rewrite Z.eqb_refl.
  - inversion Hq as [|? ? Hrest Hall]; subst.
    destruct (type <? k) eqn:Hlt.
    + apply Z.ltb_lt in Hlt.
      assert (Habove : Forall (fun e : MessageType * Message => type < fst e) ((k, m) :: rest)).
      { constructor; [exact Hlt|]. apply Forall_forall. intros e He.
        rewrite Forall_forall in Hall. specialize (Hall e He).
        unfold key_le in Hall. simpl in Hall. lia. }
      rewrite (equal_range_above type _ Habove).
      unfold equal_range in *. simpl. rewrite Z.eqb_refl. simpl.
      replace (k =? type) with false by (symmetry; apply Z.eqb_neq; lia).
      pose proof (equal_range_above type rest) as Hr. unfold equal_range in Hr.
      rewrite Hr; [reflexivity|]. now inversion Habove.
    + specialize (IH Hrest). unfold equal_range in *. simpl.
      destruct (k =? type); simpl; now rewrite IH.
Qed.

(** X2.  The queue stays in iteration order, by key, through every sequence of
    calls, and a message added to an ordered queue comes last among the
    messages of its key. *)
Theorem queue_stays_ordered :
  forall (ops : list QueueOp),
    ordered (run_ops ops []) /\
    (forall q now message ms rgba,
        ordered q ->
        equal_range Typeless (AddMessage now message ms rgba q)
        = equal_range Typeless q ++ [mkMessage message (u32 (now + ms)) rgba]).
Proof.
  intros ops. split.
  - induction ops as [|op ops IH] using rev_ind; [constructor|].
    unfold run_ops in *. rewrite fold_left_app. simpl.
    destruct op as [c|c|a|]; simpl.
    + unfold AddTypedMessage. apply ordered_emplace. unfold erase.
      now apply ordered_filter.
    + unfold AddMessage. now apply ordered_emplace.
    + rewrite DrawMessages_kept. now apply ordered_filter.
    + constructor.
  - intros q now message ms rgba Hq. unfold AddMessage.
    now apply equal_range_emplace_last.
Qed.

Lemma DrawMessages_loop_indices :
  forall now sy x it y index,
    map dc_index (snd (DrawMessages_loop true now sy x y index it))
    = map (fun n => index + Z.of_nat n)
          (seq 0 (List.length (filter (alive now) it))).
Proof.
  intros now sy x it.
  induction it as [|[k m] rest IH]; intros y index; simpl; [reflexivity|].
  unfold alive at 1. simpl.
  destruct (time_left_of m now <=? 0) eqn:Hle.
  - replace (0 <? time_left_of m now) with false by (symmetry; apply Z.ltb_ge; lia).
    apply IH.
  - replace (0 <? time_left_of m now) with true by (symmetry; apply Z.ltb_lt; lia).
    specialize (IH (f32_add y (snd (DrawMessage sy index m (x, y) (time_left_of m now))))
                   (index + 1)).
    unfold DrawMessage in *. simpl in *.
    destruct (DrawMessages_loop true now sy x _ (index + 1) rest) as [kept drawn].
    simpl in *. rewrite IH. f_equal; [lia|].
    rewrite <- seq_shift, map_map. apply map_ext. intros n. lia.
Qed.

(** X3.  The windows of one call are numbered from 0 in the order of the queue,
    one per entry the call keeps. *)
Theorem DrawMessages_numbers_windows :
  forall clock scale q,
    map dc_index (snd (DrawMessages true clock scale q))
    = map Z.of_nat (seq 0 (List.length (fst (DrawMessages true clock scale q)))) /\
    map dc_msg (snd (DrawMessages true clock scale q))
    = map snd (fst (DrawMessages true clock scale q)).
Proof.
  intros clock scale q. rewrite DrawMessages_kept. unfold DrawMessages. split.
  - rewrite DrawMessages_loop_indices. apply map_ext. intros n. lia.
  - apply DrawMessages_loop_drawn.
Qed.

(** ** Further properties of the control bar *)

(** X5.  Whenever the seek bar is not held after its call, [frame] shows the
    target of the pending seek, or the frame being played when none is
    pending. *)
Theorem SeekBarBehavior_progress :
  forall bb isDown hovered pos v_min v_max w,
    let w' := snd (SeekBarBehavior bb isDown hovered pos v_min v_max w) in
    seek_isHeld w' = true \/
    frame w'
    = (if targetFrameNum (g_playbackStatus w') =? INT_MAX
       then currentPlaybackFrame (g_playbackStatus w')
       else targetFrameNum (g_playbackStatus w')).
Proof.
  intros bb isDown hovered pos v_min v_max w. unfold SeekBarBehavior.
  destruct (seek_isHeld w) eqn:Hh, hovered, isDown; simpl; rewrite ?Hh; simpl;
    repeat match goal with
           | |- context [if ?b then _ else _] => destruct b; simpl; rewrite ?Hh; simpl
           end;
    auto.
Qed.

(** X6.  The idle timer restarts exactly in the frames in which the pointer is
    elsewhere than in the frame before, whether or not the bar is laid out. *)
Theorem idle_timer_restarts_on_movement :
  forall i w,
    idle_tick (fst (DrawSlippiPlaybackControls i w))
    = (if pointer_moved i w then u32 (currTime i) else idle_tick w) /\
    prev_mouse (fst (DrawSlippiPlaybackControls i w)) = mousePos i.
Proof.
  intros i w. unfold DrawSlippiPlaybackControls. fold (pointer_moved i w).
  set (w0 := set_prev_mouse (mousePos i) _).
  assert (T : idle_tick w0
              = if pointer_moved i w then u32 (currTime i) else idle_tick w)
    by (subst w0; destruct (pointer_moved i w); reflexivity).
  assert (P : prev_mouse w0 = mousePos i) by reflexivity.
  destruct (Begin i); [|simpl; auto].
  set (diff := if _ <? 1000 then 0 else _).
  repeat rewrite and_then_fst.
  assert (K1 : forall w, idle_tick (fst (seek_bar_step i w)) = idle_tick w /\
                         prev_mouse (fst (seek_bar_step i w)) = prev_mouse w)
    by (intros w'; unfold seek_bar_step, SeekBar, SeekBarBehavior; split_ifs).
  assert (K2 : forall w, idle_tick (fst (alpha_step i diff w)) = idle_tick w /\
                         prev_mouse (fst (alpha_step i diff w)) = prev_mouse w)
    by (intros w'; unfold alpha_step; simpl; auto).
  assert (K3 : forall b d w, idle_tick (fst (jump_step i b d w)) = idle_tick w /\
                             prev_mouse (fst (jump_step i b d w)) = prev_mouse w)
    by (intros b d w'; unfold jump_step; split_ifs).
  assert (K4 : forall w, idle_tick (fst (volume_button_step i w)) = idle_tick w /\
                         prev_mouse (fst (volume_button_step i w)) = prev_mouse w)
    by (intros w'; unfold volume_button_step; split_ifs).
  assert (K5 : forall w, idle_tick (fst (volume_bar_step i w)) = idle_tick w /\
                         prev_mouse (fst (volume_bar_step i w)) = prev_mouse w)
    by (intros w'; unfold volume_bar_step, VolumeBar, VolumeBarBehavior; split_ifs).
  assert (K6 : forall w, idle_tick (fst (help_step i w)) = idle_tick w /\
                         prev_mouse (fst (help_step i w)) = prev_mouse w)
    by (intros w'; unfold help_step; split_ifs).
  assert (K7 : forall w, idle_tick (fst (fullscreen_step i w)) = idle_tick w /\
                         prev_mouse (fst (fullscreen_step i w)) = prev_mouse w)
    by (intros w'; unfold fullscreen_step; split_ifs).
  split.
  - rewrite (proj1 (K7 _)), (proj1 (K6 _)), (proj1 (K5 _)), (proj1 (K4 _)),
      !(proj1 (K3 _ _ _)), (proj1 (K2 _)), (proj1 (K1 _)). exact T.
  - rewrite (proj2 (K7 _)), (proj2 (K6 _)), (proj2 (K5 _)), (proj2 (K4 _)),
      !(proj2 (K3 _ _ _)), (proj2 (K2 _)), (proj2 (K1 _)). exact P.
Qed.

(** ** Further properties of the message windows *)

Lemma filter_filter_andb :
  forall (A : Type) (f g : A -> bool) (l : list A),
    filter f (filter g l) = filter (fun x => g x && f x) l.
Proof.
  intros A f g l. induction l as [|a l IH]; simpl; [reflexivity|].
  destruct (g a); simpl; [|exact IH].
  destruct (f a); now rewrite IH.
Qed.

Lemma DrawMessages_loop_filter :
  forall now sy x it y index,
    snd (DrawMessages_loop true now sy x y index (filter (alive now) it))
    = snd (DrawMessages_loop true now sy x y index it).
Proof.
  intros now sy x it.
  induction it as [|[k m] rest IH]; intros y index; simpl; [reflexivity|].
  unfold alive at 1. simpl.
  destruct (time_left_of m now <=? 0) eqn:Hle.
  - replace (0 <? time_left_of m now) with false by (symmetry; apply Z.ltb_ge; lia).
    apply IH.
  - replace (0 <? time_left_of m now) with true by (symmetry; apply Z.ltb_lt; lia).
    simpl. rewrite Hle.
    specialize (IH (f32_add y (snd (DrawMessage sy index m (x, y) (time_left_of m now))))
                   (index + 1)).
    unfold DrawMessage in *. simpl in *.
    destruct (DrawMessages_loop true now sy x _ (index + 1) (filter _ rest))
      as [kept drawn].
    destruct (DrawMessages_loop true now sy x _ (index + 1) rest) as [kept' drawn'].
    simpl in *. now rewrite IH.
Qed.

(** X7.  What a sequence of [DrawMessages] calls leaves of a queue is what is
    alive at the clock value of every one of the calls, in the order it had;
    so a second call at the same clock value removes nothing more, and with
    drawing enabled it draws the same windows again. *)
Theorem run_draws_keeps_survivors :
  forall (calls : list DrawArgs) (q : multimap),
    run_draws calls q = filter (survives calls) q /\
    (forall draw draw' clock scale scale',
        fst (DrawMessages draw' clock scale' (fst (DrawMessages draw clock scale q)))
        = fst (DrawMessages draw clock scale q) /\
        snd (DrawMessages true clock scale (fst (DrawMessages draw clock scale' q)))
        = snd (DrawMessages true clock scale q)).
Proof.
  intros calls q. split.
  - revert q. induction calls as [|c calls IH]; intros q.
    + simpl. unfold survives. simpl. induction q as [|e q IHq]; simpl; congruence.
    + change (run_draws (c :: calls) q)
        with (run_draws calls
                (fst (DrawMessages (da_enabled c) (da_clock c) (da_scale c) q))).
      rewrite IH, DrawMessages_kept, filter_filter_andb. reflexivity.
  - intros draw draw' clock scale scale'. split.
    + rewrite !DrawMessages_kept, filter_filter_andb.
      apply filter_ext. intros e. now destruct (alive _ e).
    + rewrite DrawMessages_kept. unfold DrawMessages.
      apply DrawMessages_loop_filter.
Qed.

Lemma DrawMessages_loop_stacked :
  forall draw now sy x it y index,
    stacked sy x y (snd (DrawMessages_loop draw now sy x y index it)).
Proof.
  intros draw now sy x it.
  induction it as [|[k m] rest IH]; intros y index; simpl; [exact I|].
  destruct (time_left_of m now <=? 0); [apply IH|].
  destruct draw.
  - specialize (IH (f32_add y (snd (DrawMessage sy index m (x, y) (time_left_of m now))))
                   (index + 1)).
    unfold DrawMessage in *. simpl in *.
    destruct (DrawMessages_loop true now sy x _ (index + 1) rest) as [kept drawn].
    simpl in *. split; [reflexivity|exact IH].
  - specialize (IH y index).
    destruct (DrawMessages_loop false now sy x y index rest) as [kept drawn].
    exact IH.
Qed.

(** X8.  The windows of one call form a column: they share the abscissa
    [LEFT_MARGIN] times the horizontal scale, the first one is [TOP_MARGIN]
    times the vertical scale down, and each next one starts lower by the
    height [DrawMessage] returned for the one before it, which is the
    window's height plus the scaled padding, or zero for a window ImGui
    did not begin. *)
Theorem DrawMessages_stacks_windows :
  forall draw clock scale q,
    stacked (snd scale) (f32_mul LEFT_MARGIN (fst scale))
      (f32_mul TOP_MARGIN (snd scale)) (snd (DrawMessages draw clock scale q)) /\
    (forall dc,
        window_height (snd scale) dc
        = match osd_window (dc_index dc) (dc_msg dc) with
          | Some size_y => f32_add size_y (f32_mul WINDOW_PADDING (snd scale))
          | None => f32_of_Z 0
          end).
Proof.
  intros draw clock scale q. split.
  - unfold DrawMessages. apply DrawMessages_loop_stacked.
  - intros dc. reflexivity.
Qed.

Lemma window_name_inj :
  forall a b, window_name a = window_name b -> a = b.
Proof.
  intros a b H. unfold window_name in H.
  assert (Hnn : forall z, Z.to_int z <> Decimal.Pos Decimal.Nil /\
                          Z.to_int z <> Decimal.Neg Decimal.Nil).
  { intros [|p|p]; simpl; split; try discriminate;
      intros E; injection E as E;
      now apply DecimalPos.Unsigned.to_uint_nonnil in E. }
  simpl in H. injection H as H.
  apply DecimalZ.to_int_inj.
  pose proof (NilZero.isi (Z.to_int a) (proj1 (Hnn a)) (proj2 (Hnn a))) as Ha.
  pose proof (NilZero.isi (Z.to_int b) (proj1 (Hnn b)) (proj2 (Hnn b))) as Hb.
  rewrite H in Ha. rewrite Ha in Hb. now injection Hb.
Qed.

Lemma NoDup_map_injective :
  forall (A B : Type) (f : A -> B) (l : list A),
    (forall x y, f x = f y -> x = y) -> NoDup l -> NoDup (map f l).
Proof.
  intros A B f l Hf Hl. induction Hl as [|a l Ha Hl IH]; simpl; constructor.
  - intros Hin. apply in_map_iff in Hin. destruct Hin as (x & Hx & Hin).
    apply Hf in Hx. subst x. contradiction.
  - exact IH.
Qed.

(** X9.  Within one call no two windows bear the same name. *)
Theorem DrawMessages_window_names_distinct :
  forall draw clock scale q,
    NoDup (map (fun dc => window_name (dc_index dc))
               (snd (DrawMessages draw clock scale q))).
Proof.
  intros draw clock scale q. destruct draw.
  - rewrite <- (map_map dc_index window_name).
    unfold DrawMessages. rewrite DrawMessages_loop_indices.
    rewrite map_map. apply NoDup_map_injective; [|apply seq_NoDup].
    intros n n' H. apply window_name_inj in H. lia.
  - unfold DrawMessages. rewrite DrawMessages_loop_disabled. constructor.
Qed.

Lemma run_ops_app :
  forall ops op q, run_ops (ops ++ [op]) q = apply_op (run_ops ops q) op.
Proof. intros. unfold run_ops. now rewrite fold_left_app. Qed.

(** X10.  On a queue in iteration order, calls that only add, none of them a
    typed message of the type [Typeless], leave the untyped messages that
    were there followed by those of the [AddMessage] calls, in the order of
    the calls; the typed calls in between evict none of them. *)
Theorem untyped_messages_accumulate :
  forall (ops : list QueueOp) (q : multimap),
    ordered q ->
    adds_beside_untyped ops = true ->
    equal_range Typeless (run_ops ops q)
    = equal_range Typeless q ++ untyped_of ops.
Proof.
  intros ops q Hq.
  assert (main : adds_beside_untyped ops = true ->
                 ordered (run_ops ops q) /\
                 equal_range Typeless (run_ops ops q)
                 = equal_range Typeless q ++ untyped_of ops).
  { induction ops as [|op ops IH] using rev_ind; intros Hops.
    - split; [exact Hq|]. simpl. now rewrite app_nil_r.
    - unfold adds_beside_untyped in Hops. rewrite forallb_app in Hops.
      apply andb_true_iff in Hops. destruct Hops as [Hops Hop].
      destruct (IH Hops) as [Hord Heq].
      rewrite run_ops_app. unfold untyped_of. rewrite flat_map_app.
      fold (untyped_of ops). simpl in Hop. rewrite andb_true_r in Hop.
      destruct op as [c|c|a|]; try discriminate; simpl.
      + apply negb_true_iff, Z.eqb_neq in Hop. split.
        * unfold AddTypedMessage. apply ordered_emplace. unfold erase.
          now apply ordered_filter.
        * rewrite equal_range_AddTypedMessage_other by (intros E; now apply Hop).
          now rewrite app_nil_r.
      + split.
        * unfold AddMessage. now apply ordered_emplace.
        * unfold AddMessage. rewrite equal_range_emplace_last by exact Hord.
          rewrite Heq, <- app_assoc. reflexivity. }
  intros Hops. exact (proj2 (main Hops)).
Qed.

(** ** Colours *)

Lemma byte_of_shiftr :
  forall c k, 0 <= k -> Z.land (Z.shiftr c k) 255 = (c / 2 ^ k) mod 256.
Proof.
  intros c k Hk. rewrite Z.shiftr_div_pow2 by exact Hk.
  change 255 with (Z.ones 8). now rewrite Z.land_ones by lia.
Qed.

Lemma RGBAToImVec4_channels :
  forall c,
    RGBAToImVec4 c
    = (channel ((c / 65536) mod 256), channel ((c / 256) mod 256),
       channel (c mod 256), channel ((c / 16777216) mod 256)).
Proof.
  intros c. unfold RGBAToImVec4, channel.
  rewrite !byte_of_shiftr by lia.
  change (2 ^ 16) with 65536. change (2 ^ 8) with 256.
  change (2 ^ 24) with 16777216. change (2 ^ 0) with 1.
  now rewrite Z.div_1_r.
Qed.

Lemma byte_in_seq : forall n, 0 <= n < 256 -> In (Z.to_nat n) (seq 0 256).
Proof. intros n Hn. apply in_seq. lia. Qed.

Lemma channel_unit_interval :
  forall n, 0 <= n < 256 -> (0 <= f32_to_Q (channel n) <= 1)%Q.
Proof.
  assert (T : forallb (fun k => Qle_bool 0 (f32_to_Q (channel (Z.of_nat k))) &&
                                Qle_bool (f32_to_Q (channel (Z.of_nat k))) 1)
                (seq 0 256) = true) by (vm_compute; reflexivity).
  intros n Hn. rewrite forallb_forall in T.
  specialize (T _ (byte_in_seq n Hn)). rewrite Z2Nat.id in T by lia.
  apply andb_true_iff in T. destruct T as [T1 T2].
  split; now apply Qle_bool_iff.
Qed.

(** Different bytes become different numbers: the count of the channels
    below the channel of a byte is the byte. *)
Lemma channel_inj :
  forall a b, 0 <= a < 256 -> 0 <= b < 256 -> channel a = channel b -> a = b.
Proof.
  pose (rank := fun c : f32 =>
          Z.of_nat (List.length
                      (filter (fun k => f32_ltb (channel (Z.of_nat k)) c) (seq 0 256)))).
  assert (T : forallb (fun k => rank (channel (Z.of_nat k)) =? Z.of_nat k)
                (seq 0 256) = true) by (vm_compute; reflexivity).
  rewrite forallb_forall in T.
  intros a b Ha Hb H.
  pose proof (T _ (byte_in_seq a Ha)) as Ta. pose proof (T _ (byte_in_seq b Hb)) as Tb.
  rewrite Z2Nat.id in Ta, Tb by lia.
  apply Z.eqb_eq in Ta, Tb. rewrite <- Ta, <- Tb, H. reflexivity.
Qed.

Lemma ARGB_bytes :
  forall a r g b,
    0 <= a < 256 -> 0 <= r < 256 -> 0 <= g < 256 -> 0 <= b < 256 ->
    (ARGB a r g b / 65536) mod 256 = r /\
    (ARGB a r g b / 256) mod 256 = g /\
    ARGB a r g b mod 256 = b /\
    (ARGB a r g b / 16777216) mod 256 = a.
Proof.
  intros a r g b Ha Hr Hg Hb. unfold ARGB. clear - Ha Hr Hg Hb.
  repeat split; Z.div_mod_to_equations; lia.
Qed.

(** X11.  The colour of a message is read as alpha, red, green, blue from
    the top byte down; each byte becomes a [float] between 0 and 1, the
    byte 0 the number 0 and the byte 255 the number 1. *)
Theorem RGBAToImVec4_reads_ARGB :
  forall a r g b,
    0 <= a < 256 -> 0 <= r < 256 -> 0 <= g < 256 -> 0 <= b < 256 ->
    RGBAToImVec4 (ARGB a r g b) = (channel r, channel g, channel b, channel a) /\
    (forall n, 0 <= n < 256 -> (0 <= f32_to_Q (channel n) <= 1)%Q) /\
    channel 0 = f32_of_Z 0 /\ channel 255 = f32_of_Z 1.
Proof.
  intros a r g b Ha Hr Hg Hb. split; [|split; [|split]].
  - rewrite RGBAToImVec4_channels.
    destruct (ARGB_bytes a r g b Ha Hr Hg Hb) as (-> & -> & -> & ->).
    reflexivity.
  - exact channel_unit_interval.
  - vm_compute. reflexivity.
  - vm_compute. reflexivity.
Qed.

(** X12.  Two different 32-bit colours never give the same [ImVec4]. *)
Theorem RGBAToImVec4_injective :
  forall c c',
    0 <= c < 4294967296 -> 0 <= c' < 4294967296 ->
    c <> c' -> RGBAToImVec4 c <> RGBAToImVec4 c'.
Proof.
  intros c c' Hc Hc' Hne H. apply Hne. rewrite !RGBAToImVec4_channels in H.
  injection H as Hr Hg Hb Ha.
  apply channel_inj in Hr, Hg, Hb, Ha;
    try (apply Z.mod_pos_bound; lia).
  clear - Hc Hc' Hr Hg Hb Ha. Z.div_mod_to_equations. lia.
Qed.

(** ** The buffer of [GetTimeForFrame] *)

Lemma string_of_uint_length :
  forall d,
    String.length (NilEmpty.string_of_uint d) = Decimal.nb_digits d.
Proof. induction d; simpl; congruence. Qed.

Lemma to_uint_length :
  forall p,
    String.length (NilZero.string_of_uint (Pos.to_uint p))
    = Decimal.nb_digits (Pos.to_uint p) /\
    (1 <= Decimal.nb_digits (Pos.to_uint p))%nat.
Proof.
  intros p. pose proof (DecimalPos.Unsigned.to_uint_nonnil p) as Hn.
  destruct (Pos.to_uint p) eqn:E; try contradiction;
    (split; [apply (string_of_uint_length)|simpl; lia]).
Qed.

Lemma nb_digits_two :
  forall d, (Decimal.nb_digits d <= 2)%nat -> (Pos.of_uint d <= 99)%N.
Proof.
  intros d H.
  destruct d as [|d|d|d|d|d|d|d|d|d|d]; [vm_compute; discriminate|..];
    (destruct d as [|d|d|d|d|d|d|d|d|d|d]; [vm_compute; discriminate|..];
     (destruct d; [vm_compute; discriminate|..]; simpl in H; lia)).
Qed.

Lemma nb_digits_one :
  forall d, (Decimal.nb_digits d <= 1)%nat -> (Pos.of_uint d <= 9)%N.
Proof.
  intros d H.
  destruct d as [|d|d|d|d|d|d|d|d|d|d]; [vm_compute; discriminate|..];
    (destruct d; [vm_compute; discriminate|..]; simpl in H; lia).
Qed.

Lemma to_uint_digits :
  forall p,
    ((Decimal.nb_digits (Pos.to_uint p) <= 2)%nat <-> (p <= 99)%positive) /\
    ((Decimal.nb_digits (Pos.to_uint p) <= 1)%nat <-> (p <= 9)%positive).
Proof.
  assert (T : forallb (fun n => (Decimal.nb_digits (Pos.to_uint (Pos.of_nat n)) <=? 2)%nat)
                (seq 1 99) = true) by (vm_compute; reflexivity).
  assert (U : forallb (fun n => (Decimal.nb_digits (Pos.to_uint (Pos.of_nat n)) <=? 1)%nat)
                (seq 1 9) = true) by (vm_compute; reflexivity).
  rewrite forallb_forall in T, U.
  intros p. split; split.
  - intros H. apply nb_digits_two in H.
    rewrite DecimalPos.Unsigned.of_to in H. exact H.
  - intros H. specialize (T (Pos.to_nat p)). rewrite Pos2Nat.id in T.
    apply Nat.leb_le, T, in_seq. lia.
  - intros H. apply nb_digits_one in H.
    rewrite DecimalPos.Unsigned.of_to in H. exact H.
  - intros H. specialize (U (Pos.to_nat p)). rewrite Pos2Nat.id in U.
    apply Nat.leb_le, U, in_seq. lia.
Qed.

(** [%02d] prints at least two characters, and exactly two for the numbers
    from -9 to 99. *)
Lemma fmt_02d_length :
  forall n,
    (2 <= String.length (fmt_02d n))%nat /\
    (String.length (fmt_02d n) = 2%nat <-> -9 <= n <= 99).
Proof.
  intros n. unfold fmt_02d. destruct n as [|p|p]; simpl Z.to_int.
  - simpl. split; [lia|]. split; [lia|reflexivity].
  - unfold NilZero.string_of_int.
    destruct (to_uint_length p) as [-> H1].
    destruct (to_uint_digits p) as [[A B] _].
    destruct (Decimal.nb_digits (Pos.to_uint p) <? 2)%nat eqn:E;
      [apply Nat.ltb_lt in E|apply Nat.ltb_ge in E].
    + simpl String.length. destruct (to_uint_length p) as [-> _].
      split; [lia|]. split; [intros _; assert (p <= 99)%positive by (apply A; lia); lia|lia].
    + destruct (to_uint_length p) as [-> _].
      split; [lia|]. split.
      * intros H. assert (p <= 99)%positive by (apply A; lia). lia.
      * intros H. assert (Decimal.nb_digits (Pos.to_uint p) <= 2)%nat by (apply B; lia).
        lia.
  - unfold NilZero.string_of_int. simpl String.length.
    destruct (to_uint_length p) as [-> H1].
    destruct (to_uint_digits p) as [_ [A B]].
    replace (S (Decimal.nb_digits (Pos.to_uint p)) <? 2)%nat with false
      by (symmetry; apply Nat.ltb_ge; lia).
    simpl String.length. destruct (to_uint_length p) as [-> _].
    split; [lia|]. split.
    + intros H. assert (p <= 9)%positive by (apply A; lia). lia.
    + intros H. assert (Decimal.nb_digits (Pos.to_uint p) <= 1)%nat by (apply B; lia).
      lia.
Qed.

Lemma length_append :
  forall a b, String.length (a ++ b) = (String.length a + String.length b)%nat.
Proof. induction a; intros b; simpl; [reflexivity|now rewrite IHa]. Qed.

(** X13.  [GetTimeForFrame] has a result exactly when the elapsed frames
    are an [int] and the text fits the six bytes of [currTime], that is
    when the minutes are between -9 and 99 and the seconds not below -9;
    the result then has five characters, the third a colon. *)
Theorem GetTimeForFrame_fits_buffer :
  forall currFrame,
    let elapsed := currFrame - GAME_FIRST_FRAME in
    let currSeconds := Z.quot elapsed 60 in
    (GetTimeForFrame currFrame <> None <->
     -2147483648 <= elapsed <= 2147483647 /\
     -9 <= Z.quot currSeconds 60 <= 99 /\ -9 <= Z.rem currSeconds 60) /\
    (forall s,
        GetTimeForFrame currFrame = Some s ->
        String.length s = 5%nat /\ String.get 2 s = Some ":"%char).
Proof.
  intros currFrame elapsed currSeconds. unfold GetTimeForFrame.
  fold elapsed. fold currSeconds.
  destruct (fmt_02d_length (Z.quot currSeconds 60)) as [M1 M2].
  destruct (fmt_02d_length (Z.rem currSeconds 60)) as [R1 R2].
  assert (Hrem : -59 <= Z.rem currSeconds 60 <= 59).
  { pose proof (Z.rem_bound_abs currSeconds 60 ltac:(lia)). lia. }
  assert (L : String.length (fmt_02d (Z.quot currSeconds 60) ++ ":" ++
                             fmt_02d (Z.rem currSeconds 60))
              = (String.length (fmt_02d (Z.quot currSeconds 60)) + 1 +
                 String.length (fmt_02d (Z.rem currSeconds 60)))%nat).
  { rewrite !length_append. simpl. lia. }
  destruct ((-2147483648 <=? elapsed) && (elapsed <=? 2147483647)) eqn:Hr.
  - apply andb_true_iff in Hr. destruct Hr as [Hr1 Hr2].
    apply Z.leb_le in Hr1, Hr2. cbv zeta.
    destruct (_ <? 6)%nat eqn:Hl; [apply Nat.ltb_lt in Hl|apply Nat.ltb_ge in Hl];
      rewrite L in Hl.
    + split.
      * split; [intros _|discriminate].
        split; [lia|]. assert (-9 <= Z.quot currSeconds 60 <= 99) by (apply M2; lia).
        assert (-9 <= Z.rem currSeconds 60 <= 99) by (apply R2; lia). lia.
      * intros s Hs. injection Hs as <-.
        split; [etransitivity; [exact L|lia]|].
        assert (H2 : String.length (fmt_02d (Z.quot currSeconds 60)) = 2%nat) by lia.
        destruct (fmt_02d (Z.quot currSeconds 60)) as [|c1 [|c2 [|c3 r]]];
          simpl in H2; try discriminate. reflexivity.
    + split.
      * split; [intros H; now contradiction H|].
        intros (_ & Hm & Hs).
        assert (String.length (fmt_02d (Z.quot currSeconds 60)) = 2%nat) by (apply M2; lia).
        assert (String.length (fmt_02d (Z.rem currSeconds 60)) = 2%nat) by (apply R2; lia).
        lia.
      * intros s Hs. discriminate Hs.
  - apply andb_false_iff in Hr. split.
    + split; [intros H; now contradiction H|].
      intros (Hr' & _). destruct Hr as [Hr|Hr]; apply Z.leb_gt in Hr; lia.
    + intros s Hs. discriminate Hs.
Qed.

(** ** Whole frames of the control bar *)

Lemma keeps_and_then :
  forall (A : Type) (field : World -> A) (f g : step),
    keeps field f -> keeps field g -> keeps field (f ;; g).
Proof.
  intros A field f g Hf Hg w. rewrite and_then_fst. now rewrite Hg, Hf.
Qed.

Lemma silent_and_then :
  forall kind (f g : step), silent kind f -> silent kind g -> silent kind (f ;; g).
Proof.
  intros kind f g Hf Hg w. rewrite and_then_snd, filter_app.
  now rewrite Hf, Hg.
Qed.

(** The world a frame starts its window with: the one it was given, the
    idle timer and the remembered pointer position apart. *)
Lemma frame_prologue :
  forall i w,
    exists w0 diff,
      DrawSlippiPlaybackControls i w
      = (if Begin i then
           (seek_bar_step i ;;
            alpha_step i diff ;;
            jump_step i (fast_backward i) (-1200) ;;
            jump_step i (step_backward i) (-300) ;;
            jump_step i (step_forward i) 300 ;;
            jump_step i (fast_forward i) 1200 ;;
            volume_button_step i ;;
            volume_bar_step i ;;
            help_step i ;;
            fullscreen_step i) w0
         else (w0, [])) /\
      frame w0 = frame w /\ showHelp w0 = showHelp w /\
      seek_isHeld w0 = seek_isHeld w /\ volume_isHeld w0 = volume_isHeld w /\
      prev w0 = prev w /\ g_playbackStatus w0 = g_playbackStatus w /\
      m_Volume w0 = m_Volume w /\ style_Alpha w0 = style_Alpha w.
Proof.
  intros i w. unfold DrawSlippiPlaybackControls.
  set (w0 := set_prev_mouse (mousePos i) _).
  set (diff := if _ <? 1000 then 0 else _).
  exists w0, diff. split; [reflexivity|].
  subst w0. destruct (negb _); simpl; auto 10.
Qed.

(** X14.  A frame whose window ImGui does not begin, or whose items it skips,
    makes no call to the host and leaves the position shown, the help
    flag, both sliders' hold flags, the volume, the remembered volume and
    the playback status as they were. *)
Theorem inert_frame :
  forall i w,
    Begin i = false \/ SkipItems i = true ->
    let w' := fst (DrawSlippiPlaybackControls i w) in
    snd (DrawSlippiPlaybackControls i w) = [] /\
    frame w' = frame w /\ showHelp w' = showHelp w /\
    seek_isHeld w' = seek_isHeld w /\ volume_isHeld w' = volume_isHeld w /\
    prev w' = prev w /\ g_playbackStatus w' = g_playbackStatus w /\
    m_Volume w' = m_Volume w /\
    (Begin i = false -> style_Alpha w' = style_Alpha w).
Proof.
  intros i w H.
  destruct (frame_prologue i w) as (w0 & diff & -> & F & S & H1 & H2 & P & G & V & A).
  destruct (Begin i) eqn:HB.
  - destruct H as [H|HS]; [discriminate|].
    unfold and_then, seek_bar_step, SeekBar, alpha_step, jump_step,
      volume_button_step, volume_bar_step, VolumeBar, help_step, fullscreen_step,
      ButtonCustom.
    rewrite HS. simpl. repeat split; auto. discriminate.
  - simpl. repeat split; auto.
Qed.

Lemma seek_bar_step_status :
  forall i w,
    g_playbackStatus (fst (seek_bar_step i w))
    = (if seek_released i w
       then mkStatus (currentPlaybackFrame (g_playbackStatus w))
              (lastFrame (g_playbackStatus w)) (frame w)
       else g_playbackStatus w) /\
    snd (seek_bar_step i w)
    = (if seek_released i w then [Host_PlaybackSeek (frame w)] else []).
Proof.
  intros i w. unfold seek_bar_step, SeekBar, SeekBarBehavior, seek_released.
  destruct (SkipItems i); [simpl; auto|].
  destruct (seek_isHeld w) eqn:Hh, (MouseDown i), (seek_hovered i);
    rewrite ?andb_false_r; simpl; rewrite ?Hh; simpl;
    repeat match goal with
           | |- context [if ?b then _ else _] => destruct b; simpl; rewrite ?Hh; simpl
           end;
    auto.
Qed.

Lemma keeps_status_alpha : forall i diff, keeps g_playbackStatus (alpha_step i diff).
Proof. intros i diff w. reflexivity. Qed.

Lemma keeps_status_volume_button : forall i, keeps g_playbackStatus (volume_button_step i).
Proof. intros i w. unfold volume_button_step. split_ifs. Qed.

Lemma keeps_status_volume_bar : forall i, keeps g_playbackStatus (volume_bar_step i).
Proof. intros i w. unfold volume_bar_step, VolumeBar, VolumeBarBehavior. split_ifs. Qed.

Lemma keeps_status_help : forall i, keeps g_playbackStatus (help_step i).
Proof. intros i w. unfold help_step. split_ifs. Qed.

Lemma keeps_status_fullscreen : forall i, keeps g_playbackStatus (fullscreen_step i).
Proof. intros i w. unfold fullscreen_step. split_ifs. Qed.

Lemma silent_seek_alpha : forall i diff, silent is_seek (alpha_step i diff).
Proof. intros i diff w. reflexivity. Qed.

Lemma silent_seek_volume_button : forall i, silent is_seek (volume_button_step i).
Proof. intros i w. unfold volume_button_step. split_ifs. Qed.

Lemma silent_seek_volume_bar : forall i, silent is_seek (volume_bar_step i).
Proof. intros i w. unfold volume_bar_step, VolumeBar, VolumeBarBehavior. split_ifs. Qed.

Lemma silent_seek_help : forall i, silent is_seek (help_step i).
Proof. intros i w. unfold help_step. split_ifs. Qed.

Lemma silent_seek_fullscreen : forall i, silent is_seek (fullscreen_step i).
Proof. intros i w. unfold fullscreen_step. split_ifs. Qed.

Lemma jump_step_pending :
  forall i b delta w,
    targetFrameNum (g_playbackStatus w) <> INT_MAX -> jump_step i b delta w = (w, []).
Proof.
  intros i b delta w H. unfold jump_step. apply Z.eqb_neq in H. rewrite H.
  now destruct (ButtonCustom _ _).
Qed.

Lemma jump_step_fires :
  forall i b delta w,
    ButtonCustom (SkipItems i) b = true ->
    targetFrameNum (g_playbackStatus w) = INT_MAX ->
    -2147482448 <= currentPlaybackFrame (g_playbackStatus w) <= 2147482446 ->
    -1200 <= delta <= 1200 ->
    let target := currentPlaybackFrame (g_playbackStatus w) + delta in
    jump_step i b delta w
    = (set_targetFrameNum target w, [Host_PlaybackSeek target]) /\
    target <> INT_MAX.
Proof.
  intros i b delta w Hb Ht Hc Hd target. unfold jump_step.
  rewrite Hb, Ht. simpl. rewrite s32_small by (unfold target; lia).
  split; [reflexivity|]. unfold target, INT_MAX. lia.
Qed.

(** The four jump buttons in the order of the frame: the first one that
    reports a press while no seek is pending sets the target, and the later
    ones then find a seek pending. *)
Lemma jump_steps :
  forall i w,
    -2147482448 <= currentPlaybackFrame (g_playbackStatus w) <= 2147482446 ->
    let r1 := jump_step i (fast_backward i) (-1200) w in
    let r2 := jump_step i (step_backward i) (-300) (fst r1) in
    let r3 := jump_step i (step_forward i) 300 (fst r2) in
    let r4 := jump_step i (fast_forward i) 1200 (fst r3) in
    let fired :=
      if targetFrameNum (g_playbackStatus w) =? INT_MAX
      then pressed_jump i else None in
    fst r4
    = match fired with
      | Some d => set_targetFrameNum (currentPlaybackFrame (g_playbackStatus w) + d) w
      | None => w
      end /\
    snd r1 ++ snd r2 ++ snd r3 ++ snd r4
    = match fired with
      | Some d => [Host_PlaybackSeek (currentPlaybackFrame (g_playbackStatus w) + d)]
      | None => []
      end.
Proof.
  intros i w Hc. cbv zeta.
  destruct (targetFrameNum (g_playbackStatus w) =? INT_MAX) eqn:Ht;
    [apply Z.eqb_eq in Ht|apply Z.eqb_neq in Ht].
  2: { repeat (rewrite (jump_step_pending i _ _ w Ht); simpl fst; simpl snd). auto. }
  assert (fires : forall b delta,
             ButtonCustom (SkipItems i) b = true -> -1200 <= delta <= 1200 ->
             jump_step i b delta w
             = (set_targetFrameNum (currentPlaybackFrame (g_playbackStatus w) + delta) w,
                [Host_PlaybackSeek (currentPlaybackFrame (g_playbackStatus w) + delta)]) /\
             targetFrameNum
               (g_playbackStatus
                  (set_targetFrameNum
                     (currentPlaybackFrame (g_playbackStatus w) + delta) w))
             <> INT_MAX).
  { intros b delta Hb Hd. exact (jump_step_fires i b delta w Hb Ht Hc Hd). }
  assert (idle : forall b delta,
             ButtonCustom (SkipItems i) b = false -> jump_step i b delta w = (w, [])).
  { intros b delta Hb. unfold jump_step. now rewrite Hb. }
  unfold pressed_jump.
  destruct (ButtonCustom (SkipItems i) (fast_backward i)) eqn:B1.
  { destruct (fires _ (-1200) B1 ltac:(lia)) as [-> Hne]. simpl fst. simpl snd.
    repeat (rewrite (jump_step_pending i _ _ _ Hne); simpl fst; simpl snd). auto. }
  rewrite (idle _ (-1200) B1). simpl fst. simpl snd.
  destruct (ButtonCustom (SkipItems i) (step_backward i)) eqn:B2.
  { destruct (fires _ (-300) B2 ltac:(lia)) as [-> Hne]. simpl fst. simpl snd.
    repeat (rewrite (jump_step_pending i _ _ _ Hne); simpl fst; simpl snd). auto. }
  rewrite (idle _ (-300) B2). simpl fst. simpl snd.
  destruct (ButtonCustom (SkipItems i) (step_forward i)) eqn:B3.
  { destruct (fires _ 300 B3 ltac:(lia)) as [-> Hne]. simpl fst. simpl snd.
    repeat (rewrite (jump_step_pending i _ _ _ Hne); simpl fst; simpl snd). auto. }
  rewrite (idle _ 300 B3). simpl fst. simpl snd.
  destruct (ButtonCustom (SkipItems i) (fast_forward i)) eqn:B4.
  { destruct (fires _ 1200 B4 ltac:(lia)) as [-> Hne]. auto. }
  rewrite (idle _ 1200 B4). auto.
Qed.

Lemma jump_step_seeks :
  forall i b delta w,
    filter is_seek (snd (jump_step i b delta w)) = snd (jump_step i b delta w).
Proof. intros i b delta w. unfold jump_step. split_ifs. Qed.

(** X15.  A frame asks for at most one seek.  Letting the seek bar go asks
    for the position the bar shows; otherwise, while no seek is pending, the
    first jump button of the frame that reports a press asks for the frame
    being played plus its offset; otherwise nothing is asked and the target
    stays.  Jump buttons pressed while a seek is pending, or in the frame
    that lets the bar go, are ignored. *)
Theorem frame_seek_requests :
  forall i w,
    Begin i = true ->
    frame w <> INT_MAX ->
    -2147482448 <= currentPlaybackFrame (g_playbackStatus w) <= 2147482446 ->
    let request :=
      if seek_released i w then Some (frame w)
      else if targetFrameNum (g_playbackStatus w) =? INT_MAX
           then option_map (Z.add (currentPlaybackFrame (g_playbackStatus w)))
                  (pressed_jump i)
           else None in
    let w' := fst (DrawSlippiPlaybackControls i w) in
    filter is_seek (snd (DrawSlippiPlaybackControls i w))
      = match request with Some t => [Host_PlaybackSeek t] | None => [] end /\
    targetFrameNum (g_playbackStatus w')
      = match request with
        | Some t => t
        | None => targetFrameNum (g_playbackStatus w)
        end /\
    currentPlaybackFrame (g_playbackStatus w')
      = currentPlaybackFrame (g_playbackStatus w) /\
    lastFrame (g_playbackStatus w') = lastFrame (g_playbackStatus w).
Proof.
  intros i w HB Hf Hc.
  destruct (frame_prologue i w) as (w0 & diff & -> & F & S & H1 & H2 & P & G & V & A).
  rewrite HB. cbv zeta.
  assert (R : seek_released i w0 = seek_released i w)
    by (unfold seek_released; now rewrite H1).
  destruct (seek_bar_step_status i w0) as [Gs Es].
  rewrite R, F, G in Gs. rewrite R, F in Es.
  set (w1 := fst (seek_bar_step i w0)) in *.
  set (w2 := fst (alpha_step i diff w1)).
  assert (G2 : g_playbackStatus w2 = g_playbackStatus w1) by apply keeps_status_alpha.
  assert (Hc2 : -2147482448 <= currentPlaybackFrame (g_playbackStatus w2) <= 2147482446).
  { rewrite G2, Gs. now destruct (seek_released i w). }
  pose proof (jump_steps i w2 Hc2) as J. cbv zeta in J.
  set (r1 := jump_step i (fast_backward i) (-1200) w2) in *.
  set (r2 := jump_step i (step_backward i) (-300) (fst r1)) in *.
  set (r3 := jump_step i (step_forward i) 300 (fst r2)) in *.
  set (r4 := jump_step i (fast_forward i) 1200 (fst r3)) in *.
  destruct J as [J1 J2].
  assert (K : keeps g_playbackStatus
                (volume_button_step i ;; volume_bar_step i ;;
                 help_step i ;; fullscreen_step i)).
  { repeat apply keeps_and_then;
      auto using keeps_status_volume_button, keeps_status_volume_bar,
        keeps_status_help, keeps_status_fullscreen. }
  assert (Q : silent is_seek
                (volume_button_step i ;; volume_bar_step i ;;
                 help_step i ;; fullscreen_step i)).
  { repeat apply silent_and_then;
      auto using silent_seek_volume_button, silent_seek_volume_bar,
        silent_seek_help, silent_seek_fullscreen. }
  assert (Ev : filter is_seek
                 (snd ((seek_bar_step i ;;
                        alpha_step i diff ;;
                        jump_step i (fast_backward i) (-1200) ;;
                        jump_step i (step_backward i) (-300) ;;
                        jump_step i (step_forward i) 300 ;;
                        jump_step i (fast_forward i) 1200 ;;
                        volume_button_step i ;; volume_bar_step i ;;
                        help_step i ;; fullscreen_step i) w0))
               = filter is_seek (snd (seek_bar_step i w0))
                 ++ snd r1 ++ snd r2 ++ snd r3 ++ snd r4).
  { rewrite 6 and_then_snd. rewrite !filter_app.
    fold w1. rewrite (silent_seek_alpha i diff w1). fold w2. fold r1. fold r2.
    fold r3. fold r4. rewrite Q, app_nil_r.
    unfold r1, r2, r3, r4. now rewrite !jump_step_seeks. }
  assert (St : g_playbackStatus
                 (fst ((seek_bar_step i ;;
                        alpha_step i diff ;;
                        jump_step i (fast_backward i) (-1200) ;;
                        jump_step i (step_backward i) (-300) ;;
                        jump_step i (step_forward i) 300 ;;
                        jump_step i (fast_forward i) 1200 ;;
                        volume_button_step i ;; volume_bar_step i ;;
                        help_step i ;; fullscreen_step i) w0))
               = g_playbackStatus (fst r4)).
  { rewrite 6 and_then_fst. fold w1. fold w2. fold r1. fold r2. fold r3. fold r4.
    apply K. }
  rewrite Ev, St, J1, J2, Es. clear Ev St J1 J2.
  rewrite G2, Gs.
  destruct (seek_released i w) eqn:Hrel.
  - simpl targetFrameNum. apply Z.eqb_neq in Hf. rewrite Hf. simpl.
    rewrite ?G2, ?Gs, ?Hrel. simpl. auto.
  - destruct (targetFrameNum (g_playbackStatus w) =? INT_MAX) eqn:Ht.
    + destruct (pressed_jump i) as [d|]; simpl; rewrite ?G2, ?Gs, ?Hrel; simpl; auto.
    + simpl. rewrite ?G2, ?Gs, ?Hrel. auto.
Qed.




(** What a click on the mute button does within a frame in which the
    volume bar is not being set. *)
Lemma mute_click :
  forall i w,
    Begin i = true ->
    ButtonCustom (SkipItems i) (volume_button i) = true ->
    volume_bar_idle i w = true ->
    let w' := fst (DrawSlippiPlaybackControls i w) in
    m_Volume w'
      = (if m_Volume w =? 0 then (if prev w =? 0 then 30 else prev w) else 0) /\
    prev w' = (if m_Volume w =? 0 then prev w else m_Volume w) /\
    volume_isHeld w' = false /\
    filter is_volume_change (snd (DrawSlippiPlaybackControls i w))
      = [UpdateSoundStream (m_Volume w')].
Proof.
  intros i w HB Hmute Hidle. cbv zeta.
  destruct (frame_volume i w HB) as (wp & V1 & V2 & V3 & R).
  cbv zeta in R. destruct R as (R1 & R2 & R3 & R4).
  rewrite R1, R2, R3, R4. clear R1 R2 R3 R4.
  unfold volume_button_step. rewrite Hmute, V1, V3.
  assert (Hskip : SkipItems i = false).
  { unfold ButtonCustom in Hmute. destruct (SkipItems i); [discriminate|reflexivity]. }
  unfold volume_bar_idle in Hidle. apply negb_true_iff in Hidle.
  assert (Hc : forall x,
             (volume_isHeld w || volume_hovered i) && (negb x && MouseDown i) = false).
  { intros x. apply andb_false_iff in Hidle. destruct Hidle as [->| ->];
      [reflexivity|rewrite !andb_false_r; reflexivity]. }
  assert (Hh : (if volume_isHeld w then volume_isHeld w && MouseDown i
                else volume_hovered i && MouseDown i) = false).
  { destruct (volume_isHeld w), (volume_hovered i), (MouseDown i);
      simpl in *; congruence. }
  unfold volume_bar_step, VolumeBar, VolumeBarBehavior. rewrite Hskip.
  destruct (m_Volume w =? 0); simpl fst; simpl snd; simpl volume_isHeld;
    simpl m_Volume; rewrite V2, Hc; simpl; rewrite Hh; auto.
Qed.

(** X16.  Two clicks on the mute button, in frames in which the volume bar is
    not being set, bring the volume back to what it was, whatever it was:
    the first click silences a sounding volume or restores a silenced one,
    the second undoes it, and each click applies its volume once. *)
Theorem mute_round_trip :
  forall i1 i2 status w,
    Begin i1 = true -> Begin i2 = true ->
    ButtonCustom (SkipItems i1) (volume_button i1) = true ->
    ButtonCustom (SkipItems i2) (volume_button i2) = true ->
    volume_bar_idle i1 w = true ->
    volume_hovered i2 && MouseDown i2 = false ->
    let r1 := DrawSlippiPlaybackControls i1 w in
    let r2 := DrawSlippiPlaybackControls i2 (set_playbackStatus status (fst r1)) in
    m_Volume (fst r2) = m_Volume w /\
    (m_Volume (fst r1) = 0 <-> m_Volume w <> 0) /\
    filter is_volume_change (snd r1) = [UpdateSoundStream (m_Volume (fst r1))] /\
    filter is_volume_change (snd r2) = [UpdateSoundStream (m_Volume w)].
Proof.
  intros i1 i2 status w HB1 HB2 Hm1 Hm2 Hidle1 Hidle2 r1 r2.
  destruct (mute_click i1 w HB1 Hm1 Hidle1) as (A1 & A2 & A3 & A4).
  fold r1 in A1, A2, A3, A4.
  assert (Hidle : volume_bar_idle i2 (set_playbackStatus status (fst r1)) = true).
  { unfold volume_bar_idle. simpl volume_isHeld. rewrite A3. simpl.
    now rewrite Hidle2. }
  destruct (mute_click i2 _ HB2 Hm2 Hidle) as (B1 & B2 & B3 & B4).
  fold r2 in B1, B2, B3, B4. simpl m_Volume in B1. simpl prev in B1.
  assert (E : m_Volume (fst r2) = m_Volume w).
  { rewrite B1, A1, A2.
    destruct (m_Volume w =? 0) eqn:Hv; [apply Z.eqb_eq in Hv|apply Z.eqb_neq in Hv].
    - destruct (prev w =? 0) eqn:Hp; simpl; [now rewrite Hv|].
      rewrite Hp. now rewrite Hv.
    - simpl. apply Z.eqb_neq in Hv. now rewrite Hv. }
  split; [exact E|]. split; [|split; [exact A4|now rewrite B4, E]].
  rewrite A1.
  destruct (m_Volume w =? 0) eqn:Hv; [apply Z.eqb_eq in Hv|apply Z.eqb_neq in Hv].
  - destruct (prev w =? 0) eqn:Hp; [|apply Z.eqb_neq in Hp]; split; intros; lia.
  - split; auto.
Qed.

(** X17.  While the value read off the volume bar is between 0 and 100, a
    frame keeps the volume and the remembered volume between 0 and 100, and
    every volume it applies is in that range. *)
Theorem volume_stays_in_range :
  forall i w,
    0 <= m_Volume w <= 100 -> 0 <= prev w <= 100 ->
    0 <= volume_value i <= 100 ->
    let r := DrawSlippiPlaybackControls i w in
    0 <= m_Volume (fst r) <= 100 /\ 0 <= prev (fst r) <= 100 /\
    (forall v, In (UpdateSoundStream v) (snd r) -> 0 <= v <= 100).
Proof.
  intros i w Hv Hp Hbar r. subst r.
  destruct (Begin i) eqn:HB.
  2: { destruct (frame_prologue i w) as (w0 & diff & -> & F & S & H1 & H2 & P & G & V & A).
       rewrite HB. simpl. rewrite P, V.
       split; [lia|split; [lia|intros v []]]. }
  destruct (frame_volume i w HB) as (wp & V1 & V2 & V3 & R).
  cbv zeta in R. destruct R as (R1 & _ & R3 & R4).
  assert (Hin : forall v,
             In (UpdateSoundStream v) (snd (DrawSlippiPlaybackControls i w)) ->
             In (UpdateSoundStream v)
                (filter is_volume_change (snd (DrawSlippiPlaybackControls i w)))).
  { intros v Hin. apply filter_In. split; [exact Hin|reflexivity]. }
  rewrite R1, R3. rewrite R4 in Hin. clear R1 R3 R4.
  revert Hin.
  unfold volume_button_step, volume_bar_step, VolumeBar, VolumeBarBehavior.
  fold (volume_value i). rewrite V1, V3.
  assert (P30 : 0 <= (if prev w =? 0 then 30 else prev w) <= 100)
    by (destruct (prev w =? 0); lia).
  destruct (ButtonCustom (SkipItems i) (volume_button i)), (SkipItems i),
    (m_Volume w =? 0); simpl;
    repeat match goal with
           | |- context [if ?b then _ else _] => destruct b; simpl
           end;
    intros Hin; (split; [lia|split; [lia|]]);
    intros v Hv'; apply Hin in Hv'; simpl in Hv';
    repeat match goal with
           | H : _ \/ _ |- _ => destruct H
           | H : False |- _ => destruct H
           | H : UpdateSoundStream _ = UpdateSoundStream _ |- _ => injection H as <-
           end; lia.
Qed.

Lemma keeps_showHelp_alpha : forall i diff, keeps showHelp (alpha_step i diff).
Proof. intros i diff w. reflexivity. Qed.

Lemma keeps_showHelp_jump : forall i b delta, keeps showHelp (jump_step i b delta).
Proof. intros i b delta w. unfold jump_step. split_ifs. Qed.

Lemma keeps_showHelp_volume_button : forall i, keeps showHelp (volume_button_step i).
Proof. intros i w. unfold volume_button_step. split_ifs. Qed.

Lemma keeps_showHelp_volume_bar : forall i, keeps showHelp (volume_bar_step i).
Proof. intros i w. unfold volume_bar_step, VolumeBar, VolumeBarBehavior. split_ifs. Qed.

Lemma keeps_showHelp_fullscreen : forall i, keeps showHelp (fullscreen_step i).
Proof. intros i w. unfold fullscreen_step. split_ifs. Qed.

Lemma silent_fullscreen_seek_bar : forall i, silent is_fullscreen (seek_bar_step i).
Proof. intros i w. unfold seek_bar_step, SeekBar, SeekBarBehavior. split_ifs. Qed.

Lemma silent_fullscreen_alpha : forall i diff, silent is_fullscreen (alpha_step i diff).
Proof. intros i diff w. reflexivity. Qed.

Lemma silent_fullscreen_jump :
  forall i b delta, silent is_fullscreen (jump_step i b delta).
Proof. intros i b delta w. unfold jump_step. split_ifs. Qed.

Lemma silent_fullscreen_volume_button :
  forall i, silent is_fullscreen (volume_button_step i).
Proof. intros i w. unfold volume_button_step. split_ifs. Qed.

Lemma silent_fullscreen_volume_bar : forall i, silent is_fullscreen (volume_bar_step i).
Proof. intros i w. unfold volume_bar_step, VolumeBar, VolumeBarBehavior. split_ifs. Qed.

Lemma silent_fullscreen_help : forall i, silent is_fullscreen (help_step i).
Proof. intros i w. unfold help_step. split_ifs. Qed.

(** X18.  In a frame that lays the bar out, the help panel is toggled exactly
    when the help button reports a press, and fullscreen is asked for, once,
    exactly when the fullscreen button does; nothing else in the frame
    touches either. *)
Theorem help_and_fullscreen_buttons :
  forall i w,
    Begin i = true ->
    showHelp (fst (DrawSlippiPlaybackControls i w))
      = xorb (showHelp w) (ButtonCustom (SkipItems i) (help_button i)) /\
    filter is_fullscreen (snd (DrawSlippiPlaybackControls i w))
      = (if ButtonCustom (SkipItems i) (fullscreen_button i)
         then [Host_Fullscreen] else []).
Proof.
  intros i w HB.
  destruct (frame_prologue i w) as (w0 & diff & -> & F & S & H1 & H2 & P & G & V & A).
  rewrite HB. split.
  - rewrite 9 and_then_fst. rewrite keeps_showHelp_fullscreen.
    unfold help_step at 1.
    set (w8 := fst (volume_bar_step i _)).
    assert (E : showHelp w8 = showHelp w).
    { subst w8. rewrite keeps_showHelp_volume_bar, keeps_showHelp_volume_button.
      rewrite !keeps_showHelp_jump, keeps_showHelp_alpha, seek_bar_step_showHelp.
      exact S. }
    destruct (ButtonCustom (SkipItems i) (help_button i)); simpl; rewrite E;
      now destruct (showHelp w).
  - rewrite 9 and_then_snd. rewrite !filter_app.
    rewrite silent_fullscreen_seek_bar, silent_fullscreen_alpha.
    rewrite !silent_fullscreen_jump.
    rewrite silent_fullscreen_volume_button, silent_fullscreen_volume_bar.
    rewrite silent_fullscreen_help. simpl.
    unfold fullscreen_step.
    now destruct (ButtonCustom (SkipItems i) (fullscreen_button i)).
Qed.

Lemma no_press_inv :
  forall i,
    no_press i = true ->
    ButtonCustom (SkipItems i) (fast_backward i) = false /\
    ButtonCustom (SkipItems i) (step_backward i) = false /\
    ButtonCustom (SkipItems i) (step_forward i) = false /\
    ButtonCustom (SkipItems i) (fast_forward i) = false /\
    ButtonCustom (SkipItems i) (volume_button i) = false /\
    ButtonCustom (SkipItems i) (help_button i) = false /\
    ButtonCustom (SkipItems i) (fullscreen_button i) = false.
Proof.
  intros i H. unfold no_press in H.
  repeat (apply andb_true_iff in H; destruct H as [H ?]).
  repeat match goal with
         | H : negb _ = true |- _ => apply negb_true_iff in H
         end.
  auto 10.
Qed.

(** X19.  Pointing without pressing does nothing: in a frame with the mouse
    button up, the seek bar not held and no button reporting a press, no
    call is made to the host, and the playback status, the volume, the
    remembered volume and the help flag stay as they were, wherever the
    pointer is; neither slider is held afterwards. *)
Theorem hover_changes_nothing :
  forall i w,
    MouseDown i = false -> seek_isHeld w = false -> no_press i = true ->
    let w' := fst (DrawSlippiPlaybackControls i w) in
    snd (DrawSlippiPlaybackControls i w) = [] /\
    g_playbackStatus w' = g_playbackStatus w /\
    m_Volume w' = m_Volume w /\ prev w' = prev w /\
    showHelp w' = showHelp w /\
    seek_isHeld w' = false /\
    (Begin i = true -> SkipItems i = false -> volume_isHeld w' = false).
Proof.
  intros i w Hd Hh Hn.
  destruct (no_press_inv i Hn) as (B1 & B2 & B3 & B4 & B5 & B6 & B7).
  destruct (frame_prologue i w) as (w0 & diff & -> & F & S & H1 & H2 & P & G & V & A).
  destruct (Begin i); [|simpl; rewrite G, V, P, S, H1, Hh; repeat split; auto; discriminate].
  unfold and_then, seek_bar_step, SeekBar, SeekBarBehavior, alpha_step, jump_step,
    volume_button_step, volume_bar_step, VolumeBar, VolumeBarBehavior, help_step,
    fullscreen_step.
  rewrite B1, B2, B3, B4, B5, B6, B7, Hd, H1, Hh.
  rewrite ?andb_false_r, ?orb_false_r.
  destruct (SkipItems i); simpl.
  - rewrite G, V, P, S, H1, Hh. repeat split; auto. discriminate.
  - rewrite ?andb_false_r. simpl. rewrite ?andb_false_r. simpl.
    rewrite ?andb_false_r.
    destruct (volume_isHeld w0); simpl; rewrite G, V, P, S; auto 10.
Qed.

(** ** Fading *)

(** X20.  A message never gets more opaque as it ages: of two remaining
    lifetimes, the shorter one gives the lower or the same opacity. *)
Theorem DrawMessage_alpha_monotone :
  forall t1 t2,
    0 < t1 -> t1 <= t2 -> t2 < 2147483648 ->
    (f32_to_Q (DrawMessage_alpha t1) <= f32_to_Q (DrawMessage_alpha t2))%Q.
Proof.
  intros t1 t2 H0 H12 H2.
  rewrite (DrawMessage_alpha_value t1) by lia.
  rewrite (DrawMessage_alpha_value t2) by lia.
  apply Q.min_le_compat_l, Q.max_le_compat_l.
  unfold Qle, Qdiv, Qmult, Qinv, inject_Z. simpl. lia.
Qed.

Lemma fade_steps_down :
  forall k n,
    (n + k < 1000)%nat ->
    (f32_to_Q (fade (Z.of_nat (n + k))) <= f32_to_Q (fade (Z.of_nat n)))%Q.
Proof.
  assert (all :
    forallb (fun n => Qle_bool (f32_to_Q (fade (Z.of_nat (S n))))
                               (f32_to_Q (fade (Z.of_nat n))))
            (seq 0 999) = true) by (vm_compute; reflexivity).
  rewrite forallb_forall in all.
  induction k as [|k IH]; intros n Hn.
  - rewrite Nat.add_0_r. apply Qle_refl.
  - apply Qle_trans with (f32_to_Q (fade (Z.of_nat (n + k)))).
    + replace (n + S k)%nat with (S (n + k)) by lia.
      apply Qle_bool_iff, all, in_seq. lia.
    + apply IH. lia.
Qed.

Lemma fade_above_floor :
  forall d, 0 <= d < 2147483648 -> (f32_to_Q f32_0_0001 <= f32_to_Q (fade d))%Q.
Proof.
  assert (all :
    forallb (fun n => Qle_bool (f32_to_Q f32_0_0001) (f32_to_Q (fade (Z.of_nat n))))
            (seq 0 1000) = true) by (vm_compute; reflexivity).
  rewrite forallb_forall in all.
  intros d H. destruct (Z_lt_ge_dec d 1000) as [Hlt|Hge].
  - specialize (all (Z.to_nat d)). rewrite Z2Nat.id in all by lia.
    apply Qle_bool_iff, all, in_seq. lia.
  - rewrite fade_floor by lia. apply Qle_refl.
Qed.

Lemma fade_monotone :
  forall d1 d2,
    0 <= d1 -> d1 <= d2 -> d2 < 2147483648 ->
    (f32_to_Q (fade d2) <= f32_to_Q (fade d1))%Q.
Proof.
  intros d1 d2 H0 H12 H2.
  destruct (Z_lt_ge_dec d2 1000) as [Hlt|Hge].
  - pose proof (fade_steps_down (Z.to_nat (d2 - d1)) (Z.to_nat d1) ltac:(lia)) as S.
    replace (Z.of_nat (Z.to_nat d1 + Z.to_nat (d2 - d1))) with d2 in S by lia.
    now rewrite Z2Nat.id in S by lia.
  - rewrite (fade_floor d2) by lia. apply fade_above_floor. lia.
Qed.

(** X21.  The bar never gets more opaque while the pointer rests: of two
    frames that lay the bar out with help closed and nothing hovered, the
    pointer not having moved since the same clock value, the one further
    from it, within 2^31 milliseconds, leaves the lower or the same
    [style.Alpha]. *)
Theorem control_bar_fade_monotone :
  forall i1 i2 w1 w2,
    Begin i1 = true -> Begin i2 = true ->
    showHelp w1 = false -> showHelp w2 = false ->
    HoveredID i1 = 0 -> HoveredID i2 = 0 ->
    pointer_moved i1 w1 = false -> pointer_moved i2 w2 = false ->
    idle_tick w2 = idle_tick w1 ->
    u32 (currTime i1 - idle_tick w1) <= u32 (currTime i2 - idle_tick w1) ->
    u32 (currTime i2 - idle_tick w1) < 2147483648 ->
    (f32_to_Q (style_Alpha (fst (DrawSlippiPlaybackControls i2 w2)))
     <= f32_to_Q (style_Alpha (fst (DrawSlippiPlaybackControls i1 w1))))%Q.
Proof.
  intros i1 i2 w1 w2 HB1 HB2 S1 S2 V1 V2 P1 P2 T H12 H2.
  rewrite (frame_alpha i1 w1 HB1), (frame_alpha i2 w2 HB2).
  rewrite S1, S2, V1, V2, P1, P2, T. simpl. cbv zeta.
  assert (E : forall c, u32 (c - idle_tick w1) < 2147483648 ->
                        s32 (c - idle_tick w1) = u32 (c - idle_tick w1)).
  { intros c Hc. rewrite <- s32_u32. apply s32_small.
    pose proof (u32_range (c - idle_tick w1)). lia. }
  pose proof (u32_range (currTime i1 - idle_tick w1)) as R1.
  rewrite (E (currTime i1)) by lia. rewrite (E (currTime i2)) by lia.
  fold (fade (if u32 (currTime i2 - idle_tick w1) <? 1000 then 0
              else u32 (currTime i2 - idle_tick w1) - 1000)).
  fold (fade (if u32 (currTime i1 - idle_tick w1) <? 1000 then 0
              else u32 (currTime i1 - idle_tick w1) - 1000)).
  apply fade_monotone;
    destruct (u32 (currTime i1 - idle_tick w1) <? 1000) eqn:L1;
    destruct (u32 (currTime i2 - idle_tick w1) <? 1000) eqn:L2;
    try apply Z.ltb_lt in L1; try apply Z.ltb_ge in L1;
    try apply Z.ltb_lt in L2; try apply Z.ltb_ge in L2; lia.
Qed.

Lemma VolumeBarBehavior_down :
  forall bb hovered pos v_min v_max w,
    volume_isHeld w || hovered = true ->
    let new_value := slider_new_value bb pos v_min v_max in
    VolumeBarBehavior bb true hovered pos v_min v_max w
    = (negb (m_Volume w =? new_value),
       set_volume_isHeld true
         (if m_Volume w =? new_value then w else set_m_Volume new_value w)).
Proof.
  intros bb hovered pos v_min v_max w H new_value. unfold VolumeBarBehavior.
  rewrite H. fold new_value.
  destruct (m_Volume w =? new_value); simpl;
    destruct (volume_isHeld w), hovered; try discriminate; reflexivity.
Qed.

Lemma volume_button_step_events :
  forall i w,
    volume_isHeld (fst (volume_button_step i w)) = volume_isHeld w /\
    (snd (volume_button_step i w) = [] \/
     snd (volume_button_step i w)
     = [UpdateSoundStream (m_Volume (fst (volume_button_step i w)))]).
Proof.
  intros i w. unfold volume_button_step.
  destruct (ButtonCustom _ _); [|simpl; auto].
  destruct (m_Volume w =? 0); simpl; auto.
Qed.

(** X22.  While the volume bar is being set (held or hovered, with the mouse
    button down), the frame leaves the volume at the value read off the
    bar and the bar held, whatever a click on the mute button did earlier
    in the same frame; the last volume the frame applies, if it applies
    any, is that value. *)
Theorem volume_bar_has_last_word :
  forall i w,
    Begin i = true -> SkipItems i = false ->
    (volume_isHeld w || volume_hovered i) && MouseDown i = true ->
    let r := DrawSlippiPlaybackControls i w in
    m_Volume (fst r) = volume_value i /\
    volume_isHeld (fst r) = true /\
    last (filter is_volume_change (snd r)) (UpdateSoundStream (volume_value i))
    = UpdateSoundStream (volume_value i).
Proof.
  intros i w HB HS Hset r. subst r.
  destruct (frame_volume i w HB) as (wp & V1 & V2 & V3 & R).
  cbv zeta in R. destruct R as (R1 & R2 & _ & R4).
  rewrite R1, R2, R4. clear R1 R2 R4.
  apply andb_true_iff in Hset. destruct Hset as [Hh Hd].
  destruct (volume_button_step_events i wp) as [K E].
  set (w7 := fst (volume_button_step i wp)) in *.
  assert (Hh7 : volume_isHeld w7 || volume_hovered i = true)
    by (now rewrite K, V2).
  unfold volume_bar_step, VolumeBar. rewrite HS, Hd.
  rewrite (VolumeBarBehavior_down _ _ _ 0 100 w7 Hh7). fold (volume_value i).
  destruct (m_Volume w7 =? volume_value i) eqn:Hv; simpl.
  - apply Z.eqb_eq in Hv. split; [exact Hv|]. split; [reflexivity|].
    rewrite app_nil_r.
    destruct E as [-> | ->]; simpl; [reflexivity|now rewrite Hv].
  - split; [reflexivity|]. split; [reflexivity|].
    destruct E as [-> | ->]; reflexivity.
Qed.

End Environment.

(** ** Instances *)

Example AddTypedMessage_twice :
  equal_range 7
    (run_typed [mkAddCall 10 7 "first" 100 0; mkAddCall 20 3 "other" 100 0;
                mkAddCall 30 7 "second" 100 0] [])
  = [mkMessage "second" 130 0].
Proof. reflexivity. Qed.

Example DrawMessages_half_faded :
  map (fun dc => (dc_index dc, text (dc_msg dc), dc_time_left dc, dc_alpha dc))
      (snd (DrawMessages no_window true 5488 unit_scale
              (AddTypedMessage 1000 7 "saved" 5000 0 [])))
  = [(0, "saved"%string, 512, S754_finite false 8388608 (-24))].
Proof. reflexivity. Qed.

Example GetTimeForFrame_first_minute :
  GetTimeForFrame (-123) (-123 + 60 * 83) = Some "01:23"%string.
Proof. reflexivity. Qed.

Example f32_0_0001_nearest :
  f32_div (f32_of_Z 1) (f32_of_Z 10000) = f32_0_0001.
Proof. reflexivity. Qed.

(** C4: 512 milliseconds before its expiry a message is drawn at [0.5f]. *)
Lemma DrawMessages_opacity_witness :
  exists dc,
    In dc (snd (DrawMessages no_window true 5488 unit_scale
                  (AddTypedMessage 1000 7 "saved" 5000 0 []))) /\
    dc_alpha dc = S754_finite false 8388608 (-24).
Proof.
  destruct (DrawMessages_opacity no_window 5488 unit_scale
              (AddTypedMessage 1000 7 "saved" 5000 0 []))
    as (Hcalls & Hdrawn & _).
  destruct (Hdrawn (7, mkMessage "saved" 6000 0) (or_introl eq_refl) eq_refl)
    as (dc & Hin & Hmsg).
  exists dc. split; [exact Hin|].
  destruct (Hcalls dc Hin) as (_ & Htl & _ & _ & H512 & _).
  apply H512. rewrite Htl, Hmsg. reflexivity.
Defined.

(** C4 as stated fails past the 32-bit window: a message of one millisecond
    stored at clock value 0 is, at clock value 2^31 + 2, long after its
    expiry, not dropped but drawn, at full opacity. *)
Lemma DrawMessages_opacity_counterexample :
  map (fun dc => (text (dc_msg dc), dc_time_left dc, dc_alpha dc))
      (snd (DrawMessages no_window true 2147483650 unit_scale
              (AddTypedMessage 0 7 "late" 1 0 [])))
  = [("late"%string, 2147483647, f32_of_Z 1)] /\
  ~ (forall (q0 : multimap) (type : MessageType) message rgba t d clock scale dc,
        0 <= d < 4294967296 ->
        t + d <= clock < 4294967296 ->
        In dc (snd (DrawMessages no_window true clock scale
                      (AddTypedMessage t type message d rgba q0))) ->
        dc_msg dc <> mkMessage message (u32 (t + d)) rgba).
Proof.
  split; [vm_compute; reflexivity|].
  intros H.
  apply (H [] 7 "late"%string 0 0 1 2147483650 unit_scale
           (mkDrawCall 0 (f32_mul LEFT_MARGIN (f32_of_Z 1), f32_mul TOP_MARGIN (f32_of_Z 1))
              (f32_of_Z 1) (RGBAToImVec4 0) (mkMessage "late" 1 0) 2147483647)
           ltac:(lia) ltac:(lia)).
  - vm_compute. left. reflexivity.
  - reflexivity.
Qed.

(** C3: a message of five seconds added at clock value 1000 is kept by the
    calls at 1000 and 5999 and gone after a call at 6000. *)
Lemma DrawMessages_keeps_until_expiry_witness :
  0 <= 5000 < 2147483648 /\
  In (7, mkMessage "saved" (u32 (1000 + 5000)) 0)
     (run_draws no_window
        [mkDrawArgs true 1000 unit_scale; mkDrawArgs false 5999 unit_scale]
        (AddTypedMessage 1000 7 "saved" 5000 0 [])) /\
  ~ In (7, mkMessage "saved" (u32 (1000 + 5000)) 0)
       (run_draws no_window ([] ++ [mkDrawArgs true 6000 unit_scale])
          (AddTypedMessage 1000 7 "saved" 5000 0 [])).
Proof.
  split; [lia|].
  destruct (DrawMessages_keeps_until_expiry 0 no_window []
              (AddTypedMessage 1000 7 "saved" 5000 0 []) 7 "saved" 0 1000 5000
              (or_introl eq_refl) ltac:(lia)) as (_ & Hkeep & Hgone & _).
  split.
  - apply Hkeep. intros c [<-|[<-|[]]]; simpl; lia.
  - apply Hgone. simpl. lia.
Defined.

(** C3 as stated fails at both ends of the 32-bit window: a message with a
    duration of 2^31 milliseconds is dropped by a call at the very clock
    value it was added at, and a message of one millisecond is kept by a
    call made more than 2^31 milliseconds after its expiry. *)
Lemma DrawMessages_long_duration_counterexample :
  ~ (forall (q0 : multimap) (type : MessageType) message rgba t d now scale,
        0 <= d < 4294967296 ->
        t <= now < t + d ->
        In (type, mkMessage message (u32 (t + d)) rgba)
           (fst (DrawMessages no_window true now scale
                   (AddTypedMessage t type message d rgba q0)))) /\
  ~ (forall (q0 : multimap) (type : MessageType) message rgba t d now scale,
        0 <= d < 4294967296 ->
        t + d <= now < 4294967296 ->
        ~ In (type, mkMessage message (u32 (t + d)) rgba)
             (fst (DrawMessages no_window true now scale
                     (AddTypedMessage t type message d rgba q0)))).
Proof.
  split; intros H.
  - specialize (H [] 7 "kept"%string 0 0 2147483648 0 unit_scale
                  ltac:(lia) ltac:(lia)).
    vm_compute in H. exact H.
  - apply (H [] 7 "late"%string 0 0 1 2147483650 unit_scale
             ltac:(lia) ltac:(lia)).
    vm_compute. left. reflexivity.
Qed.

(** C5: on a replay running from frame -122 to 878, in a window 1000
    pixels wide: a press a quarter along the bar, a held frame at the
    middle (frame 378) and a release with the pointer three quarters
    along: one request, carrying 378. *)
Lemma seek_drag_publishes_once_witness :
  seek_drag (initial_world 0 free_running 50)
    (free_running, seek_frame 16 true true 250)
    [(free_running, seek_frame 32 true false 500)]
    (free_running, seek_frame 48 false false 750) /\
  seek_requests (-123) (-122) clamp lerp (initial_world 0 free_running 50)
    [(free_running, seek_frame 16 true true 250);
     (free_running, seek_frame 32 true false 500);
     (free_running, seek_frame 48 false false 750)]
  = [[]; []; [Host_PlaybackSeek 378]].
Proof.
  assert (D : seek_drag (initial_world 0 free_running 50)
                (free_running, seek_frame 16 true true 250)
                [(free_running, seek_frame 32 true false 500)]
                (free_running, seek_frame 48 false false 750)).
  { repeat split; try reflexivity; destruct H as [<-|[]]; reflexivity. }
  split; [exact D|].
  exact (proj1 (seek_drag_publishes_once (-123) (-122) clamp lerp _ _ _ _ D)).
Defined.

(** C5 as stated fails: the request does not carry the value under the
    pointer in the frame of the release. *)
Lemma seek_drag_release_value_counterexample :
  ~ (forall w press held release,
        seek_drag w press held release ->
        seek_requests (-123) (-122) clamp lerp w (press :: held ++ [release])
        = [] :: map (fun _ => []) held
          ++ [[Host_PlaybackSeek (seek_value (-122) clamp lerp release)]]).
Proof.
  intros H.
  specialize (H (initial_world 0 free_running 50)
                (free_running, seek_frame 16 true true 250) []
                (free_running, seek_frame 32 false true 750)).
  assert (D : seek_drag (initial_world 0 free_running 50)
                (free_running, seek_frame 16 true true 250) []
                (free_running, seek_frame 32 false true 750)).
  { repeat split; try reflexivity; destruct H0. }
  specialize (H D). vm_compute in H. discriminate H.
Qed.

(** C6: with the volume at 50, a held frame with the pointer at abscissa
    334 reads 80 off the bar and applies it at once; one at abscissa 310
    reads 50 and applies nothing. *)
Lemma volume_bar_applies_live_witness :
  filter is_volume_change
    (snd (DrawSlippiPlaybackControls (-123) (-122) clamp lerp
            (volume_frame 16 true true 334) (initial_world 0 free_running 50)))
  = [UpdateSoundStream 80] /\
  filter is_volume_change
    (snd (DrawSlippiPlaybackControls (-123) (-122) clamp lerp
            (volume_frame 16 true true 310) (initial_world 0 free_running 50)))
  = [].
Proof.
  split.
  - exact (proj1 (volume_bar_applies_live (-123) (-122) clamp lerp
                    (volume_frame 16 true true 334)
                    (initial_world 0 free_running 50) eq_refl eq_refl eq_refl)).
  - exact (proj1 (volume_bar_applies_live (-123) (-122) clamp lerp
                    (volume_frame 16 true true 310)
                    (initial_world 0 free_running 50) eq_refl eq_refl eq_refl)).
Defined.

(** C7: a click at volume 0 with 45 remembered restores 45. *)
Lemma mute_button_toggles_witness :
  m_Volume
    (fst (DrawSlippiPlaybackControls (-123) (-122) clamp lerp (mute_frame 16)
            (set_prev 45 (initial_world 0 free_running 0))))
  = 45 /\
  m_Volume
    (fst (DrawSlippiPlaybackControls (-123) (-122) clamp lerp (mute_frame 16)
            (initial_world 0 free_running 0)))
  = 30.
Proof.
  split.
  - apply (mute_button_toggles (-123) (-122) clamp lerp (mute_frame 16)
             (set_prev 45 (initial_world 0 free_running 0)) eq_refl eq_refl eq_refl);
      [reflexivity|discriminate].
  - apply (mute_button_toggles (-123) (-122) clamp lerp (mute_frame 16)
             (initial_world 0 free_running 0) eq_refl eq_refl eq_refl);
      reflexivity.
Defined.

(** C8: 2500 milliseconds without pointer movement, help closed, nothing
    hovered. *)
Lemma control_bar_opacity_witness :
  Begin (seek_frame 2500 false false 0) = true /\
  style_Alpha
    (fst (DrawSlippiPlaybackControls (-123) (-122) clamp lerp (seek_frame 2500 false false 0)
            (initial_world 0 free_running 50)))
  = f32_0_0001.
Proof.
  split; [reflexivity|].
  destruct (control_bar_opacity (-123) (-122) clamp lerp (seek_frame 2500 false false 0)
              (initial_world 0 free_running 50) eq_refl) as (_ & H).
  destruct (H eq_refl eq_refl) as (_ & Hidle).
  destruct (Hidle 2500 eq_refl eq_refl ltac:(lia)) as (_ & _ & _ & H2500).
  exact (H2500 eq_refl).
Defined.

(** C8 as stated fails once the 32-bit difference of the clock values has
    its sign bit set: the bar is back at full opacity. *)
Lemma control_bar_opacity_counterexample :
  ~ (forall i w idle,
        Begin i = true -> showHelp w = false -> HoveredID i = 0 ->
        pointer_moved i w = false ->
        u32 (currTime i - idle_tick w) = idle -> 1000 <= idle ->
        style_Alpha (fst (DrawSlippiPlaybackControls (-123) (-122) clamp lerp i w))
        = std_max f32_0_0001
            (f32_sub (f32_of_Z 1)
               (f32_div (f32_of_Z (idle - 1000)) (f32_of_Z 1000)))).
Proof.
  intros H.
  specialize (H (seek_frame 2147483648 false false 0)
                (initial_world 0 free_running 50) 2147483648
                eq_refl eq_refl eq_refl eq_refl eq_refl ltac:(lia)).
  vm_compute in H. discriminate H.
Qed.

(** C9: one minute and 23 seconds into the game. *)
Lemma GetTimeForFrame_MM_SS_witness :
  -59 <= (-123 + 60 * 83) - (-123) < 360000 /\
  GetTimeForFrame (-123) (-123 + 60 * 83) = Some "01:23"%string.
Proof.
  split; [lia|].
  exact (proj1 (proj2 (proj2 (proj2
           (GetTimeForFrame_MM_SS (-123) clamp lerp (-123 + 60 * 83) ltac:(lia)))))).
Defined.

(** C9 as stated fails at both ends: a frame one second before the first
    one is printed with a sign, and at 100 minutes the text has a third
    minute digit and no longer fits the buffer. *)
Lemma GetTimeForFrame_counterexample :
  GetTimeForFrame (-123) (-123 - 60) = Some "00:-1"%string /\
  GetTimeForFrame (-123) (-123 + 360000) = None /\
  ~ (forall currFrame,
        GetTimeForFrame (-123) currFrame
        = Some (MM_SS (Z.quot (Z.quot (currFrame - (-123)) 60) 60)
                      (Z.rem (Z.quot (currFrame - (-123)) 60) 60))).
Proof.
  split; [reflexivity|]. split; [reflexivity|].
  intros H. specialize (H (-123 + 360000)). vm_compute in H. discriminate H.
Qed.

(** ** Instances of the further properties *)


(** X10: two untyped messages around a typed one of another type. *)
Lemma untyped_messages_accumulate_witness :
  equal_range 0
    (run_ops 0 no_window
       [OpAdd (mkAddCall 10 0 "first" 100 0);
        OpAddTyped (mkAddCall 20 7 "typed" 100 0);
        OpAdd (mkAddCall 30 0 "second" 100 0)] [])
  = [mkMessage "first" 110 0; mkMessage "second" 130 0].
Proof.
  apply (untyped_messages_accumulate 0 no_window
           [OpAdd (mkAddCall 10 0 "first" 100 0);
            OpAddTyped (mkAddCall 20 7 "typed" 100 0);
            OpAdd (mkAddCall 30 0 "second" 100 0)] []).
  - constructor.
  - reflexivity.
Defined.

(** X11: opaque red. *)
Lemma RGBAToImVec4_reads_ARGB_witness :
  RGBAToImVec4 4294901760 = (f32_of_Z 1, f32_of_Z 0, f32_of_Z 0, f32_of_Z 1).
Proof.
  destruct (RGBAToImVec4_reads_ARGB 255 255 0 0) as (H & _ & H0 & H1); try lia.
  change 4294901760 with (ARGB 255 255 0 0).
  rewrite H, H0, H1. reflexivity.
Defined.

(** X12: two colours that differ in the lowest bit of the blue byte. *)
Lemma RGBAToImVec4_injective_witness :
  RGBAToImVec4 4278190080 <> RGBAToImVec4 4278190081.
Proof. apply RGBAToImVec4_injective; lia. Defined.

(** X14: a window ImGui does not begin, every button pressed. *)
Lemma inert_frame_witness :
  snd (DrawSlippiPlaybackControls (-123) (-122) clamp lerp (hidden_frame 16)
         (initial_world 0 (playing 5000) 50))
  = [].
Proof.
  exact (proj1 (inert_frame (-123) (-122) clamp lerp (hidden_frame 16)
                  (initial_world 0 (playing 5000) 50) (or_introl eq_refl))).
Defined.

(** X15: the jump-back and the step-forward buttons pressed in one frame
    while frame 5000 plays: one request, for frame 3800. *)
Lemma frame_seek_requests_witness :
  filter is_seek
    (snd (DrawSlippiPlaybackControls (-123) (-122) clamp lerp
            (button_frame 16 pressed_button idle_button pressed_button idle_button
               idle_button idle_button idle_button)
            (initial_world 0 (playing 5000) 50)))
  = [Host_PlaybackSeek 3800].
Proof.
  refine (proj1 (frame_seek_requests (-123) (-122) clamp lerp
                   (button_frame 16 pressed_button idle_button pressed_button
                      idle_button idle_button idle_button idle_button)
                   (initial_world 0 (playing 5000) 50) eq_refl _ _)).
  - simpl. unfold INT_MAX. lia.
  - simpl. lia.
Defined.

(** X16: two clicks on the mute button at volume 50. *)
Lemma mute_round_trip_witness :
  m_Volume
    (fst (DrawSlippiPlaybackControls (-123) (-122) clamp lerp (mute_frame 32)
            (set_playbackStatus (playing 5001)
               (fst (DrawSlippiPlaybackControls (-123) (-122) clamp lerp (mute_frame 16)
                       (initial_world 0 (playing 5000) 50))))))
  = 50.
Proof.
  exact (proj1 (mute_round_trip (-123) (-122) clamp lerp (mute_frame 16)
                  (mute_frame 32) (playing 5001)
                  (initial_world 0 (playing 5000) 50)
                  eq_refl eq_refl eq_refl eq_refl eq_refl eq_refl)).
Defined.

(** X17: dragging the volume bar to 80. *)
Lemma volume_stays_in_range_witness :
  0 <= m_Volume
         (fst (DrawSlippiPlaybackControls (-123) (-122) clamp lerp
                 (volume_frame 16 true true 334)
                 (initial_world 0 (playing 5000) 50)))
  <= 100.
Proof.
  refine (proj1 (volume_stays_in_range (-123) (-122) clamp lerp
                   (volume_frame 16 true true 334)
                   (initial_world 0 (playing 5000) 50) _ _ _)).
  - simpl. lia.
  - simpl. lia.
  - vm_compute. split; discriminate.
Defined.

(** X18: the help and the fullscreen buttons pressed in one frame. *)
Lemma help_and_fullscreen_buttons_witness :
  showHelp
    (fst (DrawSlippiPlaybackControls (-123) (-122) clamp lerp
            (button_frame 16 idle_button idle_button idle_button idle_button
               idle_button pressed_button pressed_button)
            (initial_world 0 (playing 5000) 50)))
  = true /\
  filter is_fullscreen
    (snd (DrawSlippiPlaybackControls (-123) (-122) clamp lerp
            (button_frame 16 idle_button idle_button idle_button idle_button
               idle_button pressed_button pressed_button)
            (initial_world 0 (playing 5000) 50)))
  = [Host_Fullscreen].
Proof.
  exact (help_and_fullscreen_buttons (-123) (-122) clamp lerp
           (button_frame 16 idle_button idle_button idle_button idle_button
              idle_button pressed_button pressed_button)
           (initial_world 0 (playing 5000) 50) eq_refl).
Defined.

(** X19: the pointer over the middle of the seek bar, the button up. *)
Lemma hover_changes_nothing_witness :
  snd (DrawSlippiPlaybackControls (-123) (-122) clamp lerp
         (seek_frame 16 false true 500) (initial_world 0 (playing 5000) 50))
  = [].
Proof.
  exact (proj1 (hover_changes_nothing (-123) (-122) clamp lerp
                  (seek_frame 16 false true 500)
                  (initial_world 0 (playing 5000) 50) eq_refl eq_refl eq_refl)).
Defined.

(** X20: a quarter of a second left against half a second left. *)
Lemma DrawMessage_alpha_monotone_witness :
  (f32_to_Q (DrawMessage_alpha 256) <= f32_to_Q (DrawMessage_alpha 512))%Q.
Proof. apply DrawMessage_alpha_monotone; lia. Defined.

(** X21: the bar 1500 and 1800 milliseconds after the pointer stopped. *)
Lemma control_bar_fade_monotone_witness :
  (f32_to_Q
     (style_Alpha
        (fst (DrawSlippiPlaybackControls (-123) (-122) clamp lerp
                (seek_frame 1800 false false 0)
                (initial_world 0 (playing 5000) 50))))
   <= f32_to_Q
        (style_Alpha
           (fst (DrawSlippiPlaybackControls (-123) (-122) clamp lerp
                   (seek_frame 1500 false false 0)
                   (initial_world 0 (playing 5000) 50)))))%Q.
Proof.
  refine (control_bar_fade_monotone (-123) (-122) clamp lerp
            (seek_frame 1500 false false 0) (seek_frame 1800 false false 0)
            (initial_world 0 (playing 5000) 50) (initial_world 0 (playing 5000) 50)
            eq_refl eq_refl eq_refl eq_refl eq_refl eq_refl eq_refl eq_refl eq_refl
            _ _).
  - vm_compute. discriminate.
  - vm_compute. reflexivity.
Defined.

(** X22: a click on the mute button in a frame that holds the volume bar at
    80. *)
Lemma volume_bar_has_last_word_witness :
  m_Volume
    (fst (DrawSlippiPlaybackControls (-123) (-122) clamp lerp
            (mute_on_bar_frame 16 334) (initial_world 0 (playing 5000) 50)))
  = 80.
Proof.
  exact (proj1 (volume_bar_has_last_word (-123) (-122) clamp lerp
                  (mute_on_bar_frame 16 334)
                  (initial_world 0 (playing 5000) 50) eq_refl eq_refl eq_refl)).
Defined.

End OSD.
